(** * University timetable as a CSP: the assignment engine of [test.py]

    A shallow embedding of the scheduling core of the repository
    (the script whose docstring calls itself [timetable_full_solver_v3]):
    [compatible_room], [LectureVar], [build_vars_domains], [greedy_assign],
    [improve_assignments] and the row-building part of [export_results],
    followed by the properties the specification states about them.

    Conventions of the embedding.
    - Python [str] is [string]; identifiers and type names are taken to be
      ASCII, so [str.lower] only moves [A-Z] to [a-z].
    - Python [int] is [Z] (student counts, capacities, years, counters);
      a session index comes from [range(sessions)] and is a [nat].
    - A [dict] that is only read by key ([courses], [curriculum],
      [timeslot_info], [domains]) is a [gmap]; a [dict] whose iteration order
      is observed ([rooms], [instructors], [assigned]) is an insertion-ordered
      association list.  A [set] is a [gset].
    - [LectureVar] hashes and compares by its [name] only, so mappings keyed
      by a [LectureVar] are keyed by that name; "distinct sessions" are
      variables of different names.
    - [random.shuffle] is an oracle [shuffle] handed to [improve_assignments];
      the properties assume it returns a permutation of its argument.
    - [assigned[v]] on a missing key raises [KeyError]: functions that read
      it return an [option], [None] being the exception.

    Layout: the embedding of the source, then the vocabulary the properties
    are stated in, then the properties.  Module [TimetablePy] holds the
    parts of [timetable.py] that differ from [test.py].

    Beyond the scheduling core the embedding covers the string handling and
    the sheet and column matching of [test.py] ([find_column],
    [load_tables_xlsx], the qualification cells of [preprocess]), the table
    loaders and statistics of [data_loader.py] (Module [DataLoader]) and the
    room rule of the Streamlit interface (Module [StreamlitUi]).
*)

From Stdlib Require Import ZArith List String Ascii Lia Permutation Sorted.
From Stdlib Require Import Decimal DecimalString DecimalNat.
From stdpp Require Import gmap strings list fin_maps.

Open Scope string_scope.
Open Scope list_scope.
Open Scope Z_scope.

(** ** Python string helpers *)

Module Py.

(** [c.lower()] on one ASCII character. *)
Definition lower_ascii (a : ascii) : ascii :=
  let n := nat_of_ascii a in
  if ((65 <=? n)%nat && (n <=? 90)%nat)%bool then ascii_of_nat (n + 32) else a.

(** [s.lower()]. *)
Fixpoint lower (s : string) : string :=
  match s with
  | EmptyString => EmptyString
  | String a s' => String (lower_ascii a) (lower s')
  end.

(** [needle in hay] on strings: some suffix of [hay] starts with [needle]. *)
Fixpoint contains (needle hay : string) : bool :=
  String.prefix needle hay
  || match hay with
     | EmptyString => false
     | String _ hay' => contains needle hay'
     end.

(** [str(n)] for a non-negative integer. *)
Definition str_of_nat (n : nat) : string :=
  NilZero.string_of_uint (Nat.to_uint n).

(** Truthiness of a string: [not s] holds of the empty string only. *)
Definition is_empty (s : string) : bool :=
  match s with EmptyString => true | String _ _ => false end.

End Py.

(** ** Insertion-ordered dictionaries

    [d[k] = v] keeps the position (and the key object) of an existing entry
    and appends a new entry otherwise; [d.get(k)] returns the value of the
    entry whose key compares equal. *)

Section OrderedDict.
Context {K V : Type} (key_eqb : K -> K -> bool).

Fixpoint dict_get (d : list (K * V)) (k : K) : option V :=
  match d with
  | [] => None
  | (k', v') :: d' => if key_eqb k' k then Some v' else dict_get d' k
  end.

Fixpoint dict_set (d : list (K * V)) (k : K) (v : V) : list (K * V) :=
  match d with
  | [] => [(k, v)]
  | (k', v') :: d' =>
      if key_eqb k' k then (k', v) :: d' else (k', v') :: dict_set d' k v
  end.

Definition dict_keys (d : list (K * V)) : list K := fst <$> d.
End OrderedDict.

(** ** Reference data *)

Record Course := mkCourse { course_name : string; course_type : string }.

Record Instructor := mkInstructor { instr_name : string; quals : gset string }.

Record Room := mkRoom { room_type : string; capacity : Z }.

Record Section := mkSection {
  section_id : string; group : string; sec_year : Z; sec_students : Z }.

Record TimeslotInfo := mkTimeslotInfo {
  ts_day : string; ts_start : string; ts_end : string }.

(** ** [compatible_room] *)

Definition compatible_room (course_type room_type : string) : bool :=
  let c := Py.lower course_type in
  let r := Py.lower room_type in
  if Py.is_empty c then true
  else if String.eqb c r then true
  else if Py.contains "lec" c && Py.contains "lec" r then true
  else if Py.contains "lab" c && Py.contains "lab" r then true
  else if Py.contains "project" c && Py.contains "project" r then true
  else if Py.contains "lec" r then true
  else false.

(** ** [LectureVar] *)

Record LectureVar := mkLectureVar {
  course : string; section : string; year : Z; idx : nat; students : Z }.

(** [self.name = f"{course}_{section}_L{idx}"]. *)
Definition name (v : LectureVar) : string :=
  (course v ++ "_" ++ section v ++ "_L" ++ Py.str_of_nat (idx v))%string.

(** [__eq__]: two variables are equal when their names are. *)
Definition LectureVar_eqb (v w : LectureVar) : bool := String.eqb (name v) (name w).

(** A candidate is the Python tuple [(t, r, instr, qual)]. *)
Definition Candidate : Type := string * string * string * bool.

Definition cand_t (d : Candidate) : string := d.1.1.1.
Definition cand_r (d : Candidate) : string := d.1.1.2.
Definition cand_instr (d : Candidate) : string := d.1.2.
Definition cand_qual (d : Candidate) : bool := d.2.

(** The two occupancy keys of a candidate. *)
Definition room_slot (d : Candidate) : string * string := (cand_t d, cand_r d).
Definition instr_slot (d : Candidate) : string * string := (cand_t d, cand_instr d).

(** ** [build_vars_domains] *)

Section BuildVarsDomains.
Variable courses : gmap string Course.
Variable instructors : list (string * Instructor).
Variable rooms : list (string * Room).
Variable timeslots : list string.
Variable curriculum : gmap Z (list string).

(** [courses.get(cid, {}).get("type", "")]. *)
Definition ctype_of (cid : string) : string :=
  default "" (course_type <$> courses !! cid).

(** [sessions = 2 if "lec" in ctype else 1]. *)
Definition sessions_of (ctype : string) : nat :=
  if Py.contains "lec" ctype then 2%nat else 1%nat.

(** [instr_list = list(instructors.keys()) if instructors else []]. *)
Definition instr_list : list string :=
  match instructors with [] => [] | _ => dict_keys instructors end.

(** [cid in instructors[instr]["quals"]]; [instr] always comes from
    [instr_list], so the lookup cannot miss. *)
Definition qualified_for (cid instr : string) : bool :=
  match dict_get String.eqb instructors instr with
  | Some info => bool_decide (cid ∈ quals info)
  | None => false
  end.

(** The loop nest that fills [dom] for one session. *)
Definition build_dom (ctype cid : string) (studs : Z) : list Candidate :=
  fold_left (fun dom t =>
    fold_left (fun dom (entry : string * Room) =>
      let (r, rinfo) := entry in
      if negb (compatible_room ctype (room_type rinfo)) then dom
      else if capacity rinfo <? studs then dom
      else
        fold_left (fun dom instr =>
          dom ++ [(t, r, instr, qualified_for cid instr)]) instr_list dom)
      rooms dom)
    timeslots [].

(** State threaded through the loops: [variables] and [domains]. *)
Definition bvd_state : Type := list LectureVar * gmap string (list Candidate).

(** Body of [for i in range(sessions)]. *)
Definition bvd_session (sec : Section) (cid ctype : string)
    (st : bvd_state) (i : nat) : bvd_state :=
  let v := mkLectureVar cid (section_id sec) (sec_year sec) i (sec_students sec) in
  (st.1 ++ [v], <[name v := build_dom ctype cid (sec_students sec)]> st.2).

(** Body of [for cid in clist]. *)
Definition bvd_course (sec : Section) (st : bvd_state) (cid : string) : bvd_state :=
  let ctype := ctype_of cid in
  fold_left (bvd_session sec cid ctype) (seq 0 (sessions_of ctype)) st.

(** Body of [for sec in sections]. *)
Definition bvd_section (st : bvd_state) (sec : Section) : bvd_state :=
  let clist := default [] (curriculum !! sec_year sec) in
  fold_left (bvd_course sec) clist st.

Definition build_vars_domains (sections : list Section) : bvd_state :=
  fold_left bvd_section sections ([], ∅).

(** The variables one section contributes for one course id. *)
Definition sessions_for (sec : Section) (cid : string) : list LectureVar :=
  (fun i => mkLectureVar cid (section_id sec) (sec_year sec) i (sec_students sec))
    <$> seq 0 (sessions_of (ctype_of cid)).

End BuildVarsDomains.

(** ** [sorted(variables, key=lambda x: -x.students)]

    Python's [sorted] is stable and ascending in the key.  Stable insertion
    sort computes the same list: the stable ascending arrangement of a list
    is unique (see [stable_sort_unique] below). *)

Section StableSort.
Context {A : Type} (key : A -> Z).

Fixpoint insert_by (x : A) (l : list A) : list A :=
  match l with
  | [] => [x]
  | y :: l' => if key x <=? key y then x :: y :: l' else y :: insert_by x l'
  end.

Fixpoint sorted_by (l : list A) : list A :=
  match l with
  | [] => []
  | x :: l' => insert_by x (sorted_by l')
  end.
End StableSort.

(** ** [greedy_assign] *)

Record greedy_state := mkGreedy {
  assigned : list (LectureVar * Candidate);
  used_room_ts : gset (string * string);
  used_instr_ts : gset (string * string);
  violations : Z }.

Definition greedy_init : greedy_state := mkGreedy [] ∅ ∅ 0.

Section GreedyStep.
Variable used_r used_i : gset (string * string).

(** [(t,r) in used_room_ts or (t,instr) in used_instr_ts]. *)
Definition occupied (d : Candidate) : bool :=
  bool_decide (room_slot d ∈ used_r) || bool_decide (instr_slot d ∈ used_i).

(** The first loop: skip occupied options, [break] on the first free one. *)
Fixpoint first_fit (options : list Candidate) : option Candidate :=
  match options with
  | [] => None
  | opt :: rest => if occupied opt then first_fit rest else Some opt
  end.

(** [conf = 0; if ...: conf += 1; if ...: conf += 1]. *)
Definition conflicts (d : Candidate) : Z :=
  let conf := 0 in
  let conf := if bool_decide (room_slot d ∈ used_r) then conf + 1 else conf in
  let conf := if bool_decide (instr_slot d ∈ used_i) then conf + 1 else conf in
  conf.

(** One round of the fallback loop on [(best, best_conf)]. *)
Definition fallback_round (acc : option Candidate * Z) (opt : Candidate)
    : option Candidate * Z :=
  let conf := conflicts opt in
  if conf <? acc.2 then (Some opt, conf) else acc.

(** The fallback loop, started at [best = None], [best_conf = 1e9]. *)
Definition least_conflicts (dom : list Candidate) : option Candidate * Z :=
  fold_left fallback_round dom (None, 1000000000).
End GreedyStep.

(** The tuple invented when nothing was chosen.  That branch is only reached
    with an empty [dom]; were [dom] non-empty, [domains] would be non-empty
    too and [domains and next(iter(dom))[k]] would be the field of the first
    candidate. *)
Definition synthetic (dom : list Candidate) : Candidate :=
  match dom with
  | [] => ("ts0", "room0", "instr0", false)
  | d :: _ => (cand_t d, cand_r d, cand_instr d, false)
  end.

Section GreedyAssign.
Variable domains : gmap string (list Candidate).

(** [domains.get(v, [])]. *)
Definition domain_of (v : LectureVar) : list Candidate :=
  default [] (domains !! name v).

(** [qualified + other]. *)
Definition preference_order (dom : list Candidate) : list Candidate :=
  List.filter cand_qual dom ++ List.filter (fun d => negb (cand_qual d)) dom.

(** The choice made for [v] and the violation counter after it. *)
Definition choose (st : greedy_state) (v : LectureVar) : Candidate * Z :=
  let dom := domain_of v in
  let chosen := first_fit (used_room_ts st) (used_instr_ts st) (preference_order dom) in
  let viol := violations st in
  let (chosen, viol) :=
    match chosen with
    | Some _ => (chosen, viol)
    | None =>
        match (least_conflicts (used_room_ts st) (used_instr_ts st) dom).1 with
        | Some best => (Some best, viol + 1)
        | None => (None, viol)
        end
    end in
  match chosen with
  | Some c => (c, viol)
  | None => (synthetic dom, viol + 1)
  end.

(** Body of the [for v in sorted(...)] loop. *)
Definition greedy_step (st : greedy_state) (v : LectureVar) : greedy_state :=
  let (chosen, viol) := choose st v in
  mkGreedy (dict_set LectureVar_eqb (assigned st) v chosen)
           ({[room_slot chosen]} ∪ used_room_ts st)
           ({[instr_slot chosen]} ∪ used_instr_ts st)
           viol.

Definition greedy_order (variables : list LectureVar) : list LectureVar :=
  sorted_by (fun x => - students x) variables.

Definition greedy_run (variables : list LectureVar) : greedy_state :=
  fold_left greedy_step (greedy_order variables) greedy_init.

Definition greedy_assign (variables : list LectureVar)
    : list (LectureVar * Candidate) * Z :=
  let st := greedy_run variables in (assigned st, violations st).
End GreedyAssign.

(** ** [improve_assignments] *)

Record improve_state := mkImprove {
  im_assigned : list (LectureVar * Candidate);
  room_ts : gset (string * string);
  instr_ts : gset (string * string);
  improved : Z }.

Section ImproveAssignments.
Variable shuffle : list LectureVar -> list LectureVar.
Variable domains : gmap string (list Candidate).

(** The inner [for opt in dom] loop.  [None] is the [KeyError] of
    [assigned[v]]; [Some found] is the value of [found] after the loop. *)
Fixpoint find_upgrade (st : improve_state) (v : LectureVar)
    (dom : list Candidate) : option (option Candidate) :=
  match dom with
  | [] => Some None
  | opt :: rest =>
      if negb (cand_qual opt) then find_upgrade st v rest
      else
        cur ← dict_get LectureVar_eqb (im_assigned st) v;
        let conflict := false in
        let conflict :=
          if bool_decide (room_slot opt ∈ room_ts st)
             && negb (String.eqb (cand_t opt) (cand_t cur)
                      && String.eqb (cand_r opt) (cand_r cur))
          then true else conflict in
        let conflict :=
          if bool_decide (instr_slot opt ∈ instr_ts st)
             && negb (String.eqb (cand_t opt) (cand_t cur)
                      && String.eqb (cand_instr opt) (cand_instr cur))
          then true else conflict in
        if negb conflict then Some (Some opt) else find_upgrade st v rest
  end.

(** The [if found:] block. *)
Definition apply_upgrade (st : improve_state) (v : LectureVar)
    (found : Candidate) : option improve_state :=
  cur ← dict_get LectureVar_eqb (im_assigned st) v;
  Some (mkImprove (dict_set LectureVar_eqb (im_assigned st) v found)
                  ({[room_slot found]} ∪ (room_ts st ∖ {[room_slot cur]}))
                  ({[instr_slot found]} ∪ (instr_ts st ∖ {[instr_slot cur]}))
                  (improved st + 1)).

(** One iteration of the [while] loop on the popped session [v]. *)
Definition improve_step (st : improve_state) (v : LectureVar)
    : option improve_state :=
  found ← find_upgrade st v (default [] (domains !! name v));
  match found with
  | Some opt => apply_upgrade st v opt
  | None => Some st
  end.

(** [while unqualified and it < max_iters]; [stack] lists [unqualified]
    from its end, the side [pop()] takes from. *)
Fixpoint improve_loop (stack : list LectureVar) (it max_iters : Z)
    (st : improve_state) : option improve_state :=
  match stack with
  | [] => Some st
  | v :: rest =>
      if it <? max_iters then
        st' ← improve_step st v;
        improve_loop rest (it + 1) max_iters st'
      else Some st
  end.

(** [unqualified = [v for v, val in assigned.items() if not val[3]]]. *)
Definition unqualified_of (a : list (LectureVar * Candidate)) : list LectureVar :=
  fst <$> List.filter (fun e : LectureVar * Candidate => negb (cand_qual e.2)) a.

Definition improve_init (a : list (LectureVar * Candidate)) : improve_state :=
  mkImprove a (list_to_set ((fun e => room_slot e.2) <$> a))
              (list_to_set ((fun e => instr_slot e.2) <$> a)) 0.

Definition improve_assignments (a : list (LectureVar * Candidate))
    (max_iters : Z) : option (list (LectureVar * Candidate) * Z) :=
  let unqualified := shuffle (unqualified_of a) in
  st ← improve_loop (rev unqualified) 0 max_iters (improve_init a);
  Some (im_assigned st, improved st).
End ImproveAssignments.

(** ** [export_results]: the rows handed to the CSV writer *)

Record Row := mkRow {
  row_Variable : string; row_Year : Z; row_Course : string; row_Section : string;
  row_TimeslotID : string; row_Day : string; row_Start : string; row_End : string;
  row_Room : string; row_InstructorID : string; row_InstructorName : string;
  row_InstructorQualified : bool }.

Section ExportResults.
Variable timeslot_info : gmap string TimeslotInfo.
Variable instructors : list (string * Instructor).

Definition export_row (e : LectureVar * Candidate) : Row :=
  let (v, val) := e in
  let info := default (mkTimeslotInfo "" "" "") (timeslot_info !! cand_t val) in
  let instr_name :=
    default (cand_instr val)
            (instr_name <$> dict_get String.eqb instructors (cand_instr val)) in
  mkRow (name v) (year v) (course v) (section v) (cand_t val)
        (ts_day info) (ts_start info) (ts_end info) (cand_r val)
        (cand_instr val) instr_name (cand_qual val).

(** [for v, val in assigned.items(): rows.append(...)]. *)
Definition export_rows (a : list (LectureVar * Candidate)) : list Row :=
  fold_left (fun rows e => rows ++ [export_row e]) a [].
End ExportResults.

(** ** The pipeline of [choose_and_run] after preprocessing *)

Record RunResult := mkRunResult {
  res_assigned : list (LectureVar * Candidate);
  res_rows : list Row;
  res_violations : Z;
  res_improved : Z }.

(** The default of the [max_iters] parameter, which the pipeline relies on. *)
Definition default_max_iters : Z := 5000.

Definition run_pipeline (shuffle : list LectureVar -> list LectureVar)
    (courses : gmap string Course) (instructors : list (string * Instructor))
    (rooms : list (string * Room)) (timeslots : list string)
    (timeslot_info : gmap string TimeslotInfo) (sections : list Section)
    (curriculum : gmap Z (list string)) : option RunResult :=
  let (variables, domains) :=
    build_vars_domains courses instructors rooms timeslots curriculum sections in
  let (a, viol) := greedy_assign domains variables in
  r ← improve_assignments shuffle domains a default_max_iters;
  Some (mkRunResult r.1 (export_rows timeslot_info instructors r.1) viol r.2).

(** ** The sibling scripts

    [timetable.py] and the Streamlit script ([match_room], [assign_lecs])
    carry an earlier form of the same engine: [compatible_room] has no guard
    for an empty course type, and a variable without a free candidate gets a
    random pick instead of the least-conflict one.  Their [LectureVar]
    defines neither [__eq__] nor [__hash__], so the dictionaries are keyed by
    object identity: every variable carries its own domain and receives its
    own entry, whatever its name. *)

Module TimetablePy.

Definition compatible_room (course_type room_type : string) : bool :=
  let c := Py.lower course_type in
  let r := Py.lower room_type in
  if String.eqb c r then true
  else if Py.contains "lec" c && Py.contains "lec" r then true
  else if Py.contains "lab" c && Py.contains "lab" r then true
  else if Py.contains "project" c && Py.contains "project" r then true
  else if Py.contains "lec" r then true
  else false.

Record state := mkState {
  tt_assigned : list (LectureVar * Candidate);
  tt_used_room_ts : gset (string * string);
  tt_used_instr_ts : gset (string * string);
  tt_calls : nat }.

Section Greedy.
Variable draws : nat -> nat.
Variable instructors : list (string * Instructor).
Variable rooms : list (string * Room).
Variable timeslots : list string.

(** [random.choice(seq)], the [k]-th use of the generator, which yields
    the index [draws k] reduced to the length; [None] is the [IndexError]
    raised on an empty sequence. *)
Definition choice {A : Type} (k : nat) (seq : list A) : option A :=
  match seq with
  | [] => None
  | _ :: _ => seq !! (draws k mod length seq)%nat
  end.

(** The candidate for a variable of domain [dom] and the number of
    generator calls after it. *)
Definition pick (st : state) (dom : list Candidate) : option (Candidate * nat) :=
  match first_fit (tt_used_room_ts st) (tt_used_instr_ts st) (preference_order dom) with
  | Some c => Some (c, tt_calls st)
  | None =>
      match dom with
      | _ :: _ => c ← choice (tt_calls st) dom; Some (c, S (tt_calls st))
      | [] =>
          t ← choice (tt_calls st) timeslots;
          r ← choice (S (tt_calls st)) (dict_keys rooms);
          instr ← choice (S (S (tt_calls st))) (dict_keys instructors);
          Some ((t, r, instr, false), S (S (S (tt_calls st))))
      end
  end.

(** Body of the loop for the variable [e.1], whose domain is [e.2]. *)
Definition greedy_step (st : state) (e : LectureVar * list Candidate) : option state :=
  p ← pick st e.2;
  Some (mkState (tt_assigned st ++ [(e.1, p.1)])
                ({[room_slot p.1]} ∪ tt_used_room_ts st)
                ({[instr_slot p.1]} ∪ tt_used_instr_ts st)
                p.2).

Fixpoint greedy_loop (l : list (LectureVar * list Candidate)) (st : state)
    : option state :=
  match l with
  | [] => Some st
  | e :: l' => st' ← greedy_step st e; greedy_loop l' st'
  end.

(** [variables] lists every variable with the domain stored for it. *)
Definition greedy_assign (variables : list (LectureVar * list Candidate))
    : option (list (LectureVar * Candidate)) :=
  st ← greedy_loop (sorted_by (fun e => - students e.1) variables) (mkState [] ∅ ∅ 0);
  Some (tt_assigned st).
End Greedy.

Section Build.
Variable courses : gmap string Course.
Variable instructors : list (string * Instructor).
Variable rooms : list (string * Room).
Variable timeslots : list string.
Variable curriculum : gmap Z (list string).

(** The loop nest that fills [dom]; the instructors are walked as
    [instructors.items()]. *)
Definition build_dom (ctype cid : string) (studs : Z) : list Candidate :=
  fold_left (fun dom t =>
    fold_left (fun dom (entry : string * Room) =>
      let (r, rinfo) := entry in
      if negb (compatible_room ctype (room_type rinfo)) then dom
      else if capacity rinfo <? studs then dom
      else
        fold_left (fun dom (instr : string * Instructor) =>
          dom ++ [(t, r, instr.1, bool_decide (cid ∈ quals instr.2))])
          instructors dom)
      rooms dom)
    timeslots [].

(** [build_vars_domains]: every variable in emission order, each with the
    domain stored for it. *)
Definition build_vars_domains (sections : list Section)
    : list (LectureVar * list Candidate) :=
  fold_left (fun acc sec =>
    fold_left (fun acc cid =>
      let ctype := ctype_of courses cid in
      fold_left (fun acc i =>
        acc ++ [(mkLectureVar cid (section_id sec) (sec_year sec) i (sec_students sec),
                 build_dom ctype cid (sec_students sec))])
        (seq 0 (sessions_of ctype)) acc)
      (default [] (curriculum !! sec_year sec)) acc)
    sections [].

(** [main] after loading: build, then assign. *)
Definition main_assign (draws : nat -> nat) (sections : list Section)
    : option (list (LectureVar * Candidate)) :=
  greedy_assign draws instructors rooms timeslots (build_vars_domains sections).
End Build.

End TimetablePy.

(** ** Reference data of the specification's scenarios *)

Definition scenario_courses : gmap string Course := {[ "C1" := mkCourse "Intro" "lecture" ]}.
Definition scenario_instructors : list (string * Instructor) :=
  [("I1", mkInstructor "Ann" {[ "C1" ]})].
Definition scenario_rooms : list (string * Room) := [("R1", mkRoom "lecture" 30)].
Definition scenario_curriculum : gmap Z (list string) := {[ 1 := ["C1"] ]}.
Definition scenario_sections : list Section := [mkSection "S1" "" 1 10].
Definition scenario_L0 : LectureVar := mkLectureVar "C1" "S1" 1 0 10.
Definition scenario_L1 : LectureVar := mkLectureVar "C1" "S1" 1 1 10.

(** ** More Python string helpers: [strip], [split], [replace], [join]

    [split], [replace] and [join] are modelled for a one-character
    separator, the only use the scripts make of them; text is ASCII, as for
    [Py.lower]. *)

Module PyStr.

(** The ASCII characters [str.isspace] accepts. *)
Definition is_space (a : ascii) : bool :=
  let n := nat_of_ascii a in
  ((9 <=? n)%nat && (n <=? 13)%nat) || ((28 <=? n)%nat && (n <=? 32)%nat).

Fixpoint lstrip (s : string) : string :=
  match s with
  | EmptyString => EmptyString
  | String c s' => if is_space c then lstrip s' else s
  end.

Fixpoint rstrip (s : string) : string :=
  match s with
  | EmptyString => EmptyString
  | String c s' =>
      match rstrip s' with
      | EmptyString => if is_space c then EmptyString else String c EmptyString
      | r => String c r
      end
  end.

(** [s.strip()]. *)
Definition strip (s : string) : string := rstrip (lstrip s).

(** [s.split(sep)]: the pieces between the separators, empty ones kept. *)
Fixpoint split (sep : ascii) (s : string) : list string :=
  match s with
  | EmptyString => [EmptyString]
  | String c s' =>
      if Ascii.eqb c sep then EmptyString :: split sep s'
      else match split sep s' with
           | p :: ps => String c p :: ps
           | [] => [String c EmptyString]
           end
  end.

(** [s.replace(a, b)]. *)
Fixpoint replace (a b : ascii) (s : string) : string :=
  match s with
  | EmptyString => EmptyString
  | String c s' => String (if Ascii.eqb c a then b else c) (replace a b s')
  end.

(** [sep.join(l)]. *)
Fixpoint join (sep : ascii) (l : list string) : string :=
  match l with
  | [] => EmptyString
  | x :: l' =>
      match l' with
      | [] => x
      | _ :: _ => String.append x (String sep (join sep l'))
      end
  end.

(** [[p.strip() for p in s.split(",") if p.strip()]]. *)
Definition split_strip (s : string) : list string :=
  strip <$> List.filter (fun p => negb (Py.is_empty (strip p))) (split "," s).

End PyStr.

(** ** [find_column] *)

(** [col.strip().lower()]. *)
Definition column_key (s : string) : string := Py.lower (PyStr.strip s).

(** The inner loop: the first column that matches candidate [c]. *)
Fixpoint first_column (c : string) (columns : list string) : option string :=
  match columns with
  | [] => None
  | col :: rest =>
      if String.eqb (column_key col) (column_key c) then Some col
      else first_column c rest
  end.

Fixpoint find_column (columns candidates : list string) : option string :=
  match candidates with
  | [] => None
  | c :: cs =>
      match first_column c columns with
      | Some col => Some col
      | None => find_column columns cs
      end
  end.

(** ** [load_tables_xlsx]: which sheet serves which table *)

(** The [expected] table of [test.py], in its order. *)
Definition expected : list (string * list string) :=
  [("courses", ["courses"]);
   ("instructors", ["instructors"; "instructor"]);
   ("rooms", ["rooms"; "room"]);
   ("timeslots", ["timeslots"; "time slots"; "time_slots"; "timeslot"]);
   ("sections", ["sections"; "section"]);
   ("curriculum", ["curriculum"])].

(** [lowered = {n.lower(): n for n in names}]. *)
Definition lowered (names : list string) : gmap string string :=
  fold_left (fun m n => <[Py.lower n := n]> m) names ∅.

(** The loop over [variants], with its [break]. *)
Fixpoint found_sheet (low : gmap string string) (variants : list string)
    : option string :=
  match variants with
  | [] => None
  | v :: vs =>
      match low !! v with
      | Some n => Some n
      | None => found_sheet low vs
      end
  end.

(** Body of the loop over [expected], on [data] and [missing]. *)
Definition sheet_step (low : gmap string string)
    (acc : list (string * string) * list string) (role : string * list string)
    : list (string * string) * list string :=
  match found_sheet low role.2 with
  | Some n =>
      if Py.is_empty n then (acc.1, acc.2 ++ [role.1])
      else (dict_set String.eqb acc.1 role.1 n, acc.2)
  | None => (acc.1, acc.2 ++ [role.1])
  end.

(** The loop over [expected]: the sheets chosen ([data]) and the roles
    without a sheet ([missing]).  Reading the sheets is left to the caller. *)
Definition match_sheets (names : list string)
    : list (string * string) * list string :=
  fold_left (sheet_step (lowered names)) expected ([], []).

(** [load_tables_xlsx] up to the reading: [inl missing] is the
    [RuntimeError] that lists the missing roles. *)
Definition load_tables_xlsx (names : list string)
    : list string + list (string * string) :=
  let (data, missing) := match_sheets names in
  match missing with
  | [] => inr data
  | _ :: _ => inl missing
  end.

(** ** Qualification lists in [preprocess] *)

(** [raw_q.replace(";", ",").replace("/", ",")], split at commas, pieces
    stripped, empty ones dropped. *)
Definition parse_quals (raw_q : string) : list string :=
  PyStr.split_strip (PyStr.replace "/" "," (PyStr.replace ";" "," raw_q)).

(** * [data_loader.py]

    The CSV tables are lists of rows; the cells read as strings hold
    strings ([None] is a missing cell, pandas' NaN). *)

Module DataLoader.

Record CourseRow := mkCourseRow {
  cr_CourseID : string; cr_CourseName : string; cr_Credits : Z; cr_Type : string }.

Record CourseInfo := mkCourseInfo {
  ci_name : string; ci_credits : Z; ci_type : string }.

Record RoomRow := mkRoomRow {
  rr_RoomID : string; rr_Type : string; rr_Capacity : Z }.

(** [load_courses]: ['lab' if 'Lab' in row['Type'] else 'lec']; a later row
    of the same id overwrites the earlier entry in place. *)
Definition load_courses (df : list CourseRow) : list (string * CourseInfo) :=
  fold_left (fun courses row =>
    let course_type := if Py.contains "Lab" (cr_Type row) then "lab" else "lec" in
    dict_set String.eqb courses (cr_CourseID row)
             (mkCourseInfo (cr_CourseName row) (cr_Credits row) course_type))
    df [].

(** [load_rooms]: ['lab' if row['Type'] == 'Lab' else 'lec']. *)
Definition load_rooms (df : list RoomRow) : list (string * Room) :=
  fold_left (fun rooms row =>
    let room_type := if String.eqb (rr_Type row) "Lab" then "lab" else "lec" in
    dict_set String.eqb rooms (rr_RoomID row) (mkRoom room_type (rr_Capacity row)))
    df [].

(** The entries of [get_statistics] that are computed from the courses and
    the rooms (the remaining three are the lengths of the other tables). *)
Record Statistics := mkStatistics {
  total_courses : nat; total_rooms : nat;
  lecture_rooms : nat; lab_rooms : nat;
  lecture_courses : nat; lab_courses : nat }.

Definition get_statistics (courses : list (string * CourseInfo))
    (rooms : list (string * Room)) : Statistics :=
  mkStatistics
    (length courses) (length rooms)
    (length (List.filter (fun r => String.eqb (room_type r) "lec") rooms.*2))
    (length (List.filter (fun r => String.eqb (room_type r) "lab") rooms.*2))
    (length (List.filter (fun c => String.eqb (ci_type c) "lec") courses.*2))
    (length (List.filter (fun c => String.eqb (ci_type c) "lab") courses.*2)).

Definition day_mapping : list (string * nat) :=
  [("Sunday", 0); ("Monday", 1); ("Tuesday", 2); ("Wednesday", 3);
   ("Thursday", 4); ("Friday", 5); ("Saturday", 6)]%nat.

(** [range(a, b)]. *)
Definition range (a b : nat) : list nat := seq a (b - a).

(** The [preferred_slots] of one row of [load_instructors]: the slots of
    every day whose name occurs in the cell. *)
Definition preferred_slots (cell : option string) : gset nat :=
  match cell with
  | None => ∅
  | Some pref_str =>
      if negb (String.eqb pref_str "Any time") then
        fold_left (fun preferred (e : string * nat) =>
          let (day, day_num) := e in
          if Py.contains day pref_str then
            fold_left (fun preferred ts_id => {[ts_id]} ∪ preferred)
                      (range (day_num * 4) ((day_num + 1) * 4)) preferred
          else preferred)
          day_mapping ∅
      else ∅
  end.

(** [set(range(20)) - preferred_slots]. *)
Definition available_slots (cell : option string) : gset nat :=
  list_to_set (range 0 20) ∖ preferred_slots cell.

End DataLoader.

(** * [streamlit_ui_timetable.py] *)

Module StreamlitUi.

(** [match_room]: one boolean expression, no guard for an empty type. *)
Definition match_room (ct rt : string) : bool :=
  let c := Py.lower ct in
  let r := Py.lower rt in
  String.eqb c r
  || (Py.contains "lec" c && Py.contains "lec" r)
  || (Py.contains "lab" c && Py.contains "lab" r)
  || (Py.contains "project" c && Py.contains "project" r)
  || Py.contains "lec" r.

End StreamlitUi.

(** * Vocabulary of the properties *)

(** ** Compatibility as the specification words it *)

(** A type is lecture-, lab- or project-like when its lower-cased form
    contains the respective word. *)
Definition type_like (word ty : string) : bool := Py.contains word (Py.lower ty).

(** The compatibility predicate in the specification's words: equal, or both
    lecture-like, or both lab-like, or both project-like, or the room type is
    lecture-like. *)
Definition spec_compatible (course_type room_type : string) : bool :=
  String.eqb (Py.lower course_type) (Py.lower room_type)
  || (type_like "lec" course_type && type_like "lec" room_type)
  || (type_like "lab" course_type && type_like "lab" room_type)
  || (type_like "project" course_type && type_like "project" room_type)
  || type_like "lec" room_type.

(** The domain-membership predicate as the specification words it: the room
    is listed, its type is [spec_compatible] with the course type and its
    capacity is at least the student count. *)
Definition spec_room_ok (rooms : list (string * Room)) (ctype : string)
    (studs : Z) (d : Candidate) : Prop :=
  exists rinfo, (cand_r d, rinfo) ∈ rooms
    /\ spec_compatible ctype (room_type rinfo) = true
    /\ studs <= capacity rinfo.

(** The room of a committed tuple is a listed room whose type
    [compatible_room] accepts for the course type and whose capacity is at
    least the student count. *)
Definition room_admits (rooms : list (string * Room)) (ctype : string)
    (studs : Z) (c : Candidate) : Prop :=
  exists rinfo, (cand_r c, rinfo) ∈ rooms
    /\ compatible_room ctype (room_type rinfo) = true
    /\ studs <= capacity rinfo.

(** ** Sessions and domains of [build_vars_domains] *)

Section BuildVocabulary.
Variable courses : gmap string Course.
Variable instructors : list (string * Instructor).
Variable rooms : list (string * Room).
Variable timeslots : list string.
Variable curriculum : gmap Z (list string).

(** What one room contributes at one timeslot. *)
Definition room_block (ctype cid : string) (studs : Z) (t : string)
    (entry : string * Room) : list Candidate :=
  if compatible_room ctype (room_type entry.2) && (studs <=? capacity entry.2)
  then (fun instr => (t, entry.1, instr, qualified_for instructors cid instr))
         <$> instr_list instructors
  else [].

(** The domain computed in the loop iteration that creates [v]. *)
Definition dom_for (v : LectureVar) : list Candidate :=
  build_dom instructors rooms timeslots (ctype_of courses (course v))
            (course v) (students v).

(** [variables.append(v); domains[v] = dom]. *)
Definition register (st : bvd_state) (v : LectureVar) : bvd_state :=
  (st.1 ++ [v], <[name v := dom_for v]> st.2).

(** Every session generated, in generation order. *)
Definition all_sessions (sections : list Section) : list LectureVar :=
  sections ≫= (fun sec =>
    default [] (curriculum !! sec_year sec) ≫= sessions_for courses sec).
End BuildVocabulary.

(** Number of sessions of course [cid] among the generated variables. *)
Definition sessions_of_course (cid : string) (vs : list LectureVar) : nat :=
  length (List.filter (fun v => String.eqb (course v) cid) vs).

(** Number of times [cid] is listed for the sections, with multiplicity. *)
Definition listings_of_course (curriculum : gmap Z (list string))
    (cid : string) (sections : list Section) : nat :=
  length (List.filter (String.eqb cid)
            (sections ≫= (fun sec => default [] (curriculum !! sec_year sec)))).

(** ** Order by key *)

Section SortVocabulary.
Context {A : Type} (key : A -> Z).

(** Ascending in the key. *)
Definition key_le (a b : A) : Prop := key a <= key b.

(** The elements of key [k], in their order of appearance. *)
Definition with_key (k : Z) (l : list A) : list A :=
  List.filter (fun a => key a =? k) l.
End SortVocabulary.

(** ** Assignments *)

(** The names under which a dictionary holds entries, in entry order. *)
Definition dict_names {V : Type} (a : list (LectureVar * V)) : list string := (fun e => name e.1) <$> a.

(** The rows written for variable [v]. *)
Definition rows_of (v : LectureVar) (rows : list Row) : list Row :=
  List.filter (fun row => String.eqb (row_Variable row) (name v)) rows.

(** No two sessions (entries under different names) share a
    (timeslot, room) pair or a (timeslot, instructor) pair. *)
Definition slots_disjoint (a : list (LectureVar * Candidate)) : Prop :=
  forall v w c d,
    dict_get LectureVar_eqb a v = Some c -> dict_get LectureVar_eqb a w = Some d ->
    name v <> name w ->
    room_slot c <> room_slot d /\ instr_slot c <> instr_slot d.

(** The occupancy sets hold both pairs of every assigned session. *)
Definition slots_covered (a : list (LectureVar * Candidate))
    (rs ins : gset (string * string)) : Prop :=
  forall v c, dict_get LectureVar_eqb a v = Some c ->
    room_slot c ∈ rs /\ instr_slot c ∈ ins.

(** Number of sessions holding a qualified candidate. *)
Definition qualified_count (a : list (LectureVar * Candidate)) : Z :=
  Z.of_nat (length (List.filter (fun e : LectureVar * Candidate => cand_qual e.2) a)).

(** The sessions whose commit in [greedy_assign] came from the conflict
    fallback (the [if best:] branch), in processing order. *)
Definition took_fallback (domains : gmap string (list Candidate))
    (st : greedy_state) (v : LectureVar) : bool :=
  match first_fit (used_room_ts st) (used_instr_ts st)
                  (preference_order (domain_of domains v)) with
  | Some _ => false
  | None => match domain_of domains v with [] => false | _ :: _ => true end
  end.

Fixpoint fallback_trace (domains : gmap string (list Candidate))
    (l : list LectureVar) (st : greedy_state) : list LectureVar :=
  match l with
  | [] => []
  | v :: l' =>
      (if took_fallback domains st v then [v] else [])
      ++ fallback_trace domains l' (greedy_step domains st v)
  end.

Definition fallback_sessions (domains : gmap string (list Candidate))
    (variables : list LectureVar) : list LectureVar :=
  fallback_trace domains (greedy_order variables) greedy_init.

(** ** Invariants of the improvement loop *)

(** Disjointness and coverage survive an iteration. *)
Definition improve_safe (stack : list LectureVar) (st : improve_state) : Prop :=
  slots_disjoint (im_assigned st)
  /\ slots_covered (im_assigned st) (room_ts st) (instr_ts st)
  /\ forall v, v ∈ stack -> is_Some (dict_get LectureVar_eqb (im_assigned st) v).

Section ImproveVocabulary.
Variable domains : gmap string (list Candidate).
Variable a0 : list (LectureVar * Candidate).

(** What holds between the assignment handed in and the state reached:
    pending sessions have distinct names and are still unqualified, the
    qualified count grew by [improved], keys are those of [a0], sessions
    that were qualified are untouched and every changed session moved from
    an unqualified tuple to a qualified tuple of its domain. *)
Definition improve_progress (stack : list LectureVar) (st : improve_state) : Prop :=
  NoDup (name <$> stack)
  /\ (forall v, v ∈ stack ->
        exists c, dict_get LectureVar_eqb (im_assigned st) v = Some c
                  /\ dict_get LectureVar_eqb a0 v = Some c /\ cand_qual c = false)
  /\ 0 <= improved st
  /\ qualified_count (im_assigned st) = qualified_count a0 + improved st
  /\ fst <$> im_assigned st = fst <$> a0
  /\ (forall v c, dict_get LectureVar_eqb a0 v = Some c -> cand_qual c = true ->
        dict_get LectureVar_eqb (im_assigned st) v = Some c)
  /\ (forall v c', dict_get LectureVar_eqb (im_assigned st) v = Some c' ->
        dict_get LectureVar_eqb a0 v = Some c'
        \/ (cand_qual c' = true /\ c' ∈ domain_of domains v
            /\ exists c, dict_get LectureVar_eqb a0 v = Some c /\ cand_qual c = false)).
End ImproveVocabulary.

(** ** Vocabulary of the further properties *)

(** Keys are those of [a]; every tuple is the one [a] held or a candidate of
    the session's domain; pending sessions have entries. *)
Definition improve_within (domains : gmap string (list Candidate))
    (a : list (LectureVar * Candidate)) (stack : list LectureVar)
    (st : improve_state) : Prop :=
  (forall w, w ∈ stack -> is_Some (dict_get LectureVar_eqb (im_assigned st) w))
  /\ fst <$> im_assigned st = fst <$> a
  /\ forall v c', dict_get LectureVar_eqb (im_assigned st) v = Some c' ->
       dict_get LectureVar_eqb a v = Some c' \/ c' ∈ domain_of domains v.

(** A room a session of the given type and size may use. *)
Definition admissible (ctype : string) (studs : Z) (entry : string * Room) : bool :=
  compatible_room ctype (room_type entry.2) && (studs <=? capacity entry.2).

(** A role has a sheet when some sheet name, lower-cased, is one of its
    variants. *)
Definition role_served (names : list string) (variants : list string) : Prop :=
  exists n, n ∈ names /\ Py.lower n ∈ variants.

(** [a not in s], for a character [a]. *)
Definition lacks (a : ascii) (s : string) : Prop :=
  Py.contains (String a EmptyString) s = false.

(** A string that does not begin with a space character. *)
Definition starts_clean (s : string) : Prop :=
  match s with
  | EmptyString => True
  | String c _ => PyStr.is_space c = false
  end.

(** An item as [parse_quals] produces them. *)
Definition clean_item (q : string) : Prop :=
  q <> "" /\ PyStr.strip q = q /\ lacks "," q /\ lacks ";" q /\ lacks "/" q.

(** What [timetable.py] may commit for a variable of domain [dom]: a tuple
    of the domain, or for an empty domain an unqualified tuple assembled from
    the listed timeslots, room ids and instructor ids. *)
Definition tt_drawn_from (instructors : list (string * Instructor))
    (rooms : list (string * Room)) (timeslots : list string)
    (dom : list Candidate) (c : Candidate) : Prop :=
  match dom with
  | _ :: _ => c ∈ dom
  | [] => cand_t c ∈ timeslots /\ cand_r c ∈ dict_keys rooms
          /\ cand_instr c ∈ dict_keys instructors /\ cand_qual c = false
  end.

(** Entry by entry: the variable processed and what was committed for it. *)
Definition tt_assigned_from (instructors : list (string * Instructor))
    (rooms : list (string * Room)) (timeslots : list string)
    (e : LectureVar * list Candidate) (r : LectureVar * Candidate) : Prop :=
  r.1 = e.1 /\ tt_drawn_from instructors rooms timeslots e.2 r.2.

(** The domain [timetable.py] computes in the iteration that creates [v]. *)
Definition tt_dom_for (courses : gmap string Course)
    (instructors : list (string * Instructor)) (rooms : list (string * Room))
    (timeslots : list string) (v : LectureVar) : list Candidate :=
  TimetablePy.build_dom instructors rooms timeslots
    (ctype_of courses (course v)) (course v) (students v).

(** What one room contributes at one timeslot in [timetable.py]. *)
Definition tt_room_block (instructors : list (string * Instructor))
    (ctype cid : string) (studs : Z) (t : string) (entry : string * Room)
    : list Candidate :=
  if TimetablePy.compatible_room ctype (room_type entry.2) && (studs <=? capacity entry.2)
  then (fun instr : string * Instructor =>
          (t, entry.1, instr.1, bool_decide (cid ∈ quals instr.2))) <$> instructors
  else [].

(** The day name of the week days [0..4], whose slots lie below 20. *)
Definition weekday (d : nat) : string :=
  nth d ["Sunday"; "Monday"; "Tuesday"; "Wednesday"; "Thursday"] "".

(** * Properties *)

(** ** Loops that only append *)

Lemma fold_left_snoc {A B : Type} (h : A -> B) (l : list A) (acc : list B) :
  fold_left (fun acc x => acc ++ [h x]) l acc = acc ++ (h <$> l).
Proof.
  revert acc. induction l as [|x l IH]; intros acc; simpl.
  - by rewrite app_nil_r.
  - rewrite IH. by rewrite <- app_assoc.
Qed.

Lemma fold_left_extend {A B : Type} (step : list B -> A -> list B)
    (g : A -> list B) (l : list A) (acc : list B) :
  (forall acc x, step acc x = acc ++ g x) ->
  fold_left step l acc = acc ++ (l ≫= g).
Proof.
  intros Hstep. revert acc. induction l as [|x l IH]; intros acc.
  - simpl. by rewrite app_nil_r.
  - rewrite bind_cons. cbn [fold_left]. rewrite IH, Hstep. by rewrite <- app_assoc.
Qed.

(** ** The domain of one session *)

Section DomainFacts.
Variable courses : gmap string Course.
Variable instructors : list (string * Instructor).
Variable rooms : list (string * Room).
Variable timeslots : list string.

Lemma build_dom_bind ctype cid studs :
  build_dom instructors rooms timeslots ctype cid studs
  = timeslots ≫= (fun t => rooms ≫= room_block instructors ctype cid studs t).
Proof.
  unfold build_dom.
  rewrite (fold_left_extend _ (fun t => rooms ≫= room_block instructors ctype cid studs t)); [done|].
  intros acc t.
  apply (fold_left_extend _ (room_block instructors ctype cid studs t)).
  intros acc' [r rinfo]. unfold room_block. simpl.
  destruct (compatible_room ctype (room_type rinfo)); simpl.
  - destruct (Z.ltb_spec (capacity rinfo) studs) as [Hlt|Hge].
    + destruct (Z.leb_spec studs (capacity rinfo)); [lia|]. by rewrite app_nil_r.
    + destruct (Z.leb_spec studs (capacity rinfo)); [|lia].
      apply fold_left_snoc.
  - by rewrite app_nil_r.
Qed.

Lemma elem_of_build_dom ctype cid studs (d : Candidate) :
  d ∈ build_dom instructors rooms timeslots ctype cid studs <->
  cand_t d ∈ timeslots
  /\ (exists rinfo, (cand_r d, rinfo) ∈ rooms
                    /\ compatible_room ctype (room_type rinfo) = true
                    /\ studs <= capacity rinfo)
  /\ cand_instr d ∈ instr_list instructors
  /\ cand_qual d = qualified_for instructors cid (cand_instr d).
Proof.
  rewrite build_dom_bind, list_elem_of_bind. split.
  - intros (t & Hd & Ht). apply list_elem_of_bind in Hd as ([r rinfo] & Hd & Hr).
    unfold room_block in Hd. simpl in Hd.
    destruct (compatible_room ctype (room_type rinfo)) eqn:Hc; simpl in Hd;
      [|by apply elem_of_nil in Hd].
    destruct (Z.leb_spec studs (capacity rinfo)); [|by apply elem_of_nil in Hd].
    apply list_elem_of_fmap in Hd as (instr & -> & Hi). simpl.
    repeat split; eauto.
  - destruct d as [[[t r] instr] q]. simpl.
    intros (Ht & (rinfo & Hr & Hc & Hcap) & Hi & ->).
    exists t. split; [|done].
    apply list_elem_of_bind. exists (r, rinfo). split; [|done].
    unfold room_block. simpl. rewrite Hc.
    destruct (Z.leb_spec studs (capacity rinfo)); [|lia]. simpl.
    apply list_elem_of_fmap. by exists instr.
Qed.
End DomainFacts.

(** ** [compatible_room] against the wording of the specification *)

Lemma compatible_room_spec c r :
  compatible_room c r = Py.is_empty (Py.lower c) || spec_compatible c r.
Proof.
  unfold compatible_room, spec_compatible, type_like.
  destruct (Py.is_empty (Py.lower c)); [done|].
  destruct (String.eqb (Py.lower c) (Py.lower r)); [done|].
  destruct (Py.contains "lec" (Py.lower c)), (Py.contains "lec" (Py.lower r)),
    (Py.contains "lab" (Py.lower c)), (Py.contains "lab" (Py.lower r)),
    (Py.contains "project" (Py.lower c)), (Py.contains "project" (Py.lower r));
    reflexivity.
Qed.

Lemma compatible_room_empty r : compatible_room "" r = true.
Proof. reflexivity. Qed.

Lemma is_empty_true s : Py.is_empty s = true <-> s = "".
Proof. destruct s; simpl; split; congruence. Qed.

(** ** [build_vars_domains] as one pass over the generated sessions *)

Section BuildFacts.
Variable courses : gmap string Course.
Variable instructors : list (string * Instructor).
Variable rooms : list (string * Room).
Variable timeslots : list string.
Variable curriculum : gmap Z (list string).

Lemma fold_left_fmap {A B C : Type} (f : C -> B -> C) (g : A -> B) l c :
  fold_left f (g <$> l) c = fold_left (fun c x => f c (g x)) l c.
Proof. revert c. induction l as [|x l IH]; intros c; simpl; [done|apply IH]. Qed.

Lemma fold_left_bind {A B C : Type} (f : C -> B -> C) (g : A -> list B) l c :
  fold_left f (l ≫= g) c = fold_left (fun c x => fold_left f (g x) c) l c.
Proof.
  revert c. induction l as [|x l IH]; intros c; [done|].
  rewrite bind_cons, fold_left_app. cbn [fold_left]. apply IH.
Qed.

Lemma fold_left_ext {A C : Type} (f g : C -> A -> C) l c :
  (forall c x, f c x = g c x) -> fold_left f l c = fold_left g l c.
Proof.
  intros Hfg. revert c. induction l as [|x l IH]; intros c; simpl; [done|].
  by rewrite Hfg, IH.
Qed.

Lemma bvd_course_register sec st cid :
  bvd_course courses instructors rooms timeslots sec st cid
  = fold_left (register courses instructors rooms timeslots) (sessions_for courses sec cid) st.
Proof. unfold bvd_course, sessions_for. by rewrite fold_left_fmap. Qed.

Lemma bvd_section_register st sec :
  bvd_section courses instructors rooms timeslots curriculum st sec
  = fold_left (register courses instructors rooms timeslots)
      (default [] (curriculum !! sec_year sec) ≫= sessions_for courses sec) st.
Proof.
  unfold bvd_section. rewrite fold_left_bind.
  apply fold_left_ext. intros. apply bvd_course_register.
Qed.

Lemma build_vars_domains_register sections :
  build_vars_domains courses instructors rooms timeslots curriculum sections
  = fold_left (register courses instructors rooms timeslots) (all_sessions courses curriculum sections) ([], ∅).
Proof.
  unfold build_vars_domains, all_sessions. rewrite fold_left_bind.
  apply fold_left_ext. intros. apply bvd_section_register.
Qed.

Lemma register_all_fst l st : (fold_left (register courses instructors rooms timeslots) l st).1 = st.1 ++ l.
Proof.
  revert st. induction l as [|v l IH]; intros st; simpl.
  - by rewrite app_nil_r.
  - rewrite IH. simpl. by rewrite <- app_assoc.
Qed.

Lemma build_vars_domains_variables sections :
  (build_vars_domains courses instructors rooms timeslots curriculum sections).1
  = all_sessions courses curriculum sections.
Proof. by rewrite build_vars_domains_register, register_all_fst. Qed.

(** A stored domain is the one computed for some session of that name, and
    every generated session finds a stored domain under its name. *)
Lemma register_all_lookup l st k d :
  (fold_left (register courses instructors rooms timeslots) l st).2 !! k = Some d ->
  (exists v, v ∈ l /\ name v = k /\ d = dom_for courses instructors rooms timeslots v) \/ st.2 !! k = Some d.
Proof.
  revert st. induction l as [|v l IH]; intros st Hk; simpl in *; [by right|].
  apply IH in Hk as [(w & Hw & Hn & Hd)|Hk].
  - left. exists w. split; [by apply elem_of_cons; right|done].
  - simpl in Hk. destruct (decide (name v = k)) as [Heq|Hne].
    + rewrite Heq, lookup_insert_eq in Hk. left. exists v.
      split; [by apply elem_of_cons; left|]. split; congruence.
    + rewrite lookup_insert_ne in Hk by done. by right.
Qed.

Lemma register_all_is_Some l st v :
  v ∈ l -> is_Some ((fold_left (register courses instructors rooms timeslots) l st).2 !! name v).
Proof.
  revert st. induction l as [|w l IH]; intros st Hv; [by apply elem_of_nil in Hv|].
  apply elem_of_cons in Hv as [->|Hv]; simpl; [|by apply IH].
  clear IH. set (st' := register courses instructors rooms timeslots st w).
  assert (is_Some (st'.2 !! name w)) as Hs
    by (subst st'; simpl; rewrite lookup_insert_eq; eauto).
  revert Hs. generalize st'. clear st'.
  induction l as [|u l IH]; intros st' Hs; simpl; [done|].
  apply IH. simpl. destruct (decide (name u = name w)) as [Heq|Hne].
  - rewrite Heq, lookup_insert_eq. eauto.
  - by rewrite lookup_insert_ne.
Qed.

Lemma build_vars_domains_lookup sections v :
  v ∈ all_sessions courses curriculum sections ->
  exists w, w ∈ all_sessions courses curriculum sections /\ name w = name v
    /\ (build_vars_domains courses instructors rooms timeslots curriculum sections).2
         !! name v = Some (dom_for courses instructors rooms timeslots w).
Proof.
  intros Hv. rewrite build_vars_domains_register.
  destruct (register_all_is_Some _ ([], ∅) _ Hv) as [d Hd].
  destruct (register_all_lookup _ _ _ _ Hd) as [(w & Hw & Hn & ->)|Hk].
  - by exists w.
  - simpl in Hk. by rewrite lookup_empty in Hk.
Qed.
End BuildFacts.

(** ** Session generation (claims C6 and C10) and domain membership (C5) *)

(** C6: [build_vars_domains] emits, for each section in input order and for
    each course id of [curriculum.get(year, [])] in list order, the sessions
    of that course with indices [0 .. sessions-1]; there are exactly two of
    them (indices 0 and 1) when ["lec"] occurs in the course type and exactly
    one (index 0) otherwise. *)
Theorem C6_session_generation
    (courses : gmap string Course) (instructors : list (string * Instructor))
    (rooms : list (string * Room)) (timeslots : list string)
    (curriculum : gmap Z (list string)) (sections : list Section) :
  (build_vars_domains courses instructors rooms timeslots curriculum sections).1
  = sections ≫= (fun sec =>
      default [] (curriculum !! sec_year sec) ≫= (fun cid =>
        (fun i => mkLectureVar cid (section_id sec) (sec_year sec) i (sec_students sec))
          <$> seq 0 (if Py.contains "lec" (ctype_of courses cid) then 2 else 1)%nat))
  /\ forall sec cid,
       sessions_for courses sec cid
       = if Py.contains "lec" (ctype_of courses cid)
         then [mkLectureVar cid (section_id sec) (sec_year sec) 0 (sec_students sec);
               mkLectureVar cid (section_id sec) (sec_year sec) 1 (sec_students sec)]
         else [mkLectureVar cid (section_id sec) (sec_year sec) 0 (sec_students sec)].
Proof.
  split.
  - apply build_vars_domains_variables.
  - intros sec cid. unfold sessions_for, sessions_of.
    by destruct (Py.contains "lec" (ctype_of courses cid)).
Qed.

(** C5 as stated fails: a session whose course type is empty admits a lab
    room, which no clause of the stated compatibility rule allows. *)
Lemma C5_counterexample :
  let rooms := [("R1", mkRoom "lab" 30)] in
  let instructors := [("I1", mkInstructor "Ann" ∅)] in
  let v := mkLectureVar "C9" "S1" 1 0 10 in
  let d : Candidate := ("T1", "R1", "I1", false) in
  d ∈ dom_for ∅ instructors rooms ["T1"] v
  /\ ~ spec_room_ok rooms (ctype_of ∅ (course v)) (students v) d.
Proof.
  split.
  - apply list_elem_of_In. vm_compute. by left.
  - intros (rinfo & Hin & Hc & _).
    apply list_elem_of_singleton in Hin. injection Hin as ->.
    vm_compute in Hc. discriminate.
Qed.

(** C5 (amended): a tuple belongs to the domain built for a session iff its
    timeslot and instructor are listed, its flag is the instructor's
    qualification for the course, and its room is listed with capacity at
    least the student count and a type that is compatible in the stated
    sense or faces an empty course type.  Qualification never filters: both
    values of the flag occur, fixed by the instructor alone. *)
Theorem C5_domain_membership
    (courses : gmap string Course) (instructors : list (string * Instructor))
    (rooms : list (string * Room)) (timeslots : list string)
    (v : LectureVar) (d : Candidate) :
  let ctype := ctype_of courses (course v) in
  d ∈ dom_for courses instructors rooms timeslots v <->
  cand_t d ∈ timeslots
  /\ cand_instr d ∈ instr_list instructors
  /\ cand_qual d = qualified_for instructors (course v) (cand_instr d)
  /\ exists rinfo, (cand_r d, rinfo) ∈ rooms
       /\ (Py.lower ctype = "" \/ spec_compatible ctype (room_type rinfo) = true)
       /\ students v <= capacity rinfo.
Proof.
  intros ctype. unfold dom_for. fold ctype. rewrite elem_of_build_dom.
  assert (forall rt, compatible_room ctype rt = true
                     <-> Py.lower ctype = "" \/ spec_compatible ctype rt = true) as Hc.
  { intros rt. rewrite compatible_room_spec, orb_true_iff, is_empty_true. tauto. }
  split.
  - intros (Ht & (rinfo & Hr & Hcomp & Hcap) & Hi & Hq).
    repeat split; try done. exists rinfo. by rewrite <- Hc.
  - intros (Ht & Hi & Hq & rinfo & Hr & Hcomp & Hcap).
    repeat split; try done. exists rinfo. by rewrite Hc.
Qed.

Lemma sessions_of_course_app cid l1 l2 :
  sessions_of_course cid (l1 ++ l2)
  = (sessions_of_course cid l1 + sessions_of_course cid l2)%nat.
Proof. unfold sessions_of_course. by rewrite List.filter_app, length_app. Qed.

Lemma sessions_for_missing courses sec cid :
  courses !! cid = None ->
  sessions_for courses sec cid
  = [mkLectureVar cid (section_id sec) (sec_year sec) 0 (sec_students sec)].
Proof.
  intros Hnone. unfold sessions_for, ctype_of. by rewrite Hnone.
Qed.

Lemma sessions_for_other courses sec cid cid' :
  cid' <> cid -> sessions_of_course cid (sessions_for courses sec cid') = 0%nat.
Proof.
  intros Hne. unfold sessions_of_course, sessions_for.
  induction (seq 0 (sessions_of (ctype_of courses cid'))) as [|i l IH]; [done|].
  simpl. destruct (String.eqb_spec cid' cid); [done|apply IH].
Qed.

Lemma sessions_of_course_missing courses curriculum cid sections :
  courses !! cid = None ->
  sessions_of_course cid (all_sessions courses curriculum sections)
  = listings_of_course curriculum cid sections.
Proof.
  intros Hnone. unfold all_sessions, listings_of_course.
  induction sections as [|sec sections IH]; [done|].
  rewrite !bind_cons, sessions_of_course_app, List.filter_app, length_app, IH.
  f_equal. clear IH.
  induction (default [] (curriculum !! sec_year sec)) as [|c cl IHc]; [done|].
  rewrite bind_cons, sessions_of_course_app, IHc. simpl.
  destruct (String.eqb_spec cid c) as [<-|Hne].
  - rewrite sessions_for_missing by done. unfold sessions_of_course. simpl.
    by rewrite String.eqb_refl.
  - rewrite sessions_for_other by done. done.
Qed.

(** C10: a course id missing from the courses table has type [""]; each of
    its listings in a curriculum then yields exactly one session (index 0),
    so the generated variables hold as many sessions of that course as there
    are listings of it; [compatible_room] accepts every room type for the
    empty course type; and the session's domain is cut down by room capacity
    alone. *)
Theorem C10_missing_course_defaults
    (courses : gmap string Course) (instructors : list (string * Instructor))
    (rooms : list (string * Room)) (timeslots : list string)
    (curriculum : gmap Z (list string)) (sections : list Section) (cid : string) :
  courses !! cid = None ->
  ctype_of courses cid = ""
  /\ (forall sec, sessions_for courses sec cid
        = [mkLectureVar cid (section_id sec) (sec_year sec) 0 (sec_students sec)])
  /\ sessions_of_course cid
       (build_vars_domains courses instructors rooms timeslots curriculum sections).1
     = listings_of_course curriculum cid sections
  /\ (forall rt, compatible_room (ctype_of courses cid) rt = true)
  /\ forall (v : LectureVar) (d : Candidate), course v = cid ->
       (d ∈ dom_for courses instructors rooms timeslots v <->
        cand_t d ∈ timeslots
        /\ (exists rinfo, (cand_r d, rinfo) ∈ rooms /\ students v <= capacity rinfo)
        /\ cand_instr d ∈ instr_list instructors
        /\ cand_qual d = qualified_for instructors cid (cand_instr d)).
Proof.
  intros Hnone.
  assert (ctype_of courses cid = "") as Hty by (unfold ctype_of; by rewrite Hnone).
  split; [done|]. split; [intros; by apply sessions_for_missing|].
  split; [rewrite build_vars_domains_variables; by apply sessions_of_course_missing|].
  split; [intros rt; rewrite Hty; apply compatible_room_empty|].
  intros v d <-. unfold dom_for. rewrite elem_of_build_dom, Hty.
  split.
  - intros (Ht & (rinfo & Hr & _ & Hcap) & Hi & Hq). eauto 10.
  - intros (Ht & (rinfo & Hr & Hcap) & Hi & Hq).
    repeat split; try done. exists rinfo. by rewrite compatible_room_empty.
Qed.

Lemma C10_witness :
  (∅ : gmap string Course) !! "X9" = None
  /\ sessions_of_course "X9"
       (build_vars_domains ∅ [("I1", mkInstructor "Ann" ∅)] [("R1", mkRoom "lab" 30)]
          ["T1"] {[ 1 := ["X9"] ]} [mkSection "S1" "" 1 10]).1 = 1%nat.
Proof.
  split; [reflexivity|].
  pose proof (C10_missing_course_defaults ∅ [("I1", mkInstructor "Ann" ∅)]
                [("R1", mkRoom "lab" 30)] ["T1"] {[ 1 := ["X9"] ]}
                [mkSection "S1" "" 1 10] "X9" eq_refl) as (_ & _ & H & _).
  rewrite H. reflexivity.
Defined.

(** ** The processing order: a stable sort *)

Section StableSortFacts.
Context {A : Type} (key : A -> Z).

Lemma insert_by_perm x l : Permutation (insert_by key x l) (x :: l).
Proof.
  induction l as [|y l IH]; simpl; [done|].
  destruct (key x <=? key y); [done|].
  rewrite IH. apply perm_swap.
Qed.

Lemma sorted_by_perm l : Permutation (sorted_by key l) l.
Proof.
  induction l as [|x l IH]; simpl; [done|].
  by rewrite insert_by_perm, IH.
Qed.

Lemma insert_by_sorted x l :
  StronglySorted (key_le key) l -> StronglySorted (key_le key) (insert_by key x l).
Proof.
  induction 1 as [|y l Hs IH Hy]; simpl.
  - repeat constructor.
  - destruct (Z.leb_spec (key x) (key y)) as [Hle|Hgt].
    + constructor; [by constructor|].
      constructor; [done|].
      eapply Forall_impl; [exact Hy|]. unfold key_le. intros; lia.
    + constructor; [done|].
      rewrite insert_by_perm. constructor; [unfold key_le; lia|done].
Qed.

Lemma sorted_by_sorted l : StronglySorted (key_le key) (sorted_by key l).
Proof.
  induction l as [|x l IH]; simpl; [constructor|by apply insert_by_sorted].
Qed.

Lemma insert_by_with_key k x l :
  with_key key k (insert_by key x l) = with_key key k (x :: l).
Proof.
  induction l as [|y l IH]; [done|].
  cbn [insert_by]. destruct (Z.leb_spec (key x) (key y)) as [Hle|Hgt]; [done|].
  unfold with_key in *. cbn [List.filter] in *. rewrite IH.
  destruct (Z.eqb_spec (key x) k), (Z.eqb_spec (key y) k); try done. lia.
Qed.

(** Stability: elements of equal key keep their relative order. *)
Lemma sorted_by_stable k l : with_key key k (sorted_by key l) = with_key key k l.
Proof.
  induction l as [|x l IH]; [done|].
  cbn [sorted_by]. rewrite insert_by_with_key.
  unfold with_key in *. cbn [List.filter]. by rewrite IH.
Qed.

Lemma with_key_elem k x l : x ∈ with_key key k l <-> x ∈ l /\ key x = k.
Proof.
  unfold with_key. rewrite !list_elem_of_In, filter_In, Z.eqb_eq. done.
Qed.

(** Two ascending lists with the same elements of each key, in the same
    order, are the same list. *)
Lemma sorted_with_key_eq l1 l2 :
  StronglySorted (key_le key) l1 -> StronglySorted (key_le key) l2 ->
  (forall k, with_key key k l1 = with_key key k l2) -> l1 = l2.
Proof.
  intros Hs1. revert l2.
  induction Hs1 as [|x l1 Hs1 IH Hx]; intros l2 Hs2 Hk.
  - destruct l2 as [|y l2]; [done|].
    specialize (Hk (key y)). unfold with_key in Hk. simpl in Hk.
    by rewrite Z.eqb_refl in Hk.
  - destruct Hs2 as [|y l2 Hs2 Hy].
    { specialize (Hk (key x)). unfold with_key in Hk. simpl in Hk.
      by rewrite Z.eqb_refl in Hk. }
    assert (key x = key y) as Hxy.
    { assert (y ∈ with_key key (key y) (x :: l1)) as Hy1.
      { rewrite Hk. apply with_key_elem. split; [by left|done]. }
      assert (x ∈ with_key key (key x) (y :: l2)) as Hx2.
      { rewrite <- Hk. apply with_key_elem. split; [by left|done]. }
      apply with_key_elem in Hy1 as [Hy1 _]. apply with_key_elem in Hx2 as [Hx2 _].
      rewrite Forall_forall in Hx, Hy. unfold key_le in Hx, Hy.
      apply elem_of_cons in Hy1 as [->|Hy1]; [done|].
      apply elem_of_cons in Hx2 as [->|Hx2]; [done|].
      apply Hx in Hy1. apply Hy in Hx2. lia. }
    assert (x = y) as ->.
    { specialize (Hk (key x)). unfold with_key in Hk. simpl in Hk.
      rewrite <- Hxy, Z.eqb_refl in Hk. congruence. }
    f_equal. apply IH; [done|]. intros k. specialize (Hk k).
    unfold with_key in *. simpl in Hk.
    destruct (key y =? k); congruence.
Qed.

(** Any stable ascending sort returns what [sorted_by] returns. *)
Lemma stable_sort_unique l l' :
  StronglySorted (key_le key) l' -> (forall k, with_key key k l' = with_key key k l) ->
  l' = sorted_by key l.
Proof.
  intros Hs Hk. apply sorted_with_key_eq; [done|apply sorted_by_sorted|].
  intros k. by rewrite sorted_by_stable.
Qed.
End StableSortFacts.

(** ** One step of the greedy loop *)

Section GreedyStepFacts.
Variable used_r used_i : gset (string * string).

Local Abbreviation occ := (occupied used_r used_i).
Local Abbreviation conf := (conflicts used_r used_i).

Lemma occupied_spec d :
  occ d = true <-> room_slot d ∈ used_r \/ instr_slot d ∈ used_i.
Proof.
  unfold occupied. rewrite orb_true_iff, !bool_decide_eq_true. done.
Qed.

Lemma occupied_false d :
  occ d = false <-> (room_slot d ∉ used_r) /\ (instr_slot d ∉ used_i).
Proof.
  unfold occupied. rewrite orb_false_iff, !bool_decide_eq_false. done.
Qed.

(** The conflict score: one per occupied pair. *)
Lemma conflicts_score d :
  conf d = (if bool_decide (room_slot d ∈ used_r) then 1 else 0)
           + (if bool_decide (instr_slot d ∈ used_i) then 1 else 0).
Proof. unfold conflicts. repeat case_bool_decide; lia. Qed.

Lemma conflicts_range d : 0 <= conf d <= 2.
Proof. rewrite conflicts_score. repeat case_bool_decide; lia. Qed.

Lemma first_fit_Some opts c :
  first_fit used_r used_i opts = Some c ->
  exists pre post, opts = pre ++ c :: post
    /\ Forall (fun x => occ x = true) pre /\ occ c = false.
Proof.
  induction opts as [|x opts IH]; simpl; [done|].
  destruct (occ x) eqn:Hx.
  - intros (pre & post & -> & Hpre & Hc)%IH.
    exists (x :: pre), post. split; [done|]. by split; [constructor|].
  - intros [= ->]. by exists [], opts.
Qed.

Lemma first_fit_None opts :
  first_fit used_r used_i opts = None <-> Forall (fun x => occ x = true) opts.
Proof.
  induction opts as [|x opts IH]; simpl; [by split; [constructor|]|].
  rewrite Forall_cons. destruct (occ x); [rewrite IH|]; split; try done.
  - by intros [_ ?].
  - by intros [? _].
Qed.

Lemma first_fit_first pre c post :
  Forall (fun x => occ x = true) pre -> occ c = false ->
  first_fit used_r used_i (pre ++ c :: post) = Some c.
Proof.
  intros Hpre Hc. induction Hpre as [|x pre Hx _ IH]; simpl.
  - by rewrite Hc.
  - by rewrite Hx.
Qed.

Lemma first_fit_elem opts c : first_fit used_r used_i opts = Some c -> c ∈ opts.
Proof.
  intros (pre & post & -> & _)%first_fit_Some.
  apply elem_of_app. right. by left.
Qed.

(** The fallback loop keeps the first candidate of least score. *)
Lemma fallback_rounds dom best bc :
  (fold_left (fallback_round used_r used_i) dom (best, bc) = (best, bc)
   /\ Forall (fun x => bc <= conf x) dom)
  \/ exists pre c post, dom = pre ++ c :: post
       /\ fold_left (fallback_round used_r used_i) dom (best, bc) = (Some c, conf c)
       /\ conf c < bc
       /\ Forall (fun x => conf c < conf x) pre
       /\ Forall (fun x => conf c <= conf x) post.
Proof.
  revert best bc. induction dom as [|x dom IH]; intros best bc; simpl.
  - left. by split.
  - assert (fallback_round used_r used_i (best, bc) x
            = if conf x <? bc then (Some x, conf x) else (best, bc)) as -> by done.
    destruct (Z.ltb_spec (conf x) bc) as [Hlt|Hge].
    + right. destruct (IH (Some x) (conf x))
        as [[Hsame Hall]|(pre & c & post & -> & Hres & Hc & Hpre & Hpost)].
      * exists [], x, dom. by repeat split.
      * exists (x :: pre), c, post. repeat split; try done; [lia|].
        by constructor.
    + destruct (IH best bc)
        as [[Hsame Hall]|(pre & c & post & -> & Hres & Hc & Hpre & Hpost)].
      * left. split; [done|]. by constructor.
      * right. exists (x :: pre), c, post. repeat split; try done.
        constructor; [lia|done].
Qed.

Lemma least_conflicts_spec dom :
  dom <> [] ->
  exists pre c post, dom = pre ++ c :: post
    /\ least_conflicts used_r used_i dom = (Some c, conf c)
    /\ Forall (fun x => conf c < conf x) pre
    /\ Forall (fun x => conf c <= conf x) post.
Proof.
  intros Hne. unfold least_conflicts.
  destruct (fallback_rounds dom None 1000000000)
    as [[_ Hall]|(pre & c & post & -> & Hres & _ & Hpre & Hpost)].
  - destruct dom as [|x dom]; [done|].
    apply Forall_cons in Hall as [Hx _]. pose proof (conflicts_range x). lia.
  - by exists pre, c, post.
Qed.

Lemma least_conflicts_nil : least_conflicts used_r used_i [] = (None, 1000000000).
Proof. reflexivity. Qed.
End GreedyStepFacts.

(** ** Dictionaries keyed by [LectureVar] *)

Section LectureDict.
Context {V : Type}.
Implicit Types (a : list (LectureVar * V)) (v w k : LectureVar) (x c : V).

Local Abbreviation get := (dict_get LectureVar_eqb).
Local Abbreviation set := (dict_set LectureVar_eqb).

Lemma LectureVar_eqb_eq v w : LectureVar_eqb v w = true <-> name v = name w.
Proof. apply String.eqb_eq. Qed.

Lemma LectureVar_eqb_neq v w : LectureVar_eqb v w = false <-> name v <> name w.
Proof. apply String.eqb_neq. Qed.

Lemma dict_get_name a v w : name v = name w -> get a v = get a w.
Proof.
  intros Hvw. induction a as [|[k c] a IH]; simpl; [done|].
  unfold LectureVar_eqb at 1 3. by rewrite Hvw, IH.
Qed.

Lemma dict_get_set_eq a v x w : name v = name w -> get (set a v x) w = Some x.
Proof.
  intros Hvw. induction a as [|[k c] a IH]; simpl.
  - by apply LectureVar_eqb_eq in Hvw as ->.
  - destruct (LectureVar_eqb k v) eqn:Hkv; simpl.
    + apply LectureVar_eqb_eq in Hkv.
      assert (LectureVar_eqb k w = true) as -> by (apply LectureVar_eqb_eq; congruence).
      done.
    + apply LectureVar_eqb_neq in Hkv.
      assert (LectureVar_eqb k w = false) as -> by (apply LectureVar_eqb_neq; congruence).
      done.
Qed.

Lemma dict_get_set_ne a v x w : name v <> name w -> get (set a v x) w = get a w.
Proof.
  intros Hvw. induction a as [|[k c] a IH]; simpl.
  - by apply LectureVar_eqb_neq in Hvw as ->.
  - destruct (LectureVar_eqb k v) eqn:Hkv; simpl.
    + apply LectureVar_eqb_eq in Hkv.
      assert (LectureVar_eqb k w = false) as -> by (apply LectureVar_eqb_neq; congruence).
      done.
    + by rewrite IH.
Qed.

Lemma dict_get_elem a v c :
  get a v = Some c -> exists k, (k, c) ∈ a /\ name k = name v.
Proof.
  induction a as [|[k c'] a IH]; simpl; [done|].
  destruct (LectureVar_eqb k v) eqn:Hkv.
  - intros [= ->]. exists k. split; [by left|by apply LectureVar_eqb_eq].
  - intros (k' & Hin & Hn)%IH. exists k'. split; [by right|done].
Qed.

Lemma dict_get_is_Some a v : is_Some (get a v) <-> name v ∈ dict_names a.
Proof.
  unfold dict_names. induction a as [|[k c] a IH].
  - simpl. split; [by intros [? ?]|by intros ?%elem_of_nil].
  - rewrite fmap_cons, elem_of_cons. simpl.
    destruct (LectureVar_eqb k v) eqn:Hkv.
    + apply LectureVar_eqb_eq in Hkv. split; eauto.
    + apply LectureVar_eqb_neq in Hkv. rewrite IH.
      split; [by right|]. by intros [?|?].
Qed.

Lemma dict_get_None a v : get a v = None <-> name v ∉ dict_names a.
Proof. rewrite <- dict_get_is_Some, eq_None_not_Some. done. Qed.

(** Under unique names an entry is what [get] finds. *)
Lemma dict_get_of_elem a k c :
  NoDup (dict_names a) -> (k, c) ∈ a -> get a k = Some c.
Proof.
  induction a as [|[k' c'] a IH]; intros Hnd Hin; [by apply elem_of_nil in Hin|].
  unfold dict_names in Hnd. rewrite fmap_cons in Hnd.
  apply NoDup_cons in Hnd as [Hk' Hnd]. simpl in *.
  apply elem_of_cons in Hin as [[= -> ->]|Hin].
  - unfold LectureVar_eqb. by rewrite String.eqb_refl.
  - destruct (LectureVar_eqb k' k) eqn:Hkk; [|by apply IH].
    apply LectureVar_eqb_eq in Hkk. exfalso. apply Hk'. rewrite Hkk.
    apply list_elem_of_fmap. by exists (k, c).
Qed.

Lemma dict_set_present a v x :
  is_Some (get a v) -> fst <$> set a v x = fst <$> a.
Proof.
  induction a as [|[k c] a IH]; simpl; [by intros [? ?]|].
  destruct (LectureVar_eqb k v); [done|].
  intros Hs. rewrite !fmap_cons. f_equal. by apply IH.
Qed.

Lemma dict_set_absent a v x : get a v = None -> set a v x = a ++ [(v, x)].
Proof.
  induction a as [|[k c] a IH]; simpl; [done|].
  destruct (LectureVar_eqb k v); [done|]. intros Hn. by rewrite IH.
Qed.

Lemma dict_names_keys a : dict_names a = name <$> (fst <$> a).
Proof. unfold dict_names. induction a as [|e a IH]; simpl; [done|by f_equal]. Qed.

Lemma dict_set_names a v x :
  dict_names (set a v x)
  = match get a v with
    | Some _ => dict_names a
    | None => dict_names a ++ [name v]
    end.
Proof.
  destruct (get a v) as [c|] eqn:Hg.
  - by rewrite !dict_names_keys, dict_set_present.
  - rewrite dict_set_absent by done. unfold dict_names. by rewrite fmap_app.
Qed.

Lemma dict_set_NoDup a v x : NoDup (dict_names a) -> NoDup (dict_names (set a v x)).
Proof.
  intros Hnd. rewrite dict_set_names. destruct (get a v) eqn:Hg; [done|].
  apply NoDup_app. split; [done|]. split; [|apply NoDup_singleton].
  intros n Hn ->%list_elem_of_singleton. by apply dict_get_None in Hg.
Qed.

(** The entries after [d[v] = x]: the old ones, or [x] under an old key of
    that name or under [v] itself. *)
Lemma dict_set_elem a v x k c :
  (k, c) ∈ set a v x ->
  ((k, c) ∈ a /\ name k <> name v)
  \/ (c = x /\ name k = name v /\ (k = v \/ k ∈ (fst <$> a)))
  \/ ((k, c) ∈ a /\ name k = name v).
Proof.
  induction a as [|[k' c'] a IH]; simpl.
  - intros [= -> ->]%list_elem_of_singleton. right. left. eauto.
  - destruct (LectureVar_eqb k' v) eqn:Hkv.
    + apply LectureVar_eqb_eq in Hkv.
      intros [[= -> ->]|Hin]%elem_of_cons.
      * right. left. repeat split; [done|]. right. by left.
      * destruct (decide (name k = name v)).
        -- right. right. split; [by right|done].
        -- left. split; [by right|done].
    + apply LectureVar_eqb_neq in Hkv.
      intros [[= -> ->]|Hin]%elem_of_cons.
      * left. split; [by left|done].
      * destruct (IH Hin) as [[? ?]|[(-> & ? & [->|?])|[? ?]]].
        -- left. split; [by right|done].
        -- right. left. eauto.
        -- right. left. repeat split; [done|]. right. by right.
        -- right. right. split; [by right|done].
Qed.
End LectureDict.

(** ** The choice made for one variable *)

Section ChooseFacts.
Variable domains : gmap string (list Candidate).
Implicit Types (st : greedy_state) (v w : LectureVar) (c d : Candidate).

Lemma domain_of_name v w : name v = name w -> domain_of domains v = domain_of domains w.
Proof. unfold domain_of. by intros ->. Qed.

Lemma preference_order_elem dom d : d ∈ preference_order dom <-> d ∈ dom.
Proof.
  unfold preference_order.
  rewrite elem_of_app, !list_elem_of_In, !filter_In.
  destruct (cand_qual d); simpl; intuition congruence.
Qed.

Lemma preference_order_Forall (P : Candidate -> Prop) dom :
  Forall P (preference_order dom) <-> Forall P dom.
Proof.
  rewrite !Forall_forall. by setoid_rewrite preference_order_elem.
Qed.

Lemma choose_first_fit st v c :
  first_fit (used_room_ts st) (used_instr_ts st)
            (preference_order (domain_of domains v)) = Some c ->
  choose domains st v = (c, violations st).
Proof. unfold choose. by intros ->. Qed.

Lemma choose_fallback st v :
  domain_of domains v <> [] ->
  first_fit (used_room_ts st) (used_instr_ts st)
            (preference_order (domain_of domains v)) = None ->
  exists pre c post, domain_of domains v = pre ++ c :: post
    /\ choose domains st v = (c, violations st + 1)
    /\ Forall (fun x => conflicts (used_room_ts st) (used_instr_ts st) c
                        < conflicts (used_room_ts st) (used_instr_ts st) x) pre
    /\ Forall (fun x => conflicts (used_room_ts st) (used_instr_ts st) c
                        <= conflicts (used_room_ts st) (used_instr_ts st) x) post.
Proof.
  intros Hne Hff.
  destruct (least_conflicts_spec (used_room_ts st) (used_instr_ts st) _ Hne)
    as (pre & c & post & Hdom & Hlc & Hpre & Hpost).
  exists pre, c, post. unfold choose. by rewrite Hff, Hlc.
Qed.

Lemma choose_synthetic st v :
  domain_of domains v = [] ->
  choose domains st v = (("ts0", "room0", "instr0", false), violations st + 1).
Proof. unfold choose. by intros ->. Qed.

(** The three ways a step can go. *)
Lemma choose_cases st v :
  (exists c, first_fit (used_room_ts st) (used_instr_ts st)
               (preference_order (domain_of domains v)) = Some c
             /\ choose domains st v = (c, violations st))
  \/ (domain_of domains v <> []
      /\ exists c, c ∈ domain_of domains v
           /\ choose domains st v = (c, violations st + 1))
  \/ (domain_of domains v = []
      /\ choose domains st v
         = (("ts0", "room0", "instr0", false), violations st + 1)).
Proof.
  destruct (first_fit (used_room_ts st) (used_instr_ts st)
              (preference_order (domain_of domains v))) as [c|] eqn:Hff.
  - left. exists c. split; [done|by apply choose_first_fit].
  - right. destruct (domain_of domains v) as [|d dom] eqn:Hdom.
    + right. split; [done|]. by apply choose_synthetic.
    + left. split; [done|].
      assert (domain_of domains v <> []) as Hne by (by rewrite Hdom).
      rewrite <- Hdom in *.
      destruct (choose_fallback st v) as (pre & c & post & Hsplit & Hch & _);
        [by rewrite Hdom|done|].
      exists c. split; [|done]. rewrite Hsplit.
      apply elem_of_app. right. by left.
Qed.

Lemma choose_in_domain st v :
  domain_of domains v <> [] -> (choose domains st v).1 ∈ domain_of domains v.
Proof.
  intros Hne.
  destruct (choose_cases st v) as [(c & Hff & ->)|[(_ & c & Hc & ->)|[? _]]];
    [|done|done].
  simpl. apply first_fit_elem in Hff. by rewrite preference_order_elem in Hff.
Qed.

Lemma choose_violations st v :
  violations st <= (choose domains st v).2 <= violations st + 1.
Proof.
  destruct (choose_cases st v) as [(c & _ & ->)|[(_ & c & _ & ->)|[_ ->]]];
    simpl; lia.
Qed.

Lemma greedy_step_eq st v :
  greedy_step domains st v
  = mkGreedy (dict_set LectureVar_eqb (assigned st) v (choose domains st v).1)
             ({[room_slot (choose domains st v).1]} ∪ used_room_ts st)
             ({[instr_slot (choose domains st v).1]} ∪ used_instr_ts st)
             (choose domains st v).2.
Proof. unfold greedy_step. by destruct (choose domains st v). Qed.

Lemma greedy_step_violations st v :
  violations st <= violations (greedy_step domains st v) <= violations st + 1.
Proof. rewrite greedy_step_eq. simpl. apply choose_violations. Qed.

Lemma greedy_steps_violations l st :
  violations st <= violations (fold_left (greedy_step domains) l st).
Proof.
  revert st. induction l as [|v l IH]; intros st; simpl; [lia|].
  pose proof (greedy_step_violations st v). pose proof (IH (greedy_step domains st v)).
  lia.
Qed.

(** Every processed variable holds an entry afterwards. *)
Lemma greedy_steps_get l st w :
  is_Some (dict_get LectureVar_eqb (assigned st) w) \/ w ∈ l ->
  is_Some (dict_get LectureVar_eqb (assigned (fold_left (greedy_step domains) l st)) w).
Proof.
  revert st. induction l as [|v l IH]; intros st; simpl.
  - intros [?|?%elem_of_nil]; done.
  - intros Hw. apply IH. rewrite greedy_step_eq. simpl.
    destruct (decide (name v = name w)) as [Heq|Hne].
    + left. rewrite dict_get_set_eq by done. eauto.
    + rewrite dict_get_set_ne by done.
      destruct Hw as [?|[->|?]%elem_of_cons]; [by left|done|by right].
Qed.
End ChooseFacts.

(** ** Greedy order *)

Lemma greedy_order_perm variables : Permutation (greedy_order variables) variables.
Proof. apply sorted_by_perm. Qed.

Lemma greedy_order_elem variables v : v ∈ greedy_order variables <-> v ∈ variables.
Proof. by rewrite greedy_order_perm. Qed.

Lemma greedy_order_descending variables :
  StronglySorted (fun a b => students b <= students a) (greedy_order variables).
Proof.
  pose proof (sorted_by_sorted (fun x => - students x) variables) as Hs.
  unfold greedy_order. induction Hs as [|x l Hs IH Hx]; constructor; [done|].
  eapply Forall_impl; [exact Hx|]. unfold key_le. intros; lia.
Qed.

Lemma greedy_order_stable variables n :
  List.filter (fun v => students v =? n) (greedy_order variables)
  = List.filter (fun v => students v =? n) variables.
Proof.
  pose proof (sorted_by_stable (fun x => - students x) (- n) variables) as Hs.
  unfold with_key in Hs. unfold greedy_order.
  rewrite (filter_ext (fun v => students v =? n) (fun v => - students v =? - n)).
  - rewrite Hs. apply filter_ext. intros v.
    destruct (Z.eqb_spec (students v) n), (Z.eqb_spec (- students v) (- n)); lia || done.
  - intros v.
    destruct (Z.eqb_spec (students v) n), (Z.eqb_spec (- students v) (- n)); lia || done.
Qed.

(** ** The sibling scripts *)

Lemma timetable_compatible_room_spec c r :
  TimetablePy.compatible_room c r = spec_compatible c r.
Proof.
  unfold TimetablePy.compatible_room, spec_compatible, type_like.
  destruct (String.eqb (Py.lower c) (Py.lower r)); [done|].
  destruct (Py.contains "lec" (Py.lower c)), (Py.contains "lec" (Py.lower r)),
    (Py.contains "lab" (Py.lower c)), (Py.contains "lab" (Py.lower r)),
    (Py.contains "project" (Py.lower c)), (Py.contains "project" (Py.lower r));
    reflexivity.
Qed.

Lemma timetable_choice_elem {A : Type} draws k (seq : list A) :
  seq <> [] -> exists x, TimetablePy.choice draws k seq = Some x /\ x ∈ seq.
Proof.
  intros Hne. destruct seq as [|y seq]; [done|]. unfold TimetablePy.choice.
  destruct (lookup_lt_is_Some_2 (y :: seq) (draws k mod length (y :: seq))%nat)
    as [x Hx].
  - apply Nat.mod_upper_bound. simpl. lia.
  - exists x. split; [done|]. by eapply list_elem_of_lookup_2.
Qed.

(** With an empty domain the step of [timetable.py] assembles a tuple from a
    random timeslot, room id and instructor id; it raises only when one of
    the three collections is empty. *)
Lemma timetable_greedy_step_empty draws instructors rooms timeslots st v :
  timeslots <> [] -> rooms <> [] -> instructors <> [] ->
  exists t r instr,
    t ∈ timeslots /\ r ∈ dict_keys rooms /\ instr ∈ dict_keys instructors
    /\ TimetablePy.greedy_step draws instructors rooms timeslots st (v, [])
       = Some (TimetablePy.mkState
                 (TimetablePy.tt_assigned st ++ [(v, (t, r, instr, false))])
                 ({[ (t, r) ]} ∪ TimetablePy.tt_used_room_ts st)
                 ({[ (t, instr) ]} ∪ TimetablePy.tt_used_instr_ts st)
                 (S (S (S (TimetablePy.tt_calls st))))).
Proof.
  intros Hts Hrooms Hinstr.
  destruct (timetable_choice_elem draws (TimetablePy.tt_calls st) timeslots Hts)
    as (t & Ht & Htin).
  destruct (timetable_choice_elem draws (S (TimetablePy.tt_calls st)) (dict_keys rooms))
    as (r & Hr & Hrin); [by destruct rooms|].
  destruct (timetable_choice_elem draws (S (S (TimetablePy.tt_calls st)))
              (dict_keys instructors)) as (i & Hi & Hiin); [by destruct instructors|].
  exists t, r, i. repeat split; try done.
  unfold TimetablePy.greedy_step, TimetablePy.pick. simpl.
  rewrite Ht. simpl. rewrite Hr. simpl. rewrite Hi. simpl. done.
Qed.

(** ** First fit (C7), conflict fallback (C8), empty domains (C3) *)

(** C7: [greedy_assign] walks the variables in descending [students] order,
    variables of equal count keeping the order in which [build_vars_domains]
    emitted them; for a variable whose qualified-then-unqualified option list
    is [pre ++ c :: post] with every option of [pre] occupied (room pair or
    instructor pair) and [c] free on both pairs, it commits [c], adds both
    pairs of [c] to the occupancy sets at once and leaves the violation
    counter alone. *)
Theorem C7_greedy_first_fit
    (domains : gmap string (list Candidate)) (variables : list LectureVar)
    (st : greedy_state) (v : LectureVar) (pre post : list Candidate) (c : Candidate) :
  List.filter cand_qual (domain_of domains v)
    ++ List.filter (fun d => negb (cand_qual d)) (domain_of domains v)
  = pre ++ c :: post ->
  Forall (fun x => room_slot x ∈ used_room_ts st \/ instr_slot x ∈ used_instr_ts st) pre ->
  room_slot c ∉ used_room_ts st ->
  instr_slot c ∉ used_instr_ts st ->
  (Permutation (greedy_order variables) variables
   /\ StronglySorted (fun a b => students b <= students a) (greedy_order variables)
   /\ forall n, List.filter (fun x => students x =? n) (greedy_order variables)
                = List.filter (fun x => students x =? n) variables)
  /\ greedy_run domains variables
     = fold_left (greedy_step domains) (greedy_order variables) greedy_init
  /\ greedy_step domains st v
     = mkGreedy (dict_set LectureVar_eqb (assigned st) v c)
                ({[room_slot c]} ∪ used_room_ts st)
                ({[instr_slot c]} ∪ used_instr_ts st)
                (violations st).
Proof.
  intros Hsplit Hpre Hr Hi.
  split; [|split; [done|]].
  - split; [apply greedy_order_perm|].
    split; [apply greedy_order_descending|apply greedy_order_stable].
  - rewrite greedy_step_eq.
    rewrite (choose_first_fit domains st v c); [done|].
    unfold preference_order. rewrite Hsplit. apply first_fit_first.
    + eapply Forall_impl; [exact Hpre|]. intros x Hx. by apply occupied_spec.
    + by apply occupied_false.
Qed.

Lemma C7_witness :
  let domains : gmap string (list Candidate) :=
    {[ "C1_S1_L1" := [("T1", "R1", "I2", false); ("T1", "R1", "I1", true);
                      ("T2", "R1", "I1", true)] ]} in
  let v := mkLectureVar "C1" "S1" 1 1 10 in
  let st := mkGreedy [(mkLectureVar "C1" "S1" 1 0 10, ("T1", "R1", "I1", true))]
                     {[ ("T1", "R1") ]} {[ ("T1", "I1") ]} 0 in
  greedy_step domains st v
  = mkGreedy [(mkLectureVar "C1" "S1" 1 0 10, ("T1", "R1", "I1", true));
              (v, ("T2", "R1", "I1", true))]
             ({[ ("T2", "R1") ]} ∪ {[ ("T1", "R1") ]})
             ({[ ("T2", "I1") ]} ∪ {[ ("T1", "I1") ]}) 0.
Proof.
  intros domains v st.
  refine (proj2 (proj2 (C7_greedy_first_fit domains [v] st v
            [("T1", "R1", "I1", true)] [("T1", "R1", "I2", false)]
            ("T2", "R1", "I1", true) _ _ _ _))).
  - reflexivity.
  - apply Forall_cons. split; [left; compute_done|constructor].
  - compute_done.
  - compute_done.
Defined.

(** C8: when the domain of a variable is non-empty and every candidate in it
    is occupied on its room pair or its instructor pair, the step commits
    the candidate [c] of least conflict score, the earliest such in domain
    order (strictly better than everything before it, at least as good as
    everything after it), where the score counts one for an occupied
    (timeslot, room) pair and one for an occupied (timeslot, instructor)
    pair; the violation counter grows by exactly one. *)
Theorem C8_conflict_fallback
    (domains : gmap string (list Candidate)) (st : greedy_state) (v : LectureVar) :
  let score := conflicts (used_room_ts st) (used_instr_ts st) in
  domain_of domains v <> [] ->
  Forall (fun x => room_slot x ∈ used_room_ts st \/ instr_slot x ∈ used_instr_ts st)
         (domain_of domains v) ->
  exists pre c post,
    domain_of domains v = pre ++ c :: post
    /\ Forall (fun x => score c < score x) pre
    /\ Forall (fun x => score c <= score x) post
    /\ (forall d, score d
          = (if bool_decide (room_slot d ∈ used_room_ts st) then 1 else 0)
            + (if bool_decide (instr_slot d ∈ used_instr_ts st) then 1 else 0))
    /\ greedy_step domains st v
       = mkGreedy (dict_set LectureVar_eqb (assigned st) v c)
                  ({[room_slot c]} ∪ used_room_ts st)
                  ({[instr_slot c]} ∪ used_instr_ts st)
                  (violations st + 1).
Proof.
  intros score Hne Hocc.
  assert (first_fit (used_room_ts st) (used_instr_ts st)
            (preference_order (domain_of domains v)) = None) as Hff.
  { apply first_fit_None, preference_order_Forall.
    eapply Forall_impl; [exact Hocc|]. intros x Hx. by apply occupied_spec. }
  destruct (choose_fallback domains st v Hne Hff)
    as (pre & c & post & Hsplit & Hch & Hpre & Hpost).
  exists pre, c, post. repeat split; try done.
  - intros d. apply conflicts_score.
  - by rewrite greedy_step_eq, Hch.
Qed.

Lemma C8_witness :
  let domains : gmap string (list Candidate) :=
    {[ "C2_S1_L0" := [("T1", "R1", "I1", false); ("T1", "R1", "I3", false);
                      ("T1", "R1", "I2", true)] ]} in
  let v := mkLectureVar "C2" "S1" 1 0 10 in
  let st := mkGreedy [(mkLectureVar "C1" "S1" 1 0 10, ("T1", "R1", "I1", true))]
                     {[ ("T1", "R1") ]} {[ ("T1", "I1") ]} 0 in
  exists pre c post,
    domain_of domains v = pre ++ c :: post
    /\ c = ("T1", "R1", "I3", false)
    /\ violations (greedy_step domains st v) = 1.
Proof.
  intros domains v st.
  destruct (C8_conflict_fallback domains st v) as (pre & c & post & Hsplit & _ & _ & _ & Hstep).
  - discriminate.
  - repeat (apply Forall_cons; split; [left; compute_done|]). constructor.
  - exists pre, c, post. split; [done|]. rewrite Hstep. simpl. split; [|done].
    assert (assigned (greedy_step domains st v)
            = dict_set LectureVar_eqb (assigned st) v c) as Ha by (by rewrite Hstep).
    vm_compute in Ha. congruence.
Defined.

(** C3 as stated fails: for a lab course with only a project room the domain
    is empty, yet [greedy_assign] returns normally, having committed the
    invented tuple [("ts0", "room0", "instr0", False)] for that session. *)
Lemma C3_counterexample :
  let built :=
    build_vars_domains {[ "C1" := mkCourse "Physics" "lab" ]}
      [("I1", mkInstructor "Ann" {[ "C1" ]})] [("R1", mkRoom "project" 30)]
      ["T1"] {[ 1 := ["C1"] ]} [mkSection "S1" "" 1 10] in
  let v := mkLectureVar "C1" "S1" 1 0 10 in
  built.1 = [v]
  /\ domain_of built.2 v = []
  /\ greedy_assign built.2 built.1 = ([(v, ("ts0", "room0", "instr0", false))], 1).
Proof. vm_compute. done. Qed.

Section EmptyDomains.
Variable domains : gmap string (list Candidate).

Lemma greedy_steps_synthetic l st :
  (forall w c, domain_of domains w = [] ->
     dict_get LectureVar_eqb (assigned st) w = Some c ->
     c = ("ts0", "room0", "instr0", false)) ->
  forall w c, domain_of domains w = [] ->
    dict_get LectureVar_eqb (assigned (fold_left (greedy_step domains) l st)) w = Some c ->
    c = ("ts0", "room0", "instr0", false).
Proof.
  revert st. induction l as [|v l IH]; intros st Hst; simpl; [done|].
  apply IH. intros w c Hw. rewrite greedy_step_eq. simpl.
  destruct (decide (name v = name w)) as [Heq|Hne].
  - rewrite dict_get_set_eq by done. intros [= <-].
    rewrite choose_synthetic; [done|].
    by rewrite (domain_of_name _ _ _ Heq).
  - rewrite dict_get_set_ne by done. by apply Hst.
Qed.

Lemma greedy_steps_synthetic_count l st v :
  v ∈ l -> domain_of domains v = [] ->
  violations st + 1 <= violations (fold_left (greedy_step domains) l st).
Proof.
  intros (l1 & l2 & ->)%list_elem_of_split Hv.
  rewrite fold_left_app. simpl.
  pose proof (greedy_steps_violations domains l1 st).
  pose proof (greedy_steps_violations domains l2
                (greedy_step domains (fold_left (greedy_step domains) l1 st) v)) as H2.
  rewrite greedy_step_eq in H2 at 1. simpl in H2.
  rewrite choose_synthetic in H2 by done. simpl in H2. lia.
Qed.
End EmptyDomains.

(** C3 (amended): a session whose domain is empty raises no
    [DomainExhaustionError].  In [test.py] the step that processes it commits
    the invented tuple [("ts0", "room0", "instr0", False)], marks its two
    pairs occupied and adds one to the violation counter; in the result of
    [greedy_assign] the session is assigned that tuple and the violation
    count is at least 1.  In [timetable.py] the step commits a tuple put
    together from a random timeslot, room id and instructor id, whenever
    there is at least one of each. *)
Theorem C3_empty_domain_synthetic
    (domains : gmap string (list Candidate)) (variables : list LectureVar)
    (st : greedy_state) (v : LectureVar) :
  domain_of domains v = [] ->
  greedy_step domains st v
  = mkGreedy (dict_set LectureVar_eqb (assigned st) v ("ts0", "room0", "instr0", false))
             ({[ ("ts0", "room0") ]} ∪ used_room_ts st)
             ({[ ("ts0", "instr0") ]} ∪ used_instr_ts st)
             (violations st + 1)
  /\ (v ∈ variables ->
      dict_get LectureVar_eqb (greedy_assign domains variables).1 v
      = Some ("ts0", "room0", "instr0", false)
      /\ 1 <= (greedy_assign domains variables).2)
  /\ forall draws instructors rooms timeslots (st' : TimetablePy.state),
       timeslots <> [] -> rooms <> [] -> instructors <> [] ->
       exists t r instr,
         t ∈ timeslots /\ r ∈ dict_keys rooms /\ instr ∈ dict_keys instructors
         /\ TimetablePy.greedy_step draws instructors rooms timeslots st'
              (v, domain_of domains v)
            = Some (TimetablePy.mkState
                      (TimetablePy.tt_assigned st' ++ [(v, (t, r, instr, false))])
                      ({[ (t, r) ]} ∪ TimetablePy.tt_used_room_ts st')
                      ({[ (t, instr) ]} ∪ TimetablePy.tt_used_instr_ts st')
                      (S (S (S (TimetablePy.tt_calls st'))))).
Proof.
  intros Hv. split; [|split].
  - by rewrite greedy_step_eq, choose_synthetic.
  - intros Hin. unfold greedy_assign, greedy_run. simpl.
    apply greedy_order_elem in Hin. split.
    + destruct (greedy_steps_get domains (greedy_order variables) greedy_init v)
        as [c Hc]; [by right|].
      rewrite Hc. f_equal.
      eapply greedy_steps_synthetic; [|exact Hv|exact Hc].
      intros w c' _. done.
    + pose proof (greedy_steps_synthetic_count domains _ greedy_init v Hin Hv) as H.
      simpl in H. lia.
  - intros. rewrite Hv. by apply timetable_greedy_step_empty.
Qed.

Lemma C3_witness :
  let v := mkLectureVar "C1" "S1" 1 0 10 in
  domain_of ∅ v = []
  /\ dict_get LectureVar_eqb (greedy_assign ∅ [v]).1 v
     = Some ("ts0", "room0", "instr0", false).
Proof.
  intros v. split; [reflexivity|].
  refine (proj1 (proj1 (proj2 (C3_empty_domain_synthetic ∅ [v] greedy_init v _)) _)).
  - reflexivity.
  - by left.
Defined.

(** ** What the greedy loop leaves in [assigned] *)

Section GreedyRunFacts.
Variable domains : gmap string (list Candidate).

Lemma greedy_steps_keys (P : LectureVar -> Prop) l st :
  (forall k c, (k, c) ∈ assigned st -> P k) -> (forall v, v ∈ l -> P v) ->
  forall k c, (k, c) ∈ assigned (fold_left (greedy_step domains) l st) -> P k.
Proof.
  revert st. induction l as [|v l IH]; intros st Hst Hl; simpl; [done|].
  apply IH; [|intros w Hw; apply Hl; by right].
  intros k c. rewrite greedy_step_eq. simpl.
  intros [[Hin _]|[(_ & _ & [->|Hin])|[Hin _]]]%dict_set_elem.
  - by eapply Hst.
  - apply Hl. by left.
  - apply list_elem_of_fmap in Hin as ([k' c'] & -> & Hin). by eapply Hst.
  - by eapply Hst.
Qed.

Lemma greedy_steps_NoDup l st :
  NoDup (dict_names (assigned st)) ->
  NoDup (dict_names (assigned (fold_left (greedy_step domains) l st))).
Proof.
  revert st. induction l as [|v l IH]; intros st Hst; simpl; [done|].
  apply IH. rewrite greedy_step_eq. simpl. by apply dict_set_NoDup.
Qed.

Lemma greedy_steps_in_domain l st :
  (forall w c, dict_get LectureVar_eqb (assigned st) w = Some c ->
     domain_of domains w <> [] -> c ∈ domain_of domains w) ->
  forall w c,
    dict_get LectureVar_eqb (assigned (fold_left (greedy_step domains) l st)) w = Some c ->
    domain_of domains w <> [] -> c ∈ domain_of domains w.
Proof.
  revert st. induction l as [|v l IH]; intros st Hst; simpl; [done|].
  apply IH. intros w c. rewrite greedy_step_eq. simpl.
  destruct (decide (name v = name w)) as [Heq|Hne].
  - rewrite dict_get_set_eq by done. intros [= <-] Hw.
    rewrite <- (domain_of_name _ _ _ Heq) in *. by apply choose_in_domain.
  - rewrite dict_get_set_ne by done. apply Hst.
Qed.

(** Every variable ends up with an entry, taken from its domain when that
    domain has candidates. *)
Lemma greedy_assign_get variables v :
  v ∈ variables ->
  exists c, dict_get LectureVar_eqb (greedy_assign domains variables).1 v = Some c
            /\ (domain_of domains v <> [] -> c ∈ domain_of domains v).
Proof.
  intros Hv%greedy_order_elem. unfold greedy_assign, greedy_run. simpl.
  destruct (greedy_steps_get domains (greedy_order variables) greedy_init v)
    as [c Hc]; [by right|].
  exists c. split; [done|]. intros Hne.
  eapply greedy_steps_in_domain; [|exact Hc|exact Hne]. done.
Qed.

Lemma greedy_assign_keys variables k c :
  (k, c) ∈ (greedy_assign domains variables).1 -> k ∈ variables.
Proof.
  unfold greedy_assign, greedy_run. simpl. intros Hin.
  eapply (greedy_steps_keys (fun k => k ∈ variables)); [| |exact Hin].
  - intros k' c' Hk'. by apply elem_of_nil in Hk'.
  - intros v. apply greedy_order_elem.
Qed.

Lemma greedy_assign_NoDup variables :
  NoDup (dict_names (greedy_assign domains variables).1).
Proof.
  unfold greedy_assign, greedy_run. simpl.
  apply greedy_steps_NoDup. simpl. constructor.
Qed.

Lemma greedy_assign_names variables n :
  n ∈ dict_names (greedy_assign domains variables).1 <-> n ∈ name <$> variables.
Proof.
  split.
  - intros ([k c] & -> & Hin)%list_elem_of_fmap. simpl.
    apply list_elem_of_fmap. exists k. split; [done|].
    by eapply greedy_assign_keys.
  - intros (v & -> & Hv)%list_elem_of_fmap.
    apply dict_get_is_Some.
    destruct (greedy_assign_get variables v Hv) as (c & -> & _). eauto.
Qed.

(** With pairwise distinct names the assignment has one entry per
    variable. *)
Lemma greedy_assign_length variables :
  NoDup (name <$> variables) ->
  length (greedy_assign domains variables).1 = length variables.
Proof.
  intros Hnd.
  assert (Permutation (dict_names (greedy_assign domains variables).1)
                      (name <$> variables)) as Hp.
  { apply NoDup_Permutation; [apply greedy_assign_NoDup|done|].
    apply greedy_assign_names. }
  apply Permutation_length in Hp. unfold dict_names in Hp.
  by rewrite !length_fmap in Hp.
Qed.
End GreedyRunFacts.

(** ** Exported rows *)

Lemma export_rows_fmap timeslot_info instructors a :
  export_rows timeslot_info instructors a = export_row timeslot_info instructors <$> a.
Proof. unfold export_rows. by rewrite fold_left_snoc. Qed.

Lemma NoDup_filter_eqb (n : string) (l : list string) :
  NoDup l -> n ∈ l -> length (List.filter (fun m => String.eqb m n) l) = 1%nat.
Proof.
  induction l as [|m l IH]; intros Hnd Hin; [by apply elem_of_nil in Hin|].
  apply NoDup_cons in Hnd as [Hm Hnd]. simpl.
  destruct (String.eqb_spec m n) as [->|Hne].
  - simpl. f_equal. clear IH Hin Hnd.
    induction l as [|m l IH]; [done|]. simpl.
    destruct (String.eqb_spec m n) as [->|_].
    + exfalso. apply Hm. by left.
    + apply IH. intros ?. apply Hm. by right.
  - apply IH; [done|]. by apply elem_of_cons in Hin as [->|?].
Qed.

Lemma rows_of_names timeslot_info instructors a v :
  length (rows_of v (export_rows timeslot_info instructors a))
  = length (List.filter (fun m => String.eqb m (name v)) (dict_names a)).
Proof.
  rewrite export_rows_fmap. unfold rows_of, dict_names.
  induction a as [|[k c] a IH]; [done|].
  rewrite !fmap_cons. cbn [List.filter]. simpl.
  destruct (String.eqb (name k) (name v)); simpl; by rewrite IH.
Qed.

(** ** Totality (C4) and capacity/type safety (C2) *)

(** Counted by name, [greedy_assign] is total: when every variable has a
    non-empty domain it returns a mapping that holds, for every variable, one
    candidate of its domain; its keys are variables, no two keys compare
    equal, the names of its keys are exactly the names of the variables, and
    [export_results] writes exactly one row under the name of every
    variable. *)
Lemma greedy_assign_total_by_name
    (domains : gmap string (list Candidate)) (variables : list LectureVar)
    (timeslot_info : gmap string TimeslotInfo) (instructors : list (string * Instructor)) :
  (forall v, v ∈ variables -> domain_of domains v <> []) ->
  let a := (greedy_assign domains variables).1 in
  (forall v, v ∈ variables ->
     exists c, dict_get LectureVar_eqb a v = Some c /\ c ∈ domain_of domains v)
  /\ (forall k c, (k, c) ∈ a -> k ∈ variables)
  /\ NoDup (dict_names a)
  /\ (forall n, n ∈ dict_names a <-> n ∈ name <$> variables)
  /\ forall v, v ∈ variables ->
       length (rows_of v (export_rows timeslot_info instructors a)) = 1%nat.
Proof.
  intros Hdom a. subst a. repeat split.
  - intros v Hv. destruct (greedy_assign_get domains variables v Hv) as (c & Hc & Hin).
    exists c. split; [done|]. by apply Hin, Hdom.
  - apply greedy_assign_keys.
  - apply greedy_assign_NoDup.
  - by intros ?%greedy_assign_names.
  - intros ?. by apply greedy_assign_names.
  - intros v Hv. rewrite rows_of_names.
    apply NoDup_filter_eqb; [apply greedy_assign_NoDup|].
    apply greedy_assign_names, list_elem_of_fmap. by exists v.
Qed.

(** C4 (the code breaks it): two different sessions can bear one name, since
    the name joins course and section with the character both may contain.
    Course ["A_B"] of section ["C"] and course ["A"] of section ["B_C"] are
    both called ["A_B_C_L0"].  Both have non-empty domains, yet the dictionary
    of [greedy_assign] keeps one entry for the two of them (second commit
    over the first, under the key met first), with no violation counted, and
    [export_results] writes one row: the session of course ["A"] in section
    ["B_C"] appears in no row, and the assignment has one entry for two
    variables. *)
Theorem C4_name_collision :
  let courses : gmap string Course :=
    {[ "A_B" := mkCourse "Signals" "lab"; "A" := mkCourse "Algebra" "lab" ]} in
  let instructors := [("I1", mkInstructor "Ann" {[ "A" ]})] in
  let rooms := [("R1", mkRoom "lab" 30)] in
  let curriculum : gmap Z (list string) := {[ 1 := ["A_B"]; 2 := ["A"] ]} in
  let sections := [mkSection "C" "" 1 10; mkSection "B_C" "" 2 10] in
  let built :=
    build_vars_domains courses instructors rooms ["T1"; "T2"] curriculum sections in
  let v1 := mkLectureVar "A_B" "C" 1 0 10 in
  let v2 := mkLectureVar "A" "B_C" 2 0 10 in
  let a := (greedy_assign built.2 built.1).1 in
  built.1 = [v1; v2]
  /\ v1 <> v2
  /\ name v1 = name v2
  /\ (forall v, v ∈ built.1 -> domain_of built.2 v <> [])
  /\ greedy_assign built.2 built.1 = ([(v1, ("T2", "R1", "I1", true))], 0)
  /\ length a <> length built.1
  /\ export_rows ∅ instructors a
     = [mkRow "A_B_C_L0" 1 "A_B" "C" "T2" "" "" "" "R1" "I1" "Ann" true]
  /\ Forall (fun row => row_Course row <> course v2 /\ row_Section row <> section v2)
            (export_rows ∅ instructors a).
Proof.
  intros courses instructors rooms curriculum sections built v1 v2 a.
  split; [by vm_compute|]. split; [discriminate|]. split; [by vm_compute|].
  split.
  { intros v Hv. vm_compute in Hv.
    apply elem_of_cons in Hv as [-> | Hv]; [by vm_compute|].
    apply list_elem_of_singleton in Hv as ->. by vm_compute. }
  split; [by vm_compute|]. split; [by vm_compute|]. split; [by vm_compute|].
  vm_compute. constructor; [|constructor]. split; discriminate.
Qed.




(** ** Disjointness of an assignment *)

Lemma slots_disjoint_set a rs ins v c :
  slots_disjoint a -> slots_covered a rs ins ->
  room_slot c ∉ rs -> instr_slot c ∉ ins ->
  slots_disjoint (dict_set LectureVar_eqb a v c).
Proof.
  intros Hdis Hcov Hr Hi x y cx cy.
  destruct (decide (name v = name x)) as [Hvx|Hvx],
           (decide (name v = name y)) as [Hvy|Hvy].
  - congruence.
  - rewrite dict_get_set_eq, dict_get_set_ne by done.
    intros [= <-] Hy _. apply Hcov in Hy as [Hyr Hyi].
    split; intros Heq; [apply Hr|apply Hi]; by rewrite Heq.
  - rewrite dict_get_set_ne, dict_get_set_eq by done.
    intros Hx [= <-] _. apply Hcov in Hx as [Hxr Hxi].
    split; intros Heq; [apply Hr|apply Hi]; by rewrite <- Heq.
  - rewrite !dict_get_set_ne by done. apply Hdis.
Qed.

Lemma slots_covered_set a rs ins v c :
  slots_covered a rs ins ->
  slots_covered (dict_set LectureVar_eqb a v c)
                ({[room_slot c]} ∪ rs) ({[instr_slot c]} ∪ ins).
Proof.
  intros Hcov x cx. destruct (decide (name v = name x)) as [Hvx|Hvx].
  - rewrite dict_get_set_eq by done. intros [= <-]. set_solver.
  - rewrite dict_get_set_ne by done. intros [? ?]%Hcov. set_solver.
Qed.

Section GreedyDisjoint.
Variable domains : gmap string (list Candidate).

(** While the violation counter stays at 0 every commit was a first fit. *)
Lemma greedy_steps_disjoint l st :
  0 <= violations st ->
  (violations st = 0 ->
   slots_disjoint (assigned st)
   /\ slots_covered (assigned st) (used_room_ts st) (used_instr_ts st)) ->
  violations (fold_left (greedy_step domains) l st) = 0 ->
  slots_disjoint (assigned (fold_left (greedy_step domains) l st)).
Proof.
  revert st. induction l as [|v l IH]; intros st Hpos Hst Hzero; simpl in *.
  - by apply Hst.
  - pose proof (greedy_step_violations domains st v) as Hstep.
    pose proof (greedy_steps_violations domains l (greedy_step domains st v)) as Hrest.
    apply IH; [lia| |done].
    intros Hz. assert (violations st = 0) as Hz0 by lia.
    destruct (Hst Hz0) as [Hdis Hcov].
    rewrite greedy_step_eq in Hz |- *. simpl in *.
    destruct (choose_cases domains st v)
      as [(c & Hff & Hch)|[(_ & c & _ & Hch)|[_ Hch]]];
      rewrite Hch in Hz |- *; simpl in *; try lia.
    apply first_fit_Some in Hff as (pre & post & _ & _ & Hfree).
    apply occupied_false in Hfree as [Hr Hi].
    split; [by eapply slots_disjoint_set|by apply slots_covered_set].
Qed.

Lemma greedy_assign_disjoint variables a :
  greedy_assign domains variables = (a, 0) -> slots_disjoint a.
Proof.
  unfold greedy_assign, greedy_run. intros [= <- Hz].
  apply greedy_steps_disjoint; [done| |done].
  intros _. split; [intros v w c d Hv; by simpl in Hv|intros v c Hv; by simpl in Hv].
Qed.
End GreedyDisjoint.

(** ** One iteration of the improvement loop *)

Section ImproveFacts.
Variable domains : gmap string (list Candidate).
Implicit Types (st : improve_state) (v w : LectureVar) (opt cur : Candidate).

Lemma slot_eqb_room opt cur :
  String.eqb (cand_t opt) (cand_t cur) && String.eqb (cand_r opt) (cand_r cur) = true
  <-> room_slot opt = room_slot cur.
Proof.
  unfold room_slot. rewrite andb_true_iff, !String.eqb_eq.
  split; [by intros [-> ->]|by intros [= -> ->]].
Qed.

Lemma slot_eqb_instr opt cur :
  String.eqb (cand_t opt) (cand_t cur)
  && String.eqb (cand_instr opt) (cand_instr cur) = true
  <-> instr_slot opt = instr_slot cur.
Proof.
  unfold instr_slot. rewrite andb_true_iff, !String.eqb_eq.
  split; [by intros [-> ->]|by intros [= -> ->]].
Qed.

(** What [found] is after the scan: a qualified candidate of the domain
    whose pairs are free or are the session's own current pairs. *)
Lemma find_upgrade_Some st v dom opt :
  find_upgrade st v dom = Some (Some opt) ->
  exists cur, dict_get LectureVar_eqb (im_assigned st) v = Some cur
    /\ opt ∈ dom /\ cand_qual opt = true
    /\ (room_slot opt ∈ room_ts st -> room_slot opt = room_slot cur)
    /\ (instr_slot opt ∈ instr_ts st -> instr_slot opt = instr_slot cur).
Proof.
  induction dom as [|o dom IH]; simpl; [done|].
  destruct (cand_qual o) eqn:Hq; simpl.
  - destruct (dict_get LectureVar_eqb (im_assigned st) v) as [cur|] eqn:Hcur;
      simpl; [|done].
    destruct (bool_decide (room_slot o ∈ room_ts st)
              && negb (String.eqb (cand_t o) (cand_t cur)
                       && String.eqb (cand_r o) (cand_r cur))) eqn:Hroom; simpl.
    { destruct (bool_decide (instr_slot o ∈ instr_ts st)
                && negb (String.eqb (cand_t o) (cand_t cur)
                         && String.eqb (cand_instr o) (cand_instr cur))); simpl;
        intros (cur' & ? & ? & ?)%IH; exists cur'; (split; [done|]);
        (split; [by right|done]). }
    destruct (bool_decide (instr_slot o ∈ instr_ts st)
              && negb (String.eqb (cand_t o) (cand_t cur)
                       && String.eqb (cand_instr o) (cand_instr cur))) eqn:Hinstr; simpl.
    { intros (cur' & ? & ? & ?)%IH. exists cur'. split; [done|].
      split; [by right|done]. }
    intros [= <-]. exists cur. split; [done|]. split; [by left|]. split; [done|].
    apply andb_false_iff in Hroom, Hinstr. split.
    + intros Hin. destruct Hroom as [Hroom|Hroom].
      * by apply bool_decide_eq_false in Hroom.
      * apply negb_false_iff in Hroom. by apply slot_eqb_room.
    + intros Hin. destruct Hinstr as [Hinstr|Hinstr].
      * by apply bool_decide_eq_false in Hinstr.
      * apply negb_false_iff in Hinstr. by apply slot_eqb_instr.
  - intros (cur' & ? & ? & ?)%IH. exists cur'. split; [done|].
    split; [by right|done].
Qed.

(** The scan cannot raise for a session that has an entry. *)
Lemma find_upgrade_total st v dom :
  is_Some (dict_get LectureVar_eqb (im_assigned st) v) ->
  is_Some (find_upgrade st v dom).
Proof.
  intros [cur Hcur]. induction dom as [|o dom IH]; simpl; [eauto|].
  destruct (negb (cand_qual o)); [done|]. rewrite Hcur. simpl.
  repeat match goal with |- context [if ?b then _ else _] => destruct b end;
    simpl; eauto.
Qed.

(** The effect of one iteration. *)
Lemma improve_step_cases st v :
  is_Some (dict_get LectureVar_eqb (im_assigned st) v) ->
  improve_step domains st v = Some st
  \/ exists cur opt,
       dict_get LectureVar_eqb (im_assigned st) v = Some cur
       /\ opt ∈ default [] (domains !! name v) /\ cand_qual opt = true
       /\ (room_slot opt ∈ room_ts st -> room_slot opt = room_slot cur)
       /\ (instr_slot opt ∈ instr_ts st -> instr_slot opt = instr_slot cur)
       /\ improve_step domains st v
          = Some (mkImprove (dict_set LectureVar_eqb (im_assigned st) v opt)
                    ({[room_slot opt]} ∪ (room_ts st ∖ {[room_slot cur]}))
                    ({[instr_slot opt]} ∪ (instr_ts st ∖ {[instr_slot cur]}))
                    (improved st + 1)).
Proof.
  intros Hv. unfold improve_step.
  destruct (find_upgrade_total st v (default [] (domains !! name v)) Hv)
    as [[opt|] Hfound]; rewrite Hfound; simpl; [|by left].
  right. apply find_upgrade_Some in Hfound as (cur & Hcur & Hin & Hq & Hr & Hi).
  exists cur, opt. unfold apply_upgrade. rewrite Hcur. simpl. done.
Qed.
End ImproveFacts.

(** ** The improvement loop *)

Section ImproveLoopFacts.
Variable domains : gmap string (list Candidate).
Implicit Types (st : improve_state) (v w : LectureVar) (stack : list LectureVar).

(** A property of the pending stack and the state that every iteration
    re-establishes holds when the loop stops, whatever stops it. *)
Lemma improve_loop_inv (Inv : list LectureVar -> improve_state -> Prop) :
  (forall v rest st, Inv (v :: rest) st ->
     exists st', improve_step domains st v = Some st' /\ Inv rest st') ->
  forall stack it max_iters st, Inv stack st ->
    exists st' rest,
      improve_loop domains stack it max_iters st = Some st' /\ Inv rest st'.
Proof.
  intros Hstep stack. induction stack as [|v stack IH]; intros it max_iters st Hinv.
  - exists st, []. done.
  - simpl. destruct (it <? max_iters).
    + destruct (Hstep v stack st Hinv) as (st1 & -> & Hinv1). simpl.
      by apply IH.
    + by exists st, (v :: stack).
Qed.

Lemma improve_step_safe v rest st :
  improve_safe (v :: rest) st ->
  exists st', improve_step domains st v = Some st' /\ improve_safe rest st'.
Proof.
  intros (Hdis & Hcov & Hkeys).
  assert (forall w, w ∈ rest -> is_Some (dict_get LectureVar_eqb (im_assigned st) w))
    as Hrest by (intros w Hw; apply Hkeys; by right).
  destruct (improve_step_cases domains st v) as
    [->|(cur & opt & Hcur & _ & _ & Hr & Hi & ->)]; [apply Hkeys; by left| |].
  { exists st. split; [done|]. by split; [|split]. }
  eexists. split; [done|]. unfold improve_safe. cbn [im_assigned room_ts instr_ts].
  split; [|split; [intros x cx Hx; split|]].
  - intros x y cx cy.
    destruct (decide (name v = name x)) as [Hvx|Hvx],
             (decide (name v = name y)) as [Hvy|Hvy].
    + congruence.
    + rewrite dict_get_set_eq, dict_get_set_ne by done. intros [= <-] Hy _.
      rewrite (dict_get_name _ _ _ Hvx) in Hcur.
      destruct (Hdis _ _ _ _ Hcur Hy) as [Hdr Hdi]; [congruence|].
      destruct (Hcov _ _ Hy) as [Hyr Hyi].
      split; intros Heq.
      * apply Hdr. rewrite <- Heq. symmetry. apply Hr. by rewrite Heq.
      * apply Hdi. rewrite <- Heq. symmetry. apply Hi. by rewrite Heq.
    + rewrite dict_get_set_ne, dict_get_set_eq by done. intros Hx [= <-] _.
      rewrite (dict_get_name _ _ _ Hvy) in Hcur.
      destruct (Hdis _ _ _ _ Hx Hcur) as [Hdr Hdi]; [congruence|].
      destruct (Hcov _ _ Hx) as [Hxr Hxi].
      split; intros Heq.
      * apply Hdr. rewrite Heq. apply Hr. by rewrite <- Heq.
      * apply Hdi. rewrite Heq. apply Hi. by rewrite <- Heq.
    + rewrite !dict_get_set_ne by done. apply Hdis.
  - destruct (decide (name v = name x)) as [Hvx|Hvx].
    + rewrite dict_get_set_eq in Hx by done. injection Hx as <-. set_solver.
    + rewrite dict_get_set_ne in Hx by done.
      destruct (Hdis _ _ _ _ Hx Hcur) as [Hdr _]; [congruence|].
      apply Hcov in Hx as [? _]. set_solver.
  - destruct (decide (name v = name x)) as [Hvx|Hvx].
    + rewrite dict_get_set_eq in Hx by done. injection Hx as <-. set_solver.
    + rewrite dict_get_set_ne in Hx by done.
      destruct (Hdis _ _ _ _ Hx Hcur) as [_ Hdi]; [congruence|].
      apply Hcov in Hx as [_ ?]. set_solver.
  - intros w Hw. destruct (decide (name v = name w)) as [Hvw|Hvw].
    + rewrite dict_get_set_eq by done. eauto.
    + rewrite dict_get_set_ne by done. by apply Hrest.
Qed.
End ImproveLoopFacts.

(** ** Entering the improvement loop *)

Lemma improve_init_covered a :
  slots_covered a (room_ts (improve_init a)) (instr_ts (improve_init a)).
Proof.
  intros v c (k & Hin & _)%dict_get_elem. simpl.
  split; apply elem_of_list_to_set, list_elem_of_fmap; by exists (k, c).
Qed.

Lemma unqualified_of_elem a v :
  v ∈ unqualified_of a <-> exists c, (v, c) ∈ a /\ cand_qual c = false.
Proof.
  unfold unqualified_of. rewrite list_elem_of_fmap. split.
  - intros ([k c] & -> & Hin). apply list_elem_of_In, filter_In in Hin as [Hin Hq].
    exists c. split; [by apply list_elem_of_In|]. by apply negb_true_iff in Hq.
  - intros (c & Hin & Hq). exists (v, c). split; [done|].
    apply list_elem_of_In, filter_In. split; [by apply list_elem_of_In|].
    simpl. by rewrite Hq.
Qed.

Lemma unqualified_of_names a n :
  n ∈ name <$> unqualified_of a -> n ∈ dict_names a.
Proof.
  intros (v & -> & (c & Hin & _)%unqualified_of_elem)%list_elem_of_fmap.
  apply list_elem_of_fmap. by exists (v, c).
Qed.

Lemma unqualified_of_NoDup a :
  NoDup (dict_names a) -> NoDup (name <$> unqualified_of a).
Proof.
  induction a as [|[k c] a IH]; [constructor|].
  unfold dict_names. rewrite fmap_cons. intros [Hk Hnd]%NoDup_cons.
  unfold unqualified_of. simpl. destruct (cand_qual c); simpl; [by apply IH|].
  apply NoDup_cons. split; [|by apply IH].
  intros Hin. apply Hk. by apply unqualified_of_names.
Qed.

(** The pending stack of a run: a rearrangement of the unqualified
    sessions. *)
Lemma improve_stack_perm (shuffle : list LectureVar -> list LectureVar) a :
  (forall l, Permutation (shuffle l) l) ->
  Permutation (rev (shuffle (unqualified_of a))) (unqualified_of a).
Proof. intros Hsh. by rewrite <- Permutation_rev, Hsh. Qed.

(** ** Disjointness (C1) *)

(** C1: when [greedy_assign] returns violation count 0, every variable is
    assigned and any two sessions (variables of different names) differ in
    their (timeslot, room) pair and in their (timeslot, instructor) pair;
    [improve_assignments] run on that assignment, for any shuffle and any
    iteration budget, returns an assignment over the same keys with the same
    two properties. *)
Theorem C1_disjointness
    (shuffle : list LectureVar -> list LectureVar)
    (domains : gmap string (list Candidate)) (variables : list LectureVar)
    (a : list (LectureVar * Candidate)) :
  (forall l, Permutation (shuffle l) l) ->
  greedy_assign domains variables = (a, 0) ->
  (forall v, v ∈ variables -> is_Some (dict_get LectureVar_eqb a v))
  /\ (forall v w c d,
        dict_get LectureVar_eqb a v = Some c -> dict_get LectureVar_eqb a w = Some d ->
        name v <> name w ->
        room_slot c <> room_slot d /\ instr_slot c <> instr_slot d)
  /\ forall max_iters, exists a' n,
       improve_assignments shuffle domains a max_iters = Some (a', n)
       /\ fst <$> a' = fst <$> a
       /\ forall v w c d,
            dict_get LectureVar_eqb a' v = Some c ->
            dict_get LectureVar_eqb a' w = Some d ->
            name v <> name w ->
            room_slot c <> room_slot d /\ instr_slot c <> instr_slot d.
Proof.
  intros Hsh Hgreedy.
  pose proof (greedy_assign_disjoint domains variables a Hgreedy) as Hdis.
  split; [|split; [exact Hdis|]].
  - intros v Hv. destruct (greedy_assign_get domains variables v Hv) as (c & Hc & _).
    rewrite Hgreedy in Hc. simpl in Hc. by rewrite Hc.
  - intros max_iters. unfold improve_assignments.
    destruct (improve_loop_inv domains
                (fun stack st => improve_safe stack st
                                 /\ fst <$> im_assigned st = fst <$> a)
                ) with (stack := rev (shuffle (unqualified_of a)))
                       (it := 0) (max_iters := max_iters) (st := improve_init a)
      as (st' & rest & -> & (Hsafe & _ & _) & Hkeys).
    + intros v rest st [Hsafe Hkeys].
      assert (is_Some (dict_get LectureVar_eqb (im_assigned st) v)) as Hv
        by (apply Hsafe; by left).
      destruct (improve_step_safe domains v rest st Hsafe) as (st' & Hstep & Hsafe').
      exists st'. split; [done|]. split; [done|].
      destruct (improve_step_cases domains st v Hv)
        as [Heq|(cur & opt & _ & _ & _ & _ & _ & Heq)];
        rewrite Heq in Hstep; injection Hstep as <-; [done|].
      simpl. by rewrite dict_set_present.
    + split; [|done]. split; [exact Hdis|]. split; [apply improve_init_covered|].
      intros v Hv. simpl.
      rewrite (improve_stack_perm shuffle a Hsh) in Hv.
      apply unqualified_of_elem in Hv as (c & Hin & _).
      apply dict_get_is_Some, list_elem_of_fmap. by exists (v, c).
    + simpl. exists (im_assigned st'), (improved st'). done.
Qed.

Lemma C1_witness :
  let built :=
    build_vars_domains {[ "C1" := mkCourse "Intro" "lecture" ]}
      [("I1", mkInstructor "Ann" {[ "C1" ]})] [("R1", mkRoom "lecture" 30)]
      ["T1"; "T2"] {[ 1 := ["C1"] ]} [mkSection "S1" "" 1 10] in
  let a := [(mkLectureVar "C1" "S1" 1 0 10, ("T1", "R1", "I1", true));
            (mkLectureVar "C1" "S1" 1 1 10, ("T2", "R1", "I1", true))] in
  greedy_assign built.2 built.1 = (a, 0)
  /\ exists a' n, improve_assignments id built.2 a 5000 = Some (a', n)
       /\ fst <$> a' = fst <$> a.
Proof.
  intros built a.
  assert (greedy_assign built.2 built.1 = (a, 0)) as Hg by (by vm_compute).
  split; [exact Hg|].
  destruct (C1_disjointness id built.2 built.1 a (fun l => Permutation_refl l) Hg)
    as (_ & _ & Himp).
  destruct (Himp 5000) as (a' & n & Ha' & Hk & _). by exists a', n.
Defined.

(** ** Monotonic improvement (C9) *)

(** C9 as stated fails in its last part: a session committed by the conflict
    fallback with an unqualified instructor sits in the improvable set like
    any other, and [improve_assignments] moves it to a qualified instructor
    while it keeps sharing its room slot. *)
Lemma C9_counterexample :
  let built :=
    build_vars_domains
      {[ "C1" := mkCourse "Circuits" "lab"; "C2" := mkCourse "Optics" "lab" ]}
      [("I1", mkInstructor "Ann" {[ "C1" ]}); ("I3", mkInstructor "Cid" ∅);
       ("I2", mkInstructor "Bea" {[ "C2" ]})]
      [("R1", mkRoom "lab" 30)] ["T1"] {[ 1 := ["C1"; "C2"] ]}
      [mkSection "S1" "" 1 10] in
  let v1 := mkLectureVar "C1" "S1" 1 0 10 in
  let v2 := mkLectureVar "C2" "S1" 1 0 10 in
  let a := [(v1, ("T1", "R1", "I1", true)); (v2, ("T1", "R1", "I3", false))] in
  greedy_assign built.2 built.1 = (a, 1)
  /\ fallback_sessions built.2 built.1 = [v2]
  /\ improve_assignments id built.2 a 5000
     = Some ([(v1, ("T1", "R1", "I1", true)); (v2, ("T1", "R1", "I2", true))], 1).
Proof. vm_compute. done. Qed.

Lemma qualified_count_set a v cur opt :
  dict_get LectureVar_eqb a v = Some cur ->
  cand_qual cur = false -> cand_qual opt = true ->
  qualified_count (dict_set LectureVar_eqb a v opt) = qualified_count a + 1.
Proof.
  unfold qualified_count. intros Hget Hcur Hopt.
  induction a as [|[k c] a IH]; simpl in *; [done|].
  destruct (LectureVar_eqb k v).
  - injection Hget as ->. simpl. rewrite Hcur, Hopt. simpl. lia.
  - simpl. specialize (IH Hget). destruct (cand_qual c); simpl; lia.
Qed.

Section ImproveMonotone.
Variable domains : gmap string (list Candidate).
Variable a0 : list (LectureVar * Candidate).

Lemma improve_step_progress v rest st :
  improve_progress domains a0 (v :: rest) st ->
  exists st', improve_step domains st v = Some st' /\ improve_progress domains a0 rest st'.
Proof.
  intros (Hnd & Hpend & Hpos & Hcount & Hkeys & Hqual & Hchg).
  rewrite fmap_cons in Hnd. apply NoDup_cons in Hnd as [Hv Hnd].
  destruct (Hpend v) as (c & Hc & Hc0 & Hcq); [by left|].
  assert (forall w, w ∈ rest -> name v <> name w) as Hne.
  { intros w Hw Heq. apply Hv. rewrite Heq. apply list_elem_of_fmap. by exists w. }
  destruct (improve_step_cases domains st v) as
    [->|(cur & opt & Hcur & Hin & Hq & _ & _ & ->)]; [by rewrite Hc| |].
  { exists st. split; [done|]. repeat split; try done.
    intros w Hw. apply Hpend. by right. }
  rewrite Hc in Hcur. injection Hcur as <-.
  eexists. split; [done|]. unfold improve_progress. cbn [im_assigned improved].
  split; [done|]. split; [|split; [lia|split; [|split; [|split]]]].
  - intros w Hw. rewrite dict_get_set_ne by (by apply Hne).
    apply Hpend. by right.
  - rewrite (qualified_count_set _ _ c) by done. lia.
  - rewrite dict_set_present by (by rewrite Hc). done.
  - intros w cw Hw Hwq. destruct (decide (name v = name w)) as [Heq|Hneq].
    + rewrite (dict_get_name _ _ _ Heq) in Hc0. congruence.
    + rewrite dict_get_set_ne by done. by apply Hqual.
  - intros w cw. destruct (decide (name v = name w)) as [Heq|Hneq].
    + rewrite dict_get_set_eq by done. intros [= <-]. right.
      split; [done|]. split; [by rewrite <- (domain_of_name _ _ _ Heq)|].
      exists c. by rewrite <- (dict_get_name _ _ _ Heq).
    + rewrite dict_get_set_ne by done. apply Hchg.
Qed.
End ImproveMonotone.

Lemma run_pipeline_violations shuffle courses instructors rooms timeslots
    timeslot_info sections curriculum res :
  run_pipeline shuffle courses instructors rooms timeslots timeslot_info
               sections curriculum = Some res ->
  let built :=
    build_vars_domains courses instructors rooms timeslots curriculum sections in
  res_violations res = (greedy_assign built.2 built.1).2.
Proof.
  unfold run_pipeline.
  destruct (build_vars_domains courses instructors rooms timeslots curriculum sections)
    as [variables domains]. simpl.
  unfold greedy_assign. simpl.
  destruct (improve_assignments _ _ _ _) as [r|]; simpl.
  - intros Hres. injection Hres as Hres. by subst res.
  - intros Hres. discriminate Hres.
Qed.

(** C9 (amended): for every assignment (a dictionary, so with pairwise
    distinct keys), every shuffle and every iteration budget,
    [improve_assignments] returns; the number of qualified sessions grows by
    exactly the returned improvement count, which is not negative; the keys
    are unchanged; every session that held a qualified candidate keeps its
    tuple; every session whose tuple changed went from an unqualified tuple
    to a qualified tuple of its own domain; and the violation count reported
    by the pipeline is the one [greedy_assign] returned.  Sessions committed
    by the conflict fallback get no special treatment. *)
Theorem C9_improvement_monotone
    (shuffle : list LectureVar -> list LectureVar)
    (domains : gmap string (list Candidate))
    (a : list (LectureVar * Candidate)) (max_iters : Z) :
  (forall l, Permutation (shuffle l) l) ->
  NoDup (dict_names a) ->
  (exists a' n,
     improve_assignments shuffle domains a max_iters = Some (a', n)
     /\ 0 <= n
     /\ qualified_count a' = qualified_count a + n
     /\ fst <$> a' = fst <$> a
     /\ (forall v c, dict_get LectureVar_eqb a v = Some c -> cand_qual c = true ->
           dict_get LectureVar_eqb a' v = Some c)
     /\ (forall v c', dict_get LectureVar_eqb a' v = Some c' ->
           dict_get LectureVar_eqb a v = Some c'
           \/ (cand_qual c' = true /\ c' ∈ domain_of domains v
               /\ exists c, dict_get LectureVar_eqb a v = Some c /\ cand_qual c = false)))
  /\ forall courses instructors rooms timeslots timeslot_info sections curriculum res,
       run_pipeline shuffle courses instructors rooms timeslots timeslot_info
                    sections curriculum = Some res ->
       res_violations res
       = (greedy_assign
            (build_vars_domains courses instructors rooms timeslots curriculum sections).2
            (build_vars_domains courses instructors rooms timeslots curriculum sections).1).2.
Proof.
  intros Hsh Hnd. split; [|intros; by eapply run_pipeline_violations].
  unfold improve_assignments.
  destruct (improve_loop_inv domains (improve_progress domains a)
              (improve_step_progress domains a))
    with (stack := rev (shuffle (unqualified_of a)))
         (it := 0) (max_iters := max_iters) (st := improve_init a)
    as (st' & rest & -> & (_ & _ & Hpos & Hcount & Hkeys & Hqual & Hchg)).
  - unfold improve_progress. simpl. repeat split; try done.
    + rewrite (improve_stack_perm shuffle a Hsh). by apply unqualified_of_NoDup.
    + intros v Hv. rewrite (improve_stack_perm shuffle a Hsh) in Hv.
      apply unqualified_of_elem in Hv as (c & Hin & Hq).
      exists c. by rewrite (dict_get_of_elem a v c).
    + lia.
    + auto.
  - simpl. exists (im_assigned st'), (improved st'). done.
Qed.

Lemma C9_witness :
  let domains : gmap string (list Candidate) :=
    {[ "C2_S1_L0" := [("T1", "R1", "I3", false); ("T2", "R1", "I2", true)] ]} in
  let v2 := mkLectureVar "C2" "S1" 1 0 10 in
  let a := [(v2, ("T1", "R1", "I3", false))] in
  exists a' n, improve_assignments id domains a 5000 = Some (a', n)
    /\ qualified_count a' = qualified_count a + n.
Proof.
  intros domains v2 a.
  destruct (C9_improvement_monotone id domains a 5000) as [(a' & n & Ha' & _ & Hc & _) _].
  - intros l. apply Permutation_refl.
  - vm_compute. repeat constructor. intros []%elem_of_nil.
  - by exists a', n.
Defined.

(** ** The scenarios of the specification *)

(** Scenario A: two timeslots, both sessions placed, qualified, no violation. *)
Example scenario_A :
  let built := build_vars_domains scenario_courses scenario_instructors scenario_rooms
                 ["T1"; "T2"] scenario_curriculum scenario_sections in
  built.1 = [scenario_L0; scenario_L1]
  /\ greedy_assign built.2 built.1
     = ([(scenario_L0, ("T1", "R1", "I1", true)); (scenario_L1, ("T2", "R1", "I1", true))], 0).
Proof. vm_compute. done. Qed.

(** Scenario B: one timeslot, the second session goes through the fallback. *)
Example scenario_B :
  let built := build_vars_domains scenario_courses scenario_instructors scenario_rooms
                 ["T1"] scenario_curriculum scenario_sections in
  greedy_assign built.2 built.1
  = ([(scenario_L0, ("T1", "R1", "I1", true)); (scenario_L1, ("T1", "R1", "I1", true))], 1)
  /\ fallback_sessions built.2 built.1 = [scenario_L1].
Proof. vm_compute. done. Qed.

(** Scenario D: two unqualified sessions want the one qualified slot; the one
    popped first gets it. *)
Example scenario_D :
  let v1 := mkLectureVar "C1" "S1" 1 0 10 in
  let v2 := mkLectureVar "C1" "S2" 1 0 10 in
  let domains : gmap string (list Candidate) :=
    {[ name v1 := [("T1", "R1", "I3", false); ("T3", "R2", "I2", true)];
       name v2 := [("T2", "R1", "I3", false); ("T3", "R2", "I2", true)] ]} in
  improve_assignments id domains
    [(v1, ("T1", "R1", "I3", false)); (v2, ("T2", "R1", "I3", false))] 5000
  = Some ([(v1, ("T1", "R1", "I3", false)); (v2, ("T3", "R2", "I2", true))], 1).
Proof. vm_compute. done. Qed.

(** Sessions are keyed by name.  Two section rows with the same id yield two
    variables of one name: they share one stored domain (the one computed
    last, here for 10 students) and one entry of the assignment, whose key
    is the variable met first (here the one of 100 students). *)
Example shared_name_one_entry :
  let built := build_vars_domains {[ "C1" := mkCourse "Circuits" "lab" ]}
                 [("I1", mkInstructor "Ann" {[ "C1" ]})]
                 [("R1", mkRoom "lab" 20); ("R2", mkRoom "lab" 200)] ["T1"; "T2"]
                 {[ 1 := ["C1"] ]}
                 [mkSection "S1" "" 1 100; mkSection "S1" "" 1 10] in
  let big := mkLectureVar "C1" "S1" 1 0 100 in
  let small := mkLectureVar "C1" "S1" 1 0 10 in
  built.1 = [big; small]
  /\ name big = name small
  /\ domain_of built.2 big = dom_for {[ "C1" := mkCourse "Circuits" "lab" ]}
       [("I1", mkInstructor "Ann" {[ "C1" ]})]
       [("R1", mkRoom "lab" 20); ("R2", mkRoom "lab" 200)] ["T1"; "T2"] small
  /\ greedy_assign built.2 built.1 = ([(big, ("T2", "R1", "I1", true))], 0).
Proof. vm_compute. done. Qed.

(** * Further properties of the code *)

(** ** The scheduling core of [test.py] *)

(** ** The iteration budget of [improve_assignments] *)

Lemma improve_step_improved domains st v st' :
  improve_step domains st v = Some st' ->
  improved st <= improved st' <= improved st + 1.
Proof.
  unfold improve_step.
  destruct (find_upgrade st v (default [] (domains !! name v))) as [[opt|]|];
    simpl; [|intros [= <-]; lia|done].
  unfold apply_upgrade.
  destruct (dict_get LectureVar_eqb (im_assigned st) v); simpl; [|done].
  intros [= <-]. simpl. lia.
Qed.

Lemma improve_loop_budget domains stack it max_iters st st' :
  improve_loop domains stack it max_iters st = Some st' ->
  improved st <= improved st'
  /\ improved st' <= improved st + Z.of_nat (length stack)
  /\ improved st' <= improved st + Z.max 0 (max_iters - it).
Proof.
  revert it st. induction stack as [|v stack IH]; intros it st; simpl.
  - intros [= <-]. lia.
  - destruct (Z.ltb_spec it max_iters) as [Hlt|Hge]; [|intros [= <-]; lia].
    destruct (improve_step domains st v) as [st1|] eqn:Hstep; simpl; [|done].
    intros Hloop. apply improve_step_improved in Hstep.
    apply IH in Hloop. lia.
Qed.

Lemma improve_loop_exhausted domains stack it max_iters st :
  max_iters <= it -> improve_loop domains stack it max_iters st = Some st.
Proof.
  intros Hle. destruct stack as [|v stack]; simpl; [done|].
  destruct (Z.ltb_spec it max_iters); [lia|done].
Qed.

Lemma improve_assignments_budget_aux shuffle domains a a' max_iters n :
  (forall l, Permutation (shuffle l) l) ->
  improve_assignments shuffle domains a max_iters = Some (a', n) ->
  0 <= n /\ n <= Z.of_nat (length (unqualified_of a)) /\ n <= Z.max 0 max_iters.
Proof.
  intros Hsh. unfold improve_assignments.
  destruct (improve_loop domains (rev (shuffle (unqualified_of a))) 0 max_iters
              (improve_init a)) as [st'|] eqn:Hloop; simpl; [|done].
  intros [= <- <-].
  pose proof (improve_loop_budget _ _ _ _ _ _ Hloop) as (H1 & H2 & H3).
  rewrite length_rev, (Permutation_length (Hsh _)) in H2. simpl in *. lia.
Qed.

(** ** Accounting for the violation counter *)

Lemma first_fit_nil_domain used_r used_i :
  first_fit used_r used_i (preference_order []) = None.
Proof. reflexivity. Qed.

Lemma length_filter_insert_by {A : Type} (key : A -> Z) (P : A -> bool) x l :
  length (List.filter P (insert_by key x l)) = length (List.filter P (x :: l)).
Proof.
  induction l as [|y l IH]; [done|]. cbn [insert_by].
  destruct (key x <=? key y); [done|].
  cbn [List.filter] in *. destruct (P y), (P x); simpl in *; lia.
Qed.

Lemma length_filter_sorted_by {A : Type} (key : A -> Z) (P : A -> bool) l :
  length (List.filter P (sorted_by key l)) = length (List.filter P l).
Proof.
  induction l as [|x l IH]; [done|]. cbn [sorted_by].
  rewrite length_filter_insert_by. cbn [List.filter].
  destruct (P x); simpl; by rewrite IH.
Qed.

Lemma greedy_step_accounting domains st v :
  violations (greedy_step domains st v)
  = violations st
    + (if took_fallback domains st v then 1 else 0)
    + (if bool_decide (domain_of domains v = []) then 1 else 0).
Proof.
  rewrite greedy_step_eq. cbn [violations]. unfold took_fallback.
  destruct (choose_cases domains st v)
    as [(c & Hff & Hch)|[(Hne & c & _ & Hch)|[Hnil Hch]]]; rewrite Hch; cbn [snd].
  - rewrite Hff. apply first_fit_elem in Hff. rewrite preference_order_elem in Hff.
    rewrite bool_decide_eq_false_2; [lia|].
    intros Hnil. rewrite Hnil in Hff. by apply elem_of_nil in Hff.
  - rewrite bool_decide_eq_false_2 by done.
    destruct (first_fit _ _ _) as [c'|] eqn:Hff.
    + rewrite (choose_first_fit _ _ _ _ Hff) in Hch. injection Hch as _ Hv. lia.
    + destruct (domain_of domains v); [done|]. lia.
  - rewrite bool_decide_eq_true_2 by done. rewrite Hnil. simpl. lia.
Qed.

Lemma greedy_steps_accounting domains l st :
  violations (fold_left (greedy_step domains) l st)
  = violations st
    + Z.of_nat (length (fallback_trace domains l st))
    + Z.of_nat (length (List.filter (fun v => bool_decide (domain_of domains v = [])) l)).
Proof.
  revert st. induction l as [|v l IH]; intros st; [simpl; lia|].
  cbn [fold_left fallback_trace List.filter]. rewrite IH, greedy_step_accounting.
  rewrite length_app.
  destruct (took_fallback domains st v), (bool_decide (domain_of domains v = []));
    simpl length; lia.
Qed.

(** X2: the violation count [greedy_assign] returns is the number of
    sessions committed by the conflict fallback plus the number of variables
    with an empty domain; so it lies between 0 and the number of
    variables. *)
Theorem greedy_assign_violations
    (domains : gmap string (list Candidate)) (variables : list LectureVar) :
  (greedy_assign domains variables).2
  = Z.of_nat (length (fallback_sessions domains variables))
    + Z.of_nat (length (List.filter (fun v => bool_decide (domain_of domains v = []))
                                    variables))
  /\ 0 <= (greedy_assign domains variables).2 <= Z.of_nat (length variables).
Proof.
  unfold greedy_assign, greedy_run, fallback_sessions. simpl.
  rewrite greedy_steps_accounting. simpl. unfold greedy_order.
  rewrite length_filter_sorted_by. split; [lia|]. split; [lia|].
  assert (forall l st, violations (fold_left (greedy_step domains) l st)
                       <= violations st + Z.of_nat (length l)) as Hup.
  { induction l as [|v l IH]; intros st; simpl; [lia|].
    pose proof (greedy_step_violations domains st v). specialize (IH (greedy_step domains st v)).
    lia. }
  specialize (Hup (sorted_by (fun x => - students x) variables) greedy_init).
  rewrite greedy_steps_accounting in Hup. simpl in Hup.
  rewrite length_filter_sorted_by in Hup.
  rewrite (Permutation_length (sorted_by_perm _ variables)) in Hup. lia.
Qed.

(** ** Preference for qualified instructors *)

Lemma app_split_not_in {A : Type} (l1 l2 pre post : list A) (c : A) :
  l1 ++ l2 = pre ++ c :: post -> c ∉ l1 -> forall x, x ∈ l1 -> x ∈ pre.
Proof.
  revert pre. induction l1 as [|y l1 IH]; intros pre Heq Hc x Hx;
    [by apply elem_of_nil in Hx|].
  destruct pre as [|z pre]; simpl in Heq.
  - injection Heq as -> _. exfalso. apply Hc. by left.
  - injection Heq as -> Heq. apply elem_of_cons in Hx as [->|Hx]; [by left|].
    right. eapply IH; [exact Heq| |exact Hx]. intros ?. apply Hc. by right.
Qed.

(** X3: a step of [greedy_assign] that leaves the violation counter alone
    and commits an unqualified candidate does so only when every qualified
    candidate of the domain is occupied on its room pair or on its
    instructor pair. *)
Theorem greedy_step_prefers_qualified
    (domains : gmap string (list Candidate)) (st : greedy_state)
    (v : LectureVar) (c : Candidate) :
  violations (greedy_step domains st v) = violations st ->
  dict_get LectureVar_eqb (assigned (greedy_step domains st v)) v = Some c ->
  cand_qual c = false ->
  forall d, d ∈ domain_of domains v -> cand_qual d = true ->
    room_slot d ∈ used_room_ts st \/ instr_slot d ∈ used_instr_ts st.
Proof.
  rewrite greedy_step_eq. simpl. rewrite dict_get_set_eq by done.
  intros Hviol [= Hc] Hq d Hd Hdq.
  destruct (choose_cases domains st v)
    as [(c' & Hff & Hch)|[(_ & c' & _ & Hch)|[_ Hch]]];
    rewrite Hch in Hviol, Hc; simpl in *; try lia.
  subst c'. apply first_fit_Some in Hff as (pre & post & Hsplit & Hpre & _).
  unfold preference_order in Hsplit.
  assert (d ∈ pre) as Hin.
  { eapply app_split_not_in; [exact Hsplit| |].
    - rewrite list_elem_of_In, filter_In. intros [_ Hqc]. congruence.
    - rewrite list_elem_of_In, filter_In. by rewrite <- list_elem_of_In. }
  rewrite Forall_forall in Hpre. by apply occupied_spec, Hpre.
Qed.

Lemma greedy_step_prefers_qualified_witness :
  let domains : gmap string (list Candidate) :=
    {[ "C1_S1_L1" := [("T1", "R1", "I2", false); ("T1", "R1", "I1", true);
                      ("T2", "R1", "I2", false)] ]} in
  let st := mkGreedy [(mkLectureVar "C1" "S1" 1 0 10, ("T1", "R1", "I1", true))]
                     {[ ("T1", "R1") ]} {[ ("T1", "I1") ]} 0 in
  room_slot ("T1", "R1", "I1", true) ∈ used_room_ts st
  \/ instr_slot ("T1", "R1", "I1", true) ∈ used_instr_ts st.
Proof.
  intros domains st.
  refine (greedy_step_prefers_qualified domains st (mkLectureVar "C1" "S1" 1 1 10)
            ("T2", "R1", "I2", false) _ _ _ ("T1", "R1", "I1", true) _ _).
  - reflexivity.
  - reflexivity.
  - reflexivity.
  - vm_compute. right. by left.
  - reflexivity.
Defined.

(** ** The improvement pass stays inside the domains *)

Lemma improve_step_within domains a v rest st :
  improve_within domains a (v :: rest) st ->
  exists st', improve_step domains st v = Some st' /\ improve_within domains a rest st'.
Proof.
  intros (Hkeys & Hfst & Hin).
  assert (forall w, w ∈ rest -> is_Some (dict_get LectureVar_eqb (im_assigned st) w))
    as Hrest by (intros w Hw; apply Hkeys; by right).
  destruct (improve_step_cases domains st v) as
    [->|(cur & opt & Hcur & Hopt & _ & _ & _ & ->)]; [apply Hkeys; by left| |].
  { exists st. by split; [|split; [|split]]. }
  eexists. split; [done|]. unfold improve_within. cbn [im_assigned].
  split; [|split].
  - intros w Hw. destruct (decide (name v = name w)) as [Heq|Hne].
    + rewrite dict_get_set_eq by done. eauto.
    + rewrite dict_get_set_ne by done. by apply Hrest.
  - rewrite dict_set_present by (by rewrite Hcur). done.
  - intros w c'. destruct (decide (name v = name w)) as [Heq|Hne].
    + rewrite dict_get_set_eq by done. intros [= <-]. right.
      unfold domain_of. by rewrite <- Heq.
    + rewrite dict_get_set_ne by done. apply Hin.
Qed.

Lemma dict_keys_get {V : Type} (a a' : list (LectureVar * V)) v :
  fst <$> a' = fst <$> a ->
  is_Some (dict_get LectureVar_eqb a v) -> is_Some (dict_get LectureVar_eqb a' v).
Proof.
  intros Hk. rewrite !dict_get_is_Some, !dict_names_keys. by rewrite Hk.
Qed.

Lemma improve_assignments_within shuffle domains a max_iters :
  (forall l, Permutation (shuffle l) l) ->
  exists a' n,
    improve_assignments shuffle domains a max_iters = Some (a', n)
    /\ fst <$> a' = fst <$> a
    /\ forall v c', dict_get LectureVar_eqb a' v = Some c' ->
         dict_get LectureVar_eqb a v = Some c' \/ c' ∈ domain_of domains v.
Proof.
  intros Hsh. unfold improve_assignments.
  destruct (improve_loop_inv domains (improve_within domains a)
              (improve_step_within domains a))
    with (stack := rev (shuffle (unqualified_of a)))
         (it := 0) (max_iters := max_iters) (st := improve_init a)
    as (st' & rest & -> & (_ & Hk & Hin)).
  - split; [|split; [done|by left]].
    intros w Hw. simpl. rewrite (improve_stack_perm shuffle a Hsh) in Hw.
    apply unqualified_of_elem in Hw as (c & Hc & _).
    apply dict_get_is_Some, list_elem_of_fmap. by exists (w, c).
  - simpl. by exists (im_assigned st'), (improved st').
Qed.

(** X1: for any permuting shuffle [improve_assignments] returns, and the
    improvement count it returns is never negative, never exceeds the number
    of unqualified sessions and never exceeds the iteration budget; with a
    budget of zero or less the assignment comes back untouched with
    count 0. *)
Theorem improve_assignments_budget
    (shuffle : list LectureVar -> list LectureVar)
    (domains : gmap string (list Candidate))
    (a : list (LectureVar * Candidate)) (max_iters : Z) :
  (forall l, Permutation (shuffle l) l) ->
  exists a' n,
    improve_assignments shuffle domains a max_iters = Some (a', n)
    /\ 0 <= n
    /\ n <= Z.of_nat (length (unqualified_of a))
    /\ n <= Z.max 0 max_iters
    /\ (max_iters <= 0 -> a' = a /\ n = 0).
Proof.
  intros Hsh.
  destruct (improve_assignments_within shuffle domains a max_iters Hsh)
    as (a' & n & Himp & _ & _).
  exists a', n. split; [done|].
  destruct (improve_assignments_budget_aux _ _ _ _ _ _ Hsh Himp) as (H0 & H1 & H2).
  split; [done|]. split; [done|]. split; [done|]. intros Hle.
  unfold improve_assignments in Himp.
  rewrite improve_loop_exhausted in Himp by lia. simpl in Himp.
  by injection Himp as <- <-.
Qed.

Lemma improve_assignments_budget_witness :
  improve_assignments id
    {[ "C2_S1_L0" := [("T1", "R1", "I3", false); ("T2", "R1", "I2", true)] ]}
    [(mkLectureVar "C2" "S1" 1 0 10, ("T1", "R1", "I3", false))] 0
  = Some ([(mkLectureVar "C2" "S1" 1 0 10, ("T1", "R1", "I3", false))], 0).
Proof.
  destruct (improve_assignments_budget id
              {[ "C2_S1_L0" := [("T1", "R1", "I3", false); ("T2", "R1", "I2", true)] ]}
              [(mkLectureVar "C2" "S1" 1 0 10, ("T1", "R1", "I3", false))] 0
              (fun l => Permutation_refl l)) as (a' & n & Himp & _ & _ & _ & Hz).
  destruct Hz as [-> ->]; [lia|]. exact Himp.
Defined.

(** A candidate stored for a generated session admits its room, provided the
    name of the session is not shared with a different course or count. *)
Lemma built_domain_admits courses instructors rooms timeslots curriculum sections v c :
  let built :=
    build_vars_domains courses instructors rooms timeslots curriculum sections in
  v ∈ built.1 ->
  (forall w, w ∈ built.1 -> name w = name v ->
             course w = course v /\ students w = students v) ->
  c ∈ domain_of built.2 v ->
  room_admits rooms (ctype_of courses (course v)) (students v) c.
Proof.
  intros built Hv Hsame Hin. subst built.
  rewrite build_vars_domains_variables in Hv, Hsame.
  destruct (build_vars_domains_lookup courses instructors rooms timeslots
              curriculum sections v Hv) as (w & Hw & Hn & Hlook).
  destruct (Hsame w Hw Hn) as [Hcourse Hstud].
  unfold domain_of in Hin. rewrite Hlook in Hin. simpl in Hin.
  unfold dom_for in Hin. rewrite Hcourse, Hstud in Hin.
  apply elem_of_build_dom in Hin as (_ & Hroom & _). exact Hroom.
Qed.

Lemma run_pipeline_unfold shuffle courses instructors rooms timeslots timeslot_info
    sections curriculum :
  run_pipeline shuffle courses instructors rooms timeslots timeslot_info
               sections curriculum
  = let built :=
      build_vars_domains courses instructors rooms timeslots curriculum sections in
    r ← improve_assignments shuffle built.2 (greedy_assign built.2 built.1).1
                            default_max_iters;
    Some (mkRunResult r.1 (export_rows timeslot_info instructors r.1)
                      (greedy_assign built.2 built.1).2 r.2).
Proof.
  unfold run_pipeline.
  by destruct (build_vars_domains courses instructors rooms timeslots curriculum sections).
Qed.

(** X4: capacity and type safety hold at the end of the pipeline, after the
    improvement pass: a generated session with a non-empty domain (whose name
    is not shared with a session of another course or student count) ends
    with a tuple of its domain, in a listed room of compatible type and
    sufficient capacity. *)
Theorem run_pipeline_room_safety
    (shuffle : list LectureVar -> list LectureVar)
    (courses : gmap string Course) (instructors : list (string * Instructor))
    (rooms : list (string * Room)) (timeslots : list string)
    (timeslot_info : gmap string TimeslotInfo) (sections : list Section)
    (curriculum : gmap Z (list string)) (res : RunResult) (v : LectureVar) :
  let built :=
    build_vars_domains courses instructors rooms timeslots curriculum sections in
  (forall l, Permutation (shuffle l) l) ->
  run_pipeline shuffle courses instructors rooms timeslots timeslot_info
               sections curriculum = Some res ->
  v ∈ built.1 ->
  (forall w, w ∈ built.1 -> name w = name v ->
             course w = course v /\ students w = students v) ->
  domain_of built.2 v <> [] ->
  exists c, dict_get LectureVar_eqb (res_assigned res) v = Some c
    /\ c ∈ domain_of built.2 v
    /\ room_admits rooms (ctype_of courses (course v)) (students v) c.
Proof.
  intros built Hsh Hrun Hv Hsame Hne. rewrite run_pipeline_unfold in Hrun.
  fold built in Hrun. cbv zeta in Hrun.
  destruct (improve_assignments_within shuffle built.2
              (greedy_assign built.2 built.1).1 default_max_iters Hsh)
    as (a' & n & Himp & Hk & Hin).
  rewrite Himp in Hrun. simpl in Hrun. injection Hrun as <-. simpl.
  destruct (greedy_assign_get built.2 built.1 v Hv) as (c0 & Hc0 & Hdom0).
  destruct (dict_keys_get _ a' v Hk) as [c Hc]; [by rewrite Hc0|].
  exists c. split; [done|].
  assert (c ∈ domain_of built.2 v) as Hcd.
  { destruct (Hin v c Hc) as [Hold|Hnew]; [|done].
    rewrite Hc0 in Hold. injection Hold as <-. by apply Hdom0. }
  split; [done|]. by eapply built_domain_admits.
Qed.

Lemma run_pipeline_room_safety_witness :
  exists res c,
    run_pipeline id scenario_courses scenario_instructors scenario_rooms ["T1"] ∅
                 scenario_sections scenario_curriculum = Some res
    /\ dict_get LectureVar_eqb (res_assigned res) scenario_L1 = Some c
    /\ room_admits scenario_rooms "lecture" 10 c.
Proof.
  destruct (run_pipeline id scenario_courses scenario_instructors scenario_rooms ["T1"] ∅
              scenario_sections scenario_curriculum) as [res|] eqn:Hrun;
    [|by vm_compute in Hrun].
  destruct (run_pipeline_room_safety id scenario_courses scenario_instructors
              scenario_rooms ["T1"] ∅ scenario_sections scenario_curriculum res scenario_L1)
    as (c & Hc & _ & Hadm).
  - intros l. apply Permutation_refl.
  - exact Hrun.
  - vm_compute. right. by left.
  - intros w Hw. vm_compute in Hw.
    apply elem_of_cons in Hw as [->|Hw]; [discriminate|].
    apply list_elem_of_singleton in Hw as ->. done.
  - discriminate.
  - by exists res, c.
Defined.

(** ** The pipeline as a whole *)

Lemma improve_assignments_progress shuffle domains a max_iters :
  (forall l, Permutation (shuffle l) l) ->
  NoDup (dict_names a) ->
  exists a' n,
    improve_assignments shuffle domains a max_iters = Some (a', n)
    /\ qualified_count a' = qualified_count a + n
    /\ fst <$> a' = fst <$> a.
Proof.
  intros Hsh Hnd. unfold improve_assignments.
  destruct (improve_loop_inv domains (improve_progress domains a)
              (improve_step_progress domains a))
    with (stack := rev (shuffle (unqualified_of a)))
         (it := 0) (max_iters := max_iters) (st := improve_init a)
    as (st' & rest & -> & (_ & _ & Hpos & Hcount & Hkeys & _)).
  - unfold improve_progress. simpl. repeat split; try done.
    + rewrite (improve_stack_perm shuffle a Hsh). by apply unqualified_of_NoDup.
    + intros v Hv. rewrite (improve_stack_perm shuffle a Hsh) in Hv.
      apply unqualified_of_elem in Hv as (c & Hin & Hq).
      exists c. by rewrite (dict_get_of_elem a v c).
    + lia.
    + auto.
  - simpl. by exists (im_assigned st'), (improved st').
Qed.

(** X5: for any permuting shuffle the pipeline of [choose_and_run] returns a
    result, whatever the tables hold ([assigned[v]] never misses).  Its rows
    name the sessions in the order [greedy_assign] first committed them, one
    row per session name; the improvement count lies between 0 and 5000 and
    is exactly the gain in qualified sessions over the greedy assignment. *)
Theorem run_pipeline_total
    (shuffle : list LectureVar -> list LectureVar)
    (courses : gmap string Course) (instructors : list (string * Instructor))
    (rooms : list (string * Room)) (timeslots : list string)
    (timeslot_info : gmap string TimeslotInfo) (sections : list Section)
    (curriculum : gmap Z (list string)) :
  let built :=
    build_vars_domains courses instructors rooms timeslots curriculum sections in
  let greedy := (greedy_assign built.2 built.1).1 in
  (forall l, Permutation (shuffle l) l) ->
  exists res,
    run_pipeline shuffle courses instructors rooms timeslots timeslot_info
                 sections curriculum = Some res
    /\ row_Variable <$> res_rows res = dict_names greedy
    /\ NoDup (row_Variable <$> res_rows res)
    /\ (forall n, n ∈ row_Variable <$> res_rows res <-> n ∈ name <$> built.1)
    /\ 0 <= res_improved res <= 5000
    /\ qualified_count (res_assigned res) = qualified_count greedy + res_improved res.
Proof.
  intros built greedy Hsh. rewrite run_pipeline_unfold. fold built. cbv zeta.
  fold greedy.
  destruct (improve_assignments_progress shuffle built.2 greedy default_max_iters Hsh)
    as (a' & n & Himp & Hcount & Hk); [apply greedy_assign_NoDup|].
  rewrite Himp. simpl. eexists. split; [done|]. simpl.
  assert (row_Variable <$> export_rows timeslot_info instructors a' = dict_names greedy)
    as Hrows.
  { rewrite export_rows_fmap, (dict_names_keys greedy), <- Hk, <- dict_names_keys.
    unfold dict_names. clear. induction a' as [|[k c] a' IH]; [done|].
    rewrite !fmap_cons, IH. done. }
  rewrite Hrows. split; [done|]. split; [apply greedy_assign_NoDup|].
  split; [apply greedy_assign_names|].
  split; [|done].
  destruct (improve_assignments_budget_aux shuffle built.2 greedy a' default_max_iters n Hsh Himp)
    as (H0 & _ & Hmax). unfold default_max_iters in Hmax. lia.
Qed.

Lemma run_pipeline_total_witness :
  exists res,
    run_pipeline id scenario_courses scenario_instructors scenario_rooms ["T1"] ∅
                 scenario_sections scenario_curriculum = Some res
    /\ row_Variable <$> res_rows res = ["C1_S1_L0"; "C1_S1_L1"].
Proof.
  destruct (run_pipeline_total id scenario_courses scenario_instructors scenario_rooms
              ["T1"] ∅ scenario_sections scenario_curriculum)
    as (res & Hrun & Hrows & _); [intros l; apply Permutation_refl|].
  exists res. split; [done|]. by rewrite Hrows.
Defined.

(** ** [compatible_room]: case, reflexivity, lecture rooms *)

Lemma lower_ascii_idem a : Py.lower_ascii (Py.lower_ascii a) = Py.lower_ascii a.
Proof. destruct a as [[] [] [] [] [] [] [] []]; reflexivity. Qed.

Lemma lower_idem s : Py.lower (Py.lower s) = Py.lower s.
Proof. induction s as [|a s IH]; simpl; [done|]. by rewrite lower_ascii_idem, IH. Qed.

(** X6: [compatible_room] looks at its arguments in lower case only; a type
    is compatible with itself, also across a change of case; and a room
    whose type contains "lec" takes a course of any type. *)
Theorem compatible_room_case_and_lecture (course_type room_type : string) :
  compatible_room (Py.lower course_type) (Py.lower room_type)
  = compatible_room course_type room_type
  /\ compatible_room course_type course_type = true
  /\ (Py.lower course_type = Py.lower room_type ->
      compatible_room course_type room_type = true)
  /\ (Py.contains "lec" (Py.lower room_type) = true ->
      compatible_room course_type room_type = true).
Proof.
  assert (forall c r, Py.lower c = Py.lower r -> compatible_room c r = true) as Heq.
  { intros c r Hcr. unfold compatible_room. rewrite Hcr, String.eqb_refl.
    by destruct (Py.is_empty (Py.lower r)). }
  split; [|split; [by apply Heq|split; [apply Heq|]]].
  - unfold compatible_room. by rewrite !lower_idem.
  - intros Hlec. unfold compatible_room. rewrite Hlec.
    repeat match goal with |- context [if ?b then _ else _] => destruct b end; done.
Qed.

(** ** When session names are distinct *)

Lemma contains_underscore_cons c s :
  Py.contains "_" (String c s) = Ascii.eqb "_" c || Py.contains "_" s.
Proof.
  change (Py.contains "_" (String c s))
    with (String.prefix "_" (String c s) || Py.contains "_" s).
  f_equal. cbn [String.prefix]. destruct (ascii_dec "_" c) as [<-|Hne].
  - rewrite Ascii.eqb_refl. by destruct s.
  - symmetry. by apply Ascii.eqb_neq.
Qed.

Lemma append_nil_l (t : string) : String.append "" t = t.
Proof. reflexivity. Qed.

Lemma append_cons (c : ascii) (s t : string) :
  String.append (String c s) t = String c (String.append s t).
Proof. reflexivity. Qed.

Lemma contains_underscore_mid s t :
  Py.contains "_" (s ++ String "_" t)%string = true.
Proof.
  induction s as [|c s IH].
  - rewrite append_nil_l, contains_underscore_cons. reflexivity.
  - rewrite append_cons, contains_underscore_cons, IH. by destruct (Ascii.eqb "_" c).
Qed.

(** Cutting at the last underscore is unambiguous. *)
Lemma split_last_underscore s1 s2 t1 t2 :
  Py.contains "_" t1 = false -> Py.contains "_" t2 = false ->
  (s1 ++ String "_" t1)%string = (s2 ++ String "_" t2)%string ->
  s1 = s2 /\ t1 = t2.
Proof.
  intros Ht1 Ht2. revert s2.
  induction s1 as [|c s1 IH]; intros [|c' s2] Heq;
    rewrite ?append_nil_l, ?append_cons in Heq.
  - by injection Heq as ->.
  - injection Heq as <- ->. by rewrite contains_underscore_mid in Ht1.
  - injection Heq as -> <-. by rewrite contains_underscore_mid in Ht2.
  - injection Heq as -> Heq. destruct (IH _ Heq) as [-> ->]. done.
Qed.

Lemma digits_no_underscore d : Py.contains "_" (NilEmpty.string_of_uint d) = false.
Proof.
  induction d; [done|..];
    cbn [NilEmpty.string_of_uint]; rewrite contains_underscore_cons, IHd; reflexivity.
Qed.

Lemma to_uint_nonnil n : Nat.to_uint n <> Nil.
Proof.
  intros Hnil. pose proof (DecimalNat.Unsigned.of_to n) as Hof.
  rewrite Hnil in Hof. simpl in Hof. subst n. discriminate Hnil.
Qed.

Lemma str_of_nat_no_underscore n : Py.contains "_" (Py.str_of_nat n) = false.
Proof.
  unfold Py.str_of_nat, NilZero.string_of_uint.
  destruct (Nat.to_uint n); [done|..]; apply digits_no_underscore.
Qed.

Lemma str_of_nat_inj n m : Py.str_of_nat n = Py.str_of_nat m -> n = m.
Proof.
  unfold Py.str_of_nat. intros Heq.
  apply DecimalNat.Unsigned.to_uint_inj.
  pose proof (NilZero.usu _ (to_uint_nonnil n)) as Hn.
  pose proof (NilZero.usu _ (to_uint_nonnil m)) as Hm.
  rewrite Heq in Hn. congruence.
Qed.

Lemma string_app_assoc (s t u : string) :
  String.append (String.append s t) u = String.append s (String.append t u).
Proof.
  induction s as [|c s IH]; [done|]. rewrite !append_cons. f_equal. exact IH.
Qed.

Lemma name_eq_inv (v w : LectureVar) :
  Py.contains "_" (section v) = false ->
  Py.contains "_" (section w) = false ->
  name v = name w ->
  course v = course w /\ section v = section w /\ idx v = idx w.
Proof.
  intros Hv Hw. unfold name. intros Heq.
  assert (forall x : LectureVar,
            (course x ++ "_" ++ section x ++ "_L" ++ Py.str_of_nat (idx x))%string
            = ((course x ++ String "_" (section x))
               ++ String "_" (String "L" (Py.str_of_nat (idx x))))%string) as Hshape.
  { intros x. rewrite string_app_assoc. reflexivity. }
  rewrite !Hshape in Heq.
  apply split_last_underscore in Heq as [Hhead Htail].
  - apply split_last_underscore in Hhead as [Hc Hs]; [|done|done].
    injection Htail as Htail. apply str_of_nat_inj in Htail. done.
  - rewrite contains_underscore_cons, str_of_nat_no_underscore. reflexivity.
  - rewrite contains_underscore_cons, str_of_nat_no_underscore. reflexivity.
Qed.

(** X7: two variables whose section ids contain no underscore have the same
    name only if they agree on course, section and session index; so for
    such sections [LectureVar.__eq__] identifies exactly the sessions of the
    same (course, section, index). *)
Theorem name_injective (v w : LectureVar) :
  Py.contains "_" (section v) = false ->
  Py.contains "_" (section w) = false ->
  (name v = name w <-> course v = course w /\ section v = section w /\ idx v = idx w).
Proof.
  intros Hv Hw. split; [by apply name_eq_inv|unfold name; by intros (-> & -> & ->)].
Qed.

Lemma name_injective_witness :
  name (mkLectureVar "A_B" "C" 1 0 10) = name (mkLectureVar "A_B" "C" 2 0 30).
Proof.
  apply (name_injective (mkLectureVar "A_B" "C" 1 0 10) (mkLectureVar "A_B" "C" 2 0 30));
    reflexivity || done.
Defined.

Lemma sessions_for_fields courses sec cid v :
  v ∈ sessions_for courses sec cid ->
  course v = cid /\ section v = section_id sec
  /\ year v = sec_year sec /\ students v = sec_students sec.
Proof.
  unfold sessions_for. by intros (i & -> & _)%list_elem_of_fmap.
Qed.

Lemma all_sessions_elem courses curriculum sections v :
  v ∈ all_sessions courses curriculum sections <->
  exists sec cid, sec ∈ sections
    /\ cid ∈ default [] (curriculum !! sec_year sec)
    /\ v ∈ sessions_for courses sec cid.
Proof.
  unfold all_sessions. rewrite list_elem_of_bind. split.
  - intros (sec & (cid & Hv & Hcid)%list_elem_of_bind & Hsec). by exists sec, cid.
  - intros (sec & cid & Hsec & Hcid & Hv). exists sec. split; [|done].
    apply list_elem_of_bind. by exists cid.
Qed.

Lemma NoDup_fmap_elem_inj {A B : Type} (f : A -> B) (l : list A) x y :
  NoDup (f <$> l) -> x ∈ l -> y ∈ l -> f x = f y -> x = y.
Proof.
  induction l as [|z l IH]; intros Hnd Hx Hy Hf; [by apply elem_of_nil in Hx|].
  rewrite fmap_cons in Hnd. apply NoDup_cons in Hnd as [Hz Hnd].
  apply elem_of_cons in Hx as [->|Hx], Hy as [->|Hy]; [done| | |by apply IH].
  - exfalso. apply Hz. rewrite Hf. by apply list_elem_of_fmap_2.
  - exfalso. apply Hz. rewrite <- Hf. by apply list_elem_of_fmap_2.
Qed.

Section DistinctNames.
Variable courses : gmap string Course.
Variable curriculum : gmap Z (list string).
Variable sections : list Section.
Hypothesis Hids : NoDup (section_id <$> sections).
Hypothesis Hplain : forall sec, sec ∈ sections -> Py.contains "_" (section_id sec) = false.
Hypothesis Hlists : forall sec, sec ∈ sections ->
  NoDup (default [] (curriculum !! sec_year sec)).

Lemma all_sessions_NoDup : NoDup (all_sessions courses curriculum sections).
Proof.
  unfold all_sessions. apply NoDup_bind.
  - intros sec1 sec2 v Hs1 Hs2
      (c1 & Hv1%sessions_for_fields & _)%list_elem_of_bind
      (c2 & Hv2%sessions_for_fields & _)%list_elem_of_bind.
    apply (NoDup_fmap_elem_inj section_id sections); try done.
    destruct Hv1 as (_ & <- & _), Hv2 as (_ & <- & _). done.
  - intros sec Hsec. apply NoDup_bind; [| |by apply Hlists].
    + intros c1 c2 v _ _ (<- & _)%sessions_for_fields (<- & _)%sessions_for_fields. done.
    + intros cid _. unfold sessions_for. apply NoDup_fmap_2_strong; [|apply NoDup_seq].
      intros i j _ _ [= ->]. done.
  - by apply NoDup_fmap_1 in Hids.
Qed.

Lemma all_sessions_names_NoDup :
  NoDup (name <$> all_sessions courses curriculum sections).
Proof.
  apply NoDup_fmap_2_strong; [|apply all_sessions_NoDup].
  intros v w (sv & cv & Hsv & _ & Hv)%all_sessions_elem
             (sw & cw & Hsw & _ & Hw)%all_sessions_elem Hname.
  apply sessions_for_fields in Hv as (Hcv & Hsecv & Hyv & Hstv).
  apply sessions_for_fields in Hw as (Hcw & Hsecw & Hyw & Hstw).
  destruct (name_eq_inv v w) as (Hc & Hs & Hi); [| |done|].
  - rewrite Hsecv. by apply Hplain.
  - rewrite Hsecw. by apply Hplain.
  - assert (sv = sw) as ->.
    { apply (NoDup_fmap_elem_inj section_id sections); try done. congruence. }
    destruct v, w. simpl in *. congruence.
Qed.
End DistinctNames.

(** X8: when section ids are pairwise distinct and free of underscores and
    no curriculum list repeats a course id, the generated sessions have
    pairwise distinct names; then every session finds its own domain under
    its name and [greedy_assign] returns exactly one entry per generated
    session. *)
Theorem distinct_sections_distinct_sessions
    (courses : gmap string Course) (instructors : list (string * Instructor))
    (rooms : list (string * Room)) (timeslots : list string)
    (curriculum : gmap Z (list string)) (sections : list Section) :
  let built :=
    build_vars_domains courses instructors rooms timeslots curriculum sections in
  NoDup (section_id <$> sections) ->
  (forall sec, sec ∈ sections -> Py.contains "_" (section_id sec) = false) ->
  (forall sec, sec ∈ sections -> NoDup (default [] (curriculum !! sec_year sec))) ->
  NoDup (name <$> built.1)
  /\ (forall v, v ∈ built.1 ->
        domain_of built.2 v = dom_for courses instructors rooms timeslots v)
  /\ length (greedy_assign built.2 built.1).1 = length built.1.
Proof.
  intros built Hids Hplain Hlists.
  assert (NoDup (name <$> built.1)) as Hnd.
  { subst built. rewrite build_vars_domains_variables.
    by apply all_sessions_names_NoDup. }
  split; [done|]. split; [|by apply greedy_assign_length].
  intros v Hv. subst built. rewrite build_vars_domains_variables in Hv, Hnd.
  destruct (build_vars_domains_lookup courses instructors rooms timeslots
              curriculum sections v Hv) as (w & Hw & Hn & Hlook).
  unfold domain_of. rewrite Hlook. simpl.
  by rewrite (NoDup_fmap_elem_inj name _ w v Hnd Hw Hv Hn).
Qed.

Lemma distinct_sections_distinct_sessions_witness :
  length (greedy_assign
            (build_vars_domains scenario_courses scenario_instructors scenario_rooms
               ["T1"; "T2"] scenario_curriculum scenario_sections).2
            (build_vars_domains scenario_courses scenario_instructors scenario_rooms
               ["T1"; "T2"] scenario_curriculum scenario_sections).1).1
  = length (build_vars_domains scenario_courses scenario_instructors scenario_rooms
              ["T1"; "T2"] scenario_curriculum scenario_sections).1.
Proof.
  refine (proj2 (proj2 (distinct_sections_distinct_sessions scenario_courses
            scenario_instructors scenario_rooms ["T1"; "T2"] scenario_curriculum
            scenario_sections _ _ _))).
  - vm_compute. apply NoDup_singleton.
  - intros sec Hsec. apply list_elem_of_singleton in Hsec as ->. reflexivity.
  - intros sec Hsec. apply list_elem_of_singleton in Hsec as ->.
    vm_compute. apply NoDup_singleton.
Defined.

(** ** Size of a domain *)

Lemma length_bind_const {A B : Type} (f : A -> list B) (l : list A) (n : nat) :
  (forall x, x ∈ l -> length (f x) = n) -> length (l ≫= f) = (length l * n)%nat.
Proof.
  induction l as [|x l IH]; intros Hn; [done|].
  rewrite bind_cons, length_app, IH, Hn; [simpl; lia|by left|].
  intros y Hy. apply Hn. by right.
Qed.

Lemma length_rooms_bind instructors ctype cid studs t rooms :
  length (rooms ≫= room_block instructors ctype cid studs t)
  = (length (List.filter (admissible ctype studs) rooms)
     * length (instr_list instructors))%nat.
Proof.
  induction rooms as [|e rooms IH]; [done|].
  rewrite bind_cons, length_app, IH. cbn [List.filter].
  unfold room_block, admissible.
  destruct (compatible_room ctype (room_type e.2) && (studs <=? capacity e.2)); simpl.
  - rewrite length_fmap. lia.
  - lia.
Qed.

(** X9: the domain built for a session holds one candidate per timeslot,
    admissible room (compatible type, capacity at least the student count)
    and instructor; it is empty exactly when there is no timeslot, no
    instructor, or no admissible room. *)
Theorem build_dom_size
    (instructors : list (string * Instructor)) (rooms : list (string * Room))
    (timeslots : list string) (ctype cid : string) (studs : Z) :
  length (build_dom instructors rooms timeslots ctype cid studs)
  = (length timeslots
     * (length (List.filter (admissible ctype studs) rooms) * length instructors))%nat
  /\ (build_dom instructors rooms timeslots ctype cid studs = [] <->
      timeslots = [] \/ instructors = []
      \/ List.filter (admissible ctype studs) rooms = []).
Proof.
  assert (length (build_dom instructors rooms timeslots ctype cid studs)
          = (length timeslots
             * (length (List.filter (admissible ctype studs) rooms)
                * length instructors))%nat) as Hlen.
  { rewrite build_dom_bind.
    rewrite (length_bind_const _ _
               (length (List.filter (admissible ctype studs) rooms) * length instructors)).
    - done.
    - intros t _. rewrite length_rooms_bind. f_equal.
      unfold instr_list, dict_keys. destruct instructors; [done|].
      by rewrite length_fmap. }
  split; [done|].
  rewrite <- !length_zero_iff_nil, Hlen. lia.
Qed.

(** ** [find_column] *)

Lemma first_column_Some c columns col :
  first_column c columns = Some col ->
  exists pre post, columns = pre ++ col :: post
    /\ column_key col = column_key c
    /\ Forall (fun col' => column_key col' <> column_key c) pre.
Proof.
  induction columns as [|x columns IH]; simpl; [done|].
  destruct (String.eqb_spec (column_key x) (column_key c)) as [Heq|Hne].
  - intros [= <-]. by exists [], columns.
  - intros (pre & post & -> & Hk & Hpre)%IH.
    exists (x :: pre), post. split; [done|]. split; [done|]. by constructor.
Qed.

Lemma first_column_None c columns :
  first_column c columns = None <->
  Forall (fun col' => column_key col' <> column_key c) columns.
Proof.
  induction columns as [|x columns IH]; simpl; [by split; [constructor|]|].
  rewrite Forall_cons.
  destruct (String.eqb_spec (column_key x) (column_key c)) as [Heq|Hne].
  - split; [done|]. by intros [? _].
  - rewrite IH. split; [by split|by intros [_ ?]].
Qed.

(** X10: [find_column] returns a column of the sheet that equals some
    candidate after stripping and lower-casing both; the candidate is the
    first in the candidate list that any column matches, and the column is
    the first in the sheet that matches it.  It returns [None] exactly when
    no column matches any candidate. *)
Theorem find_column_spec (columns candidates : list string) :
  match find_column columns candidates with
  | Some col =>
      exists cpre c cpost pre post,
        candidates = cpre ++ c :: cpost
        /\ columns = pre ++ col :: post
        /\ column_key col = column_key c
        /\ Forall (fun col' => column_key col' <> column_key c) pre
        /\ Forall (fun c' => Forall (fun col' => column_key col' <> column_key c') columns)
                  cpre
  | None =>
      Forall (fun c' => Forall (fun col' => column_key col' <> column_key c') columns)
             candidates
  end.
Proof.
  induction candidates as [|c cs IH]; simpl; [constructor|].
  destruct (first_column c columns) as [col|] eqn:Hfirst.
  - apply first_column_Some in Hfirst as (pre & post & -> & Hk & Hpre).
    exists [], c, cs, pre, post. by repeat split.
  - apply first_column_None in Hfirst.
    destruct (find_column columns cs) as [col|].
    + destruct IH as (cpre & c' & cpost & pre & post & -> & -> & Hk & Hpre & Hcpre).
      exists (c :: cpre), c', cpost, pre, post. repeat split; try done.
      by constructor.
    + by constructor.
Qed.

(** ** [load_tables_xlsx] *)

Lemma lowered_fold_sound (names : list string) (m : gmap string string) k n :
  fold_left (fun (m : gmap string string) n => <[Py.lower n := n]> m) names m !! k = Some n ->
  (n ∈ names /\ Py.lower n = k) \/ m !! k = Some n.
Proof.
  revert m. induction names as [|x names IH]; intros m; simpl; [by right|].
  intros [[Hin Hk]|Hm]%IH.
  - left. split; [by right|done].
  - destruct (decide (Py.lower x = k)) as [Heq|Hne].
    + rewrite Heq, lookup_insert_eq in Hm. injection Hm as <-. left. split; [by left|done].
    + rewrite lookup_insert_ne in Hm by done. by right.
Qed.

Lemma lowered_fold_complete (names : list string) (m : gmap string string) k :
  is_Some (m !! k) \/ (exists n, n ∈ names /\ Py.lower n = k) ->
  is_Some (fold_left (fun (m : gmap string string) n => <[Py.lower n := n]> m) names m !! k).
Proof.
  revert m. induction names as [|x names IH]; intros m; simpl.
  - intros [?|(n & []%elem_of_nil & _)]. done.
  - intros Hk. apply IH. destruct (decide (Py.lower x = k)) as [Heq|Hne].
    + left. rewrite Heq, lookup_insert_eq. eauto.
    + rewrite lookup_insert_ne by done.
      destruct Hk as [?|(n & [->|Hn]%elem_of_cons & Hl)]; [by left|done|].
      right. by exists n.
Qed.

Lemma lowered_Some names k n :
  lowered names !! k = Some n -> n ∈ names /\ Py.lower n = k.
Proof.
  unfold lowered. intros [?|Hm]%lowered_fold_sound; [done|].
  by rewrite lookup_empty in Hm.
Qed.

Lemma lowered_is_Some names k :
  is_Some (lowered names !! k) <-> exists n, n ∈ names /\ Py.lower n = k.
Proof.
  split.
  - intros [n Hn]. exists n. by apply lowered_Some.
  - intros Hn. apply lowered_fold_complete. by right.
Qed.

Lemma found_sheet_Some (low : gmap string string) variants n :
  found_sheet low variants = Some n -> exists v, v ∈ variants /\ low !! v = Some n.
Proof.
  induction variants as [|v vs IH]; simpl; [done|].
  destruct (low !! v) as [n'|] eqn:Hv.
  - intros [= <-]. exists v. split; [by left|done].
  - intros (v' & Hin & Hv')%IH. exists v'. split; [by right|done].
Qed.

Lemma found_sheet_None (low : gmap string string) variants :
  found_sheet low variants = None <-> forall v, v ∈ variants -> low !! v = None.
Proof.
  induction variants as [|v vs IH]; simpl.
  - split; [by intros _ v ?%elem_of_nil|done].
  - destruct (low !! v) as [n'|] eqn:Hv.
    + split; [done|]. intros Hall. specialize (Hall v). rewrite Hv in Hall.
      by discriminate Hall; left.
    + rewrite IH. split.
      * intros Hall v' [->|?]%elem_of_cons; [done|by apply Hall].
      * intros Hall v' Hv'. apply Hall. by right.
Qed.

Lemma lower_empty_inv n : Py.lower n = "" -> n = "".
Proof. by destruct n. Qed.

Lemma classic_served names variants :
  role_served names variants \/ ~ role_served names variants.
Proof.
  destruct (found_sheet (lowered names) variants) as [n|] eqn:Hf.
  - left. apply found_sheet_Some in Hf as (v & Hv & Hlow).
    apply lowered_Some in Hlow as [Hn Hl]. exists n. by rewrite Hl.
  - right. intros (n & Hn & Hl).
    rewrite found_sheet_None in Hf. specialize (Hf _ Hl).
    assert (is_Some (lowered names !! Py.lower n)) as [? Hs]
      by (apply lowered_is_Some; by exists n).
    congruence.
Qed.

Lemma sheet_step_served names acc role :
  Forall (fun v => v <> "") role.2 ->
  (role_served names role.2 /\
   exists n, n ∈ names /\ Py.lower n ∈ role.2
     /\ sheet_step (lowered names) acc role
        = (dict_set String.eqb acc.1 role.1 n, acc.2))
  \/ (~ role_served names role.2
      /\ sheet_step (lowered names) acc role = (acc.1, acc.2 ++ [role.1])).
Proof.
  intros Hne. unfold sheet_step.
  destruct (found_sheet (lowered names) role.2) as [n|] eqn:Hf.
  - left. apply found_sheet_Some in Hf as (v & Hv & Hlow).
    apply lowered_Some in Hlow as [Hn Hl].
    assert (Py.lower n ∈ role.2) as Hin by (by rewrite Hl).
    split; [by exists n|]. exists n. split; [done|]. split; [done|].
    destruct n; [|done]. simpl in Hl. subst v.
    rewrite Forall_forall in Hne. by destruct (Hne _ Hv).
  - right. split; [|done]. intros (n & Hn & Hl).
    rewrite found_sheet_None in Hf. specialize (Hf _ Hl).
    assert (is_Some (lowered names !! Py.lower n)) as [? Hs]
      by (apply lowered_is_Some; by exists n).
    congruence.
Qed.

Lemma string_dict_get_set_eq {V : Type} (a : list (string * V)) k x :
  dict_get String.eqb (dict_set String.eqb a k x) k = Some x.
Proof.
  induction a as [|[k' v'] a IH]; simpl; [by rewrite String.eqb_refl|].
  destruct (String.eqb_spec k' k) as [->|Hne]; simpl.
  - by rewrite String.eqb_refl.
  - by destruct (String.eqb_spec k' k).
Qed.

Lemma string_dict_get_set_ne {V : Type} (a : list (string * V)) k x k' :
  k <> k' -> dict_get String.eqb (dict_set String.eqb a k x) k' = dict_get String.eqb a k'.
Proof.
  intros Hne. induction a as [|[k0 v0] a IH]; simpl.
  - by destruct (String.eqb_spec k k').
  - destruct (String.eqb_spec k0 k) as [->|Hk]; simpl.
    + by destruct (String.eqb_spec k k').
    + by rewrite IH.
Qed.

Lemma sheets_fold names roles acc :
  Forall (fun role : string * list string => Forall (fun v => v <> "") role.2) roles ->
  NoDup (fst <$> roles) ->
  let r := fold_left (sheet_step (lowered names)) roles acc in
  (forall key, key ∈ r.2 <->
     key ∈ acc.2 \/ exists variants, (key, variants) ∈ roles /\ ~ role_served names variants)
  /\ (forall key, key ∉ (fst <$> roles) ->
        dict_get String.eqb r.1 key = dict_get String.eqb acc.1 key)
  /\ (forall key variants, (key, variants) ∈ roles -> role_served names variants ->
        exists n, dict_get String.eqb r.1 key = Some n
                  /\ n ∈ names /\ Py.lower n ∈ variants).
Proof.
  revert acc. induction roles as [|[k vs] roles IH]; intros acc Hne Hnd; simpl.
  - split; [|split; [done|]].
    + intros key. split; [by left|]. by intros [?|(? & []%elem_of_nil & _)].
    + by intros ?? []%elem_of_nil.
  - apply Forall_cons in Hne as [Hk Hne]. rewrite fmap_cons in Hnd.
    apply NoDup_cons in Hnd as [Hfresh Hnd]. simpl in Hfresh.
    destruct (IH (sheet_step (lowered names) acc (k, vs)) Hne Hnd) as (Hmiss & Hkeep & Hget).
    destruct (sheet_step_served names acc (k, vs) Hk)
      as [(Hserved & n & Hn & Hl & Hstep)|(Hunserved & Hstep)];
      rewrite Hstep in Hmiss, Hkeep, Hget |- *; simpl in *.
    + split; [|split].
      * intros key. rewrite Hmiss. split.
        -- intros [?|(variants & Hin & Hun)]; [by left|].
           right. exists variants. split; [by right|done].
        -- intros [?|(variants & [[= -> ->]|Hin]%elem_of_cons & Hun)];
             [by left|done|].
           right. by exists variants.
      * intros key Hkey. rewrite Hkeep by (intros ?; apply Hkey; by right).
        apply string_dict_get_set_ne. intros ->. apply Hkey. by left.
      * intros key variants [[= -> ->]|Hin]%elem_of_cons Hs; [|by eapply Hget].
        exists n. rewrite Hkeep by done. by rewrite string_dict_get_set_eq.
    + split; [|split].
      * intros key. rewrite Hmiss, elem_of_app, list_elem_of_singleton. split.
        -- intros [[? | ->]|(variants & Hin & Hun)]; [by left| |].
           ++ right. exists vs. split; [by left|done].
           ++ right. exists variants. split; [by right|done].
        -- intros [?|(variants & [[= -> ->]|Hin]%elem_of_cons & Hun)];
             [by left; left|by left; right|].
           right. by exists variants.
      * intros key Hkey. apply Hkeep. intros ?. apply Hkey. by right.
      * intros key variants [[= -> ->]|Hin]%elem_of_cons Hs; [done|by eapply Hget].
Qed.

(** X11: [load_tables_xlsx] matches sheet names to tables by lower-casing
    them (without stripping).  It fails exactly when some table has no sheet
    among its accepted names, and the error lists exactly those tables;
    otherwise every table is given a sheet of the workbook whose lower-cased
    name is one of the names accepted for it. *)
Theorem load_tables_xlsx_spec (names : list string) :
  match load_tables_xlsx names with
  | inl missing =>
      missing <> []
      /\ forall key, key ∈ missing <->
           exists variants, (key, variants) ∈ expected /\ ~ role_served names variants
  | inr data =>
      forall key variants, (key, variants) ∈ expected ->
        exists n, dict_get String.eqb data key = Some n
                  /\ n ∈ names /\ Py.lower n ∈ variants
  end.
Proof.
  unfold load_tables_xlsx, match_sheets.
  destruct (sheets_fold names expected ([], [])) as (Hmiss & _ & Hget).
  { unfold expected. repeat (apply Forall_cons; split); try constructor; done. }
  { compute_done. }
  destruct (fold_left (sheet_step (lowered names)) expected ([], []))
    as [data missing] eqn:Hfold. simpl in *.
  destruct missing as [|m missing].
  - intros key variants Hin. apply (Hget key variants Hin).
    destruct (classic_served names variants) as [?|Hun]; [done|].
    exfalso. assert (key ∈ @nil string) as []%elem_of_nil.
    apply Hmiss. right. by exists variants.
  - split; [done|]. intros key. rewrite Hmiss. split.
    + intros [[]%elem_of_nil|?]. done.
    + by right.
Qed.

(** ** Stripping and splitting *)

Lemma contains_char_cons a c s :
  Py.contains (String a EmptyString) (String c s)
  = Ascii.eqb a c || Py.contains (String a EmptyString) s.
Proof.
  change (Py.contains (String a EmptyString) (String c s))
    with (String.prefix (String a EmptyString) (String c s)
          || Py.contains (String a EmptyString) s).
  f_equal. cbn [String.prefix]. destruct (ascii_dec a c) as [<-|Hne].
  - rewrite Ascii.eqb_refl. by destruct s.
  - symmetry. by apply Ascii.eqb_neq.
Qed.

Lemma lacks_nil a : lacks a EmptyString.
Proof. reflexivity. Qed.

Lemma lacks_cons a c s : lacks a (String c s) <-> a <> c /\ lacks a s.
Proof.
  unfold lacks. rewrite contains_char_cons, orb_false_iff, Ascii.eqb_neq. done.
Qed.

Lemma lacks_append a s t : lacks a (String.append s t) <-> lacks a s /\ lacks a t.
Proof.
  induction s as [|c s IH].
  - rewrite append_nil_l. split; [by split; [apply lacks_nil|]|by intros [_ ?]].
  - rewrite append_cons, !lacks_cons, IH. tauto.
Qed.

Lemma lstrip_lacks a s : lacks a s -> lacks a (PyStr.lstrip s).
Proof.
  induction s as [|c s IH]; [done|]. simpl.
  destruct (PyStr.is_space c); [|done]. intros [_ ?]%lacks_cons. by apply IH.
Qed.

Lemma rstrip_lacks a s : lacks a s -> lacks a (PyStr.rstrip s).
Proof.
  induction s as [|c s IH]; [done|]. intros [Hc Hs]%lacks_cons. simpl.
  specialize (IH Hs). destruct (PyStr.rstrip s) as [|d r].
  - destruct (PyStr.is_space c); [done|]. apply lacks_cons. by split.
  - apply lacks_cons. by split.
Qed.

Lemma strip_lacks a s : lacks a s -> lacks a (PyStr.strip s).
Proof. intros Hs. by apply rstrip_lacks, lstrip_lacks. Qed.

Lemma rstrip_idem s : PyStr.rstrip (PyStr.rstrip s) = PyStr.rstrip s.
Proof.
  induction s as [|c s IH]; [done|]. simpl.
  destruct (PyStr.rstrip s) as [|d r] eqn:Hr.
  - destruct (PyStr.is_space c) eqn:Hc; [done|]. simpl. by rewrite Hc.
  - change (PyStr.rstrip (String c (String d r)))
      with (match PyStr.rstrip (String d r) with
            | EmptyString => if PyStr.is_space c then EmptyString else String c EmptyString
            | r' => String c r'
            end).
    by rewrite IH.
Qed.

Lemma lstrip_starts_clean s : starts_clean (PyStr.lstrip s).
Proof.
  induction s as [|c s IH]; [done|]. simpl.
  destruct (PyStr.is_space c) eqn:Hc; [done|]. simpl. done.
Qed.

Lemma starts_clean_lstrip s : starts_clean s -> PyStr.lstrip s = s.
Proof. destruct s as [|c s]; [done|]. simpl. by intros ->. Qed.

Lemma rstrip_starts_clean s : starts_clean s -> starts_clean (PyStr.rstrip s).
Proof.
  destruct s as [|c s]; [done|]. simpl. intros Hc.
  destruct (PyStr.rstrip s); [by rewrite Hc|done].
Qed.

Lemma strip_idem s : PyStr.strip (PyStr.strip s) = PyStr.strip s.
Proof.
  unfold PyStr.strip.
  rewrite (starts_clean_lstrip (PyStr.rstrip (PyStr.lstrip s))).
  - apply rstrip_idem.
  - apply rstrip_starts_clean, lstrip_starts_clean.
Qed.

Lemma split_lacks_sep sep s p : p ∈ PyStr.split sep s -> lacks sep p.
Proof.
  revert p. induction s as [|c s IH]; intros p; simpl.
  - by intros ->%list_elem_of_singleton.
  - destruct (Ascii.eqb_spec c sep) as [->|Hne].
    + intros [->|Hp]%elem_of_cons; [done|by apply IH].
    + destruct (PyStr.split sep s) as [|q qs].
      * intros ->%list_elem_of_singleton. apply lacks_cons. by split.
      * intros [->|Hp]%elem_of_cons.
        -- apply lacks_cons. split; [done|]. apply IH. by left.
        -- apply IH. by right.
Qed.

Lemma split_lacks a sep s p : lacks a s -> p ∈ PyStr.split sep s -> lacks a p.
Proof.
  revert p. induction s as [|c s IH]; intros p Hs; simpl.
  - by intros ->%list_elem_of_singleton.
  - apply lacks_cons in Hs as [Hc Hs].
    destruct (Ascii.eqb c sep).
    + intros [->|Hp]%elem_of_cons; [done|by apply IH].
    + destruct (PyStr.split sep s) as [|q qs].
      * intros ->%list_elem_of_singleton. apply lacks_cons. by split.
      * intros [->|Hp]%elem_of_cons.
        -- apply lacks_cons. split; [done|]. apply IH; [done|by left].
        -- apply IH; [done|by right].
Qed.

Lemma replace_lacks_old a b s : a <> b -> lacks a (PyStr.replace a b s).
Proof.
  intros Hab. induction s as [|c s IH]; [done|]. simpl. apply lacks_cons.
  split; [|done]. destruct (Ascii.eqb_spec c a); congruence.
Qed.

Lemma replace_lacks c a b s : c <> b -> lacks c s -> lacks c (PyStr.replace a b s).
Proof.
  intros Hcb. induction s as [|d s IH]; [done|]. intros [Hd Hs]%lacks_cons. simpl.
  apply lacks_cons. split; [|by apply IH]. by destruct (Ascii.eqb d a).
Qed.

Lemma replace_absent a b s : lacks a s -> PyStr.replace a b s = s.
Proof.
  induction s as [|c s IH]; [done|]. intros [Hc Hs]%lacks_cons. simpl.
  rewrite IH by done. destruct (Ascii.eqb_spec c a); congruence.
Qed.

Lemma replace_append a b s t :
  PyStr.replace a b (String.append s t)
  = String.append (PyStr.replace a b s) (PyStr.replace a b t).
Proof.
  induction s as [|c s IH]; [done|]. rewrite append_cons. simpl.
  by rewrite IH, append_cons.
Qed.

Lemma split_elem_strip_elem s q :
  q ∈ PyStr.split_strip s ->
  q <> "" /\ exists p, p ∈ PyStr.split "," s /\ q = PyStr.strip p.
Proof.
  unfold PyStr.split_strip. intros (p & -> & Hp)%list_elem_of_fmap.
  apply list_elem_of_In, filter_In in Hp as [Hp Hne].
  split; [by destruct (PyStr.strip p)|]. exists p. by rewrite list_elem_of_In.
Qed.

(** X12: every item [preprocess] reads from a qualifications cell is
    non-empty, carries no leading or trailing white space (stripping it
    again changes nothing) and contains none of the separators [,], [;]
    and [/]. *)
Theorem parse_quals_items (raw_q q : string) :
  q ∈ parse_quals raw_q ->
  q <> "" /\ PyStr.strip q = q
  /\ lacks "," q /\ lacks ";" q /\ lacks "/" q.
Proof.
  unfold parse_quals. intros (Hne & p & Hp & ->)%split_elem_strip_elem.
  split; [done|]. split; [apply strip_idem|].
  split; [|split]; apply strip_lacks.
  - by eapply split_lacks_sep.
  - eapply split_lacks; [|exact Hp].
    apply replace_lacks; [done|]. by apply replace_lacks_old.
  - eapply split_lacks; [|exact Hp]. by apply replace_lacks_old.
Qed.

Lemma parse_quals_items_witness :
  lacks "/" "CS102".
Proof.
  refine (proj2 (proj2 (proj2 (proj2 (parse_quals_items "CS101; CS102 /MA201" "CS102" _))))).
  vm_compute. right. by left.
Defined.

(** ** Joining and splitting again *)

Lemma split_lacks_whole sep s : lacks sep s -> PyStr.split sep s = [s].
Proof.
  induction s as [|c s IH]; [done|]. intros [Hc Hs]%lacks_cons. simpl.
  destruct (Ascii.eqb_spec c sep); [congruence|]. by rewrite IH.
Qed.

Lemma split_append sep s t :
  lacks sep s ->
  PyStr.split sep (String.append s (String sep t)) = s :: PyStr.split sep t.
Proof.
  induction s as [|c s IH].
  - intros _. rewrite append_nil_l. simpl. by rewrite Ascii.eqb_refl.
  - intros [Hc Hs]%lacks_cons. rewrite append_cons. simpl.
    destruct (Ascii.eqb_spec c sep); [congruence|]. by rewrite IH.
Qed.

Lemma split_join sep l :
  l <> [] -> Forall (lacks sep) l -> PyStr.split sep (PyStr.join sep l) = l.
Proof.
  induction l as [|x l IH]; [done|]. intros _ [Hx Hl]%Forall_cons.
  destruct l as [|y l].
  - simpl. by apply split_lacks_whole.
  - change (PyStr.join sep (x :: y :: l))
      with (String.append x (String sep (PyStr.join sep (y :: l)))).
    rewrite split_append by done. f_equal. by apply IH.
Qed.

Lemma join_lacks a sep l : a <> sep -> Forall (lacks a) l -> lacks a (PyStr.join sep l).
Proof.
  intros Hne. induction l as [|x l IH]; [done|]. intros [Hx Hl]%Forall_cons.
  destruct l as [|y l]; [done|].
  change (PyStr.join sep (x :: y :: l))
    with (String.append x (String sep (PyStr.join sep (y :: l)))).
  apply lacks_append. split; [done|]. apply lacks_cons. split; [done|]. by apply IH.
Qed.

Lemma replace_cons a b c s :
  PyStr.replace a b (String c s)
  = String (if Ascii.eqb c a then b else c) (PyStr.replace a b s).
Proof. reflexivity. Qed.

Lemma replace_join a b l :
  Forall (lacks a) l -> PyStr.replace a b (PyStr.join a l) = PyStr.join b l.
Proof.
  induction l as [|x l IH]; [done|]. intros [Hx Hl]%Forall_cons.
  destruct l as [|y l]; [by apply replace_absent|].
  change (PyStr.join a (x :: y :: l))
    with (String.append x (String a (PyStr.join a (y :: l)))).
  change (PyStr.join b (x :: y :: l))
    with (String.append x (String b (PyStr.join b (y :: l)))).
  rewrite replace_append, (replace_absent a b x) by done.
  rewrite replace_cons, Ascii.eqb_refl. by rewrite IH.
Qed.

Lemma strip_clean_items l :
  Forall clean_item l ->
  PyStr.strip <$> List.filter (fun p => negb (Py.is_empty (PyStr.strip p))) l = l.
Proof.
  induction 1 as [|q l (Hne & Hs & _) _ IH]; [done|].
  cbn [List.filter]. rewrite Hs.
  destruct q; [done|]. simpl. rewrite Hs. f_equal. apply IH.
Qed.

Lemma split_strip_join l :
  Forall clean_item l -> PyStr.split_strip (PyStr.join "," l) = l.
Proof.
  intros Hl. unfold PyStr.split_strip. destruct l as [|x l]; [done|].
  rewrite split_join; [by apply strip_clean_items|done|].
  eapply Forall_impl; [exact Hl|]. by intros q (_ & _ & ? & _).
Qed.

(** X13: writing clean items with any one of the separators [,], [;], [/]
    between them and reading the cell back with [parse_quals] gives the
    items again, in order. *)
Theorem parse_quals_join (sep : ascii) (l : list string) :
  sep = ","%char \/ sep = ";"%char \/ sep = "/"%char ->
  Forall clean_item l ->
  parse_quals (PyStr.join sep l) = l.
Proof.
  intros Hsep Hl. unfold parse_quals.
  assert (Forall (lacks ",") l /\ Forall (lacks ";") l /\ Forall (lacks "/") l)
    as (Hc & Hs & Hd).
  { repeat split; (eapply Forall_impl; [exact Hl|]); by intros q (_ & _ & ? & ? & ?). }
  destruct Hsep as [-> | [-> | ->]].
  - rewrite (replace_absent ";" ","), (replace_absent "/" ",").
    + by apply split_strip_join.
    + by apply join_lacks.
    + by apply join_lacks.
  - rewrite replace_join by done. rewrite (replace_absent "/" ",").
    + by apply split_strip_join.
    + by apply join_lacks.
  - rewrite (replace_absent ";" ",") by (by apply join_lacks).
    rewrite replace_join by done. by apply split_strip_join.
Qed.

Lemma parse_quals_join_witness :
  parse_quals (PyStr.join ";" ["CS101"; "MA 201"]) = ["CS101"; "MA 201"].
Proof.
  apply (parse_quals_join ";" ["CS101"; "MA 201"]).
  - right. by left.
  - repeat (apply Forall_cons; split); try constructor; by vm_compute.
Defined.

(** ** [timetable.py]: domains and assignment *)

Lemma tt_build_dom_bind instructors rooms timeslots ctype cid studs :
  TimetablePy.build_dom instructors rooms timeslots ctype cid studs
  = timeslots ≫= (fun t => rooms ≫= tt_room_block instructors ctype cid studs t).
Proof.
  unfold TimetablePy.build_dom.
  rewrite (fold_left_extend _
             (fun t => rooms ≫= tt_room_block instructors ctype cid studs t)); [done|].
  intros acc t.
  apply (fold_left_extend _ (tt_room_block instructors ctype cid studs t)).
  intros acc' [r rinfo]. unfold tt_room_block. simpl.
  destruct (TimetablePy.compatible_room ctype (room_type rinfo)); simpl.
  - destruct (Z.ltb_spec (capacity rinfo) studs) as [Hlt|Hge].
    + destruct (Z.leb_spec studs (capacity rinfo)); [lia|]. by rewrite app_nil_r.
    + destruct (Z.leb_spec studs (capacity rinfo)); [|lia].
      apply (fold_left_snoc
               (fun instr : string * Instructor =>
                  (t, r, instr.1, bool_decide (cid ∈ quals instr.2)))).
  - by rewrite app_nil_r.
Qed.

Lemma tt_build_dom_elem instructors rooms timeslots ctype cid studs (d : Candidate) :
  d ∈ TimetablePy.build_dom instructors rooms timeslots ctype cid studs <->
  cand_t d ∈ timeslots
  /\ (exists info, (cand_instr d, info) ∈ instructors
                   /\ cand_qual d = bool_decide (cid ∈ quals info))
  /\ spec_room_ok rooms ctype studs d.
Proof.
  rewrite tt_build_dom_bind, list_elem_of_bind. unfold spec_room_ok. split.
  - intros (t & Hd & Ht). apply list_elem_of_bind in Hd as ([r rinfo] & Hd & Hr).
    unfold tt_room_block in Hd. simpl in Hd.
    rewrite timetable_compatible_room_spec in Hd.
    destruct (spec_compatible ctype (room_type rinfo)) eqn:Hc; simpl in Hd;
      [|by apply elem_of_nil in Hd].
    destruct (Z.leb_spec studs (capacity rinfo)); [|by apply elem_of_nil in Hd].
    apply list_elem_of_fmap in Hd as ([i info] & -> & Hi). simpl.
    split; [done|]. split; [by exists info|]. by exists rinfo.
  - destruct d as [[[t r] instr] q]. simpl.
    intros (Ht & (info & Hi & ->) & rinfo & Hr & Hc & Hcap).
    exists t. split; [|done].
    apply list_elem_of_bind. exists (r, rinfo). split; [|done].
    unfold tt_room_block. simpl. rewrite timetable_compatible_room_spec, Hc.
    destruct (Z.leb_spec studs (capacity rinfo)); [|lia]. simpl.
    apply list_elem_of_fmap. by exists (instr, info).
Qed.

(** X14: in [timetable.py], whose [compatible_room] has no guard for an
    empty course type, a tuple belongs to the domain built for a session iff
    its timeslot is listed, its instructor is listed with the flag telling
    whether the course is among the instructor's qualifications, and its room
    is listed with a type compatible in the specification's sense (equal, or
    both lecture-like, lab-like or project-like, or a lecture-like room) and
    a capacity of at least the student count. *)
Theorem timetable_domain_membership
    (instructors : list (string * Instructor)) (rooms : list (string * Room))
    (timeslots : list string) (ctype cid : string) (studs : Z) (d : Candidate) :
  d ∈ TimetablePy.build_dom instructors rooms timeslots ctype cid studs <->
  cand_t d ∈ timeslots
  /\ (exists info, (cand_instr d, info) ∈ instructors
                   /\ cand_qual d = bool_decide (cid ∈ quals info))
  /\ spec_room_ok rooms ctype studs d.
Proof. apply tt_build_dom_elem. Qed.

(** *** Assignment *)

Lemma tt_pick_some draws instructors rooms timeslots st dom :
  (dom = [] -> timeslots <> [] /\ rooms <> [] /\ instructors <> []) ->
  exists c k, TimetablePy.pick draws instructors rooms timeslots st dom = Some (c, k)
              /\ tt_drawn_from instructors rooms timeslots dom c.
Proof.
  intros Htab. unfold TimetablePy.pick, tt_drawn_from.
  destruct (first_fit _ _ (preference_order dom)) as [c|] eqn:Hff.
  - exists c, (TimetablePy.tt_calls st). split; [done|].
    apply first_fit_elem in Hff. rewrite preference_order_elem in Hff.
    by destruct dom; [apply elem_of_nil in Hff|].
  - destruct dom as [|d dom].
    + destruct Htab as (Hts & Hr & Hi); [done|].
      destruct (timetable_choice_elem draws (TimetablePy.tt_calls st) timeslots Hts)
        as (t & -> & Ht).
      destruct (timetable_choice_elem draws (S (TimetablePy.tt_calls st)) (dict_keys rooms))
        as (r & Hrc & Hrk); [by destruct rooms|].
      destruct (timetable_choice_elem draws (S (S (TimetablePy.tt_calls st)))
                  (dict_keys instructors)) as (i & Hic & Hik); [by destruct instructors|].
      simpl. rewrite Hrc. simpl. rewrite Hic. simpl.
      eexists _, _. split; [done|]. by simpl.
    + destruct (timetable_choice_elem draws (TimetablePy.tt_calls st) (d :: dom))
        as (c & -> & Hc); [done|]. simpl.
      eexists _, _. split; done.
Qed.

Lemma tt_greedy_loop_total draws instructors rooms timeslots l st :
  (forall e, e ∈ l -> e.2 = [] -> timeslots <> [] /\ rooms <> [] /\ instructors <> []) ->
  exists st' new,
    TimetablePy.greedy_loop draws instructors rooms timeslots l st = Some st'
    /\ TimetablePy.tt_assigned st' = TimetablePy.tt_assigned st ++ new
    /\ Forall2 (tt_assigned_from instructors rooms timeslots) l new.
Proof.
  revert st. induction l as [|e l IH]; intros st Htab; simpl.
  - exists st, []. by rewrite app_nil_r.
  - destruct (tt_pick_some draws instructors rooms timeslots st e.2)
      as (c & k & Hpick & Hc); [apply Htab; by left|].
    unfold TimetablePy.greedy_step. rewrite Hpick. simpl.
    edestruct IH as (st' & new & -> & Hnew & Hall);
      [intros e' He'; apply Htab; by right|].
    exists st', ((e.1, c) :: new). split; [done|]. simpl in Hnew.
    split; [by rewrite Hnew, <- app_assoc|]. by constructor.
Qed.

(** X15: [greedy_assign] of [timetable.py] returns (no [IndexError]) whenever
    every variable with an empty domain finds at least one timeslot, one room
    and one instructor to draw from.  The result then has exactly one entry
    per variable, in descending order of student count (stable); the entry
    of a variable with a non-empty domain is a tuple of that domain, and the
    entry of a variable with an empty domain is an unqualified tuple of a
    listed timeslot, a listed room id and a listed instructor id. *)
Theorem timetable_greedy_assign_total
    (draws : nat -> nat) (instructors : list (string * Instructor))
    (rooms : list (string * Room)) (timeslots : list string)
    (variables : list (LectureVar * list Candidate)) :
  (forall e, e ∈ variables -> e.2 = [] ->
     timeslots <> [] /\ rooms <> [] /\ instructors <> []) ->
  exists a,
    TimetablePy.greedy_assign draws instructors rooms timeslots variables = Some a
    /\ Forall2 (tt_assigned_from instructors rooms timeslots) (sorted_by (fun e => - students e.1) variables) a
    /\ length a = length variables.
Proof.
  intros Htab. unfold TimetablePy.greedy_assign.
  destruct (tt_greedy_loop_total draws instructors rooms timeslots
              (sorted_by (fun e => - students e.1) variables)
              (TimetablePy.mkState [] ∅ ∅ 0))
    as (st' & new & -> & Hnew & Hall).
  - intros e He. apply Htab. by rewrite sorted_by_perm in He.
  - simpl in Hnew. simpl. exists (TimetablePy.tt_assigned st'). rewrite Hnew.
    split; [done|]. split; [done|].
    apply Forall2_length in Hall. rewrite <- Hall.
    apply Permutation_length, sorted_by_perm.
Qed.

Lemma timetable_greedy_assign_total_witness :
  exists a,
    TimetablePy.greedy_assign (fun _ => 0%nat) [] [] []
      [(scenario_L0, [("T1", "R1", "I1", true)])] = Some a
    /\ length a = 1%nat.
Proof.
  destruct (timetable_greedy_assign_total (fun _ => 0%nat) [] [] []
              [(scenario_L0, [("T1", "R1", "I1", true)])]) as (a & Ha & _ & Hlen).
  - intros e ->%list_elem_of_singleton. discriminate.
  - by exists a.
Defined.

Lemma tt_pick_none draws instructors rooms timeslots st :
  timeslots = [] \/ rooms = [] \/ instructors = [] ->
  TimetablePy.pick draws instructors rooms timeslots st [] = None.
Proof.
  intros Hempty. unfold TimetablePy.pick. simpl.
  destruct Hempty as [-> | [-> | ->]]; [done| |].
  - by destruct (TimetablePy.choice draws _ timeslots).
  - destruct (TimetablePy.choice draws _ timeslots); [|done]. simpl.
    by destruct (TimetablePy.choice draws _ (dict_keys rooms)).
Qed.

Lemma tt_greedy_loop_none draws instructors rooms timeslots l st e :
  e ∈ l -> e.2 = [] ->
  timeslots = [] \/ rooms = [] \/ instructors = [] ->
  TimetablePy.greedy_loop draws instructors rooms timeslots l st = None.
Proof.
  intros He Hdom Hempty. revert st.
  induction l as [|x l IH]; intros st; [by apply elem_of_nil in He|]. simpl.
  destruct (TimetablePy.greedy_step draws instructors rooms timeslots st x)
    as [st1|] eqn:Hstep; [|done]. simpl.
  apply elem_of_cons in He as [<-|He]; [|by apply IH].
  unfold TimetablePy.greedy_step in Hstep.
  by rewrite Hdom, tt_pick_none in Hstep.
Qed.

(** X16: [greedy_assign] of [timetable.py] raises ([IndexError] of
    [random.choice]) as soon as some variable has an empty domain while the
    timeslots, the rooms or the instructors are empty; no assignment is
    returned, not even for the variables processed before. *)
Theorem timetable_greedy_assign_raises
    (draws : nat -> nat) (instructors : list (string * Instructor))
    (rooms : list (string * Room)) (timeslots : list string)
    (variables : list (LectureVar * list Candidate)) (e : LectureVar * list Candidate) :
  e ∈ variables -> e.2 = [] ->
  timeslots = [] \/ rooms = [] \/ instructors = [] ->
  TimetablePy.greedy_assign draws instructors rooms timeslots variables = None.
Proof.
  intros He Hdom Hempty. unfold TimetablePy.greedy_assign.
  rewrite (tt_greedy_loop_none _ _ _ _ _ _ e); try done.
  by rewrite sorted_by_perm.
Qed.

Lemma timetable_greedy_assign_raises_witness :
  TimetablePy.greedy_assign (fun _ => 0%nat) [("I1", mkInstructor "Ann" ∅)]
    [("R1", mkRoom "lab" 30)] [] [(scenario_L0, [])] = None.
Proof.
  apply (timetable_greedy_assign_raises _ _ _ _ _ (scenario_L0, [])).
  - by left.
  - reflexivity.
  - by left.
Defined.

(** *** [build_vars_domains] and [main] *)

Lemma insert_by_fmap {A B : Type} (key : B -> Z) (f : A -> B) x l :
  insert_by key (f x) (f <$> l) = f <$> insert_by (fun a => key (f a)) x l.
Proof.
  induction l as [|y l IH]; [done|]. rewrite fmap_cons. cbn [insert_by].
  destruct (key (f x) <=? key (f y)); [done|]. by rewrite IH.
Qed.

Lemma sorted_by_fmap {A B : Type} (key : B -> Z) (f : A -> B) l :
  sorted_by key (f <$> l) = f <$> sorted_by (fun a => key (f a)) l.
Proof.
  induction l as [|x l IH]; [done|].
  rewrite fmap_cons. cbn [sorted_by]. by rewrite IH, insert_by_fmap.
Qed.

Lemma fmap_bind_list {A B C : Type} (f : B -> C) (g : A -> list B) (l : list A) :
  f <$> (l ≫= g) = l ≫= (fun x => f <$> g x).
Proof.
  induction l as [|x l IH]; [done|].
  by rewrite !bind_cons, fmap_app, IH.
Qed.

Lemma tt_build_vars_domains_sessions courses instructors rooms timeslots curriculum
    sections :
  TimetablePy.build_vars_domains courses instructors rooms timeslots curriculum sections
  = (fun v => (v, tt_dom_for courses instructors rooms timeslots v))
      <$> all_sessions courses curriculum sections.
Proof.
  unfold TimetablePy.build_vars_domains, all_sessions.
  rewrite fmap_bind_list.
  rewrite (fold_left_extend _
    (fun sec => (fun v => (v, tt_dom_for courses instructors rooms timeslots v))
                  <$> (default [] (curriculum !! sec_year sec) ≫= sessions_for courses sec)));
    [done|].
  intros acc sec. rewrite fmap_bind_list.
  apply (fold_left_extend _
    (fun cid => (fun v => (v, tt_dom_for courses instructors rooms timeslots v))
                  <$> sessions_for courses sec cid)).
  intros acc' cid. unfold sessions_for. rewrite <- list_fmap_compose.
  apply (fold_left_snoc
    (fun i => (mkLectureVar cid (section_id sec) (sec_year sec) i (sec_students sec),
               TimetablePy.build_dom instructors rooms timeslots (ctype_of courses cid)
                 cid (sec_students sec)))).
Qed.

(** X17: the whole of [timetable.py] after loading.  With at least one
    timeslot, one room and one instructor, [main] assigns every generated
    session exactly once (the sessions are those [test.py] generates, and they
    are processed by descending student count), and every committed tuple
    names a listed timeslot, a listed room id and a listed instructor id:
    unlike [test.py], no id is invented.  When the domain computed for the
    session is non-empty, the room moreover has a compatible type and a
    capacity of at least the student count. *)
Theorem timetable_main_assigns_listed
    (draws : nat -> nat) (courses : gmap string Course)
    (instructors : list (string * Instructor)) (rooms : list (string * Room))
    (timeslots : list string) (curriculum : gmap Z (list string))
    (sections : list Section) :
  timeslots <> [] -> rooms <> [] -> instructors <> [] ->
  exists a,
    TimetablePy.main_assign courses instructors rooms timeslots curriculum draws sections
    = Some a
    /\ a.*1 = sorted_by (fun v => - students v) (all_sessions courses curriculum sections)
    /\ Forall (fun r : LectureVar * Candidate =>
         cand_t r.2 ∈ timeslots /\ cand_r r.2 ∈ dict_keys rooms
         /\ cand_instr r.2 ∈ dict_keys instructors
         /\ (tt_dom_for courses instructors rooms timeslots r.1 <> [] ->
             spec_room_ok rooms (ctype_of courses (course r.1)) (students r.1) r.2)) a.
Proof.
  intros Hts Hrooms Hinstr. unfold TimetablePy.main_assign, TimetablePy.greedy_assign.
  rewrite tt_build_vars_domains_sessions, sorted_by_fmap. cbn [fst].
  destruct (tt_greedy_loop_total draws instructors rooms timeslots
              ((fun v => (v, tt_dom_for courses instructors rooms timeslots v))
                 <$> sorted_by (fun v => - students v)
                       (all_sessions courses curriculum sections))
              (TimetablePy.mkState [] ∅ ∅ 0))
    as (st' & new & -> & Hnew & Hall); [done|].
  simpl in Hnew. simpl. exists (TimetablePy.tt_assigned st'). rewrite Hnew.
  split; [done|]. clear Hnew.
  generalize dependent new.
  induction (sorted_by (fun v => - students v) (all_sessions courses curriculum sections))
    as [|v l IH]; intros new Hall.
  - apply Forall2_nil_inv_l in Hall as ->. by split.
  - rewrite fmap_cons in Hall.
    apply Forall2_cons_inv_l in Hall as (r & new' & [Hr Hdrawn] & Hall & ->).
    apply IH in Hall as [Hfst Hrest]. simpl in Hr, Hdrawn.
    split; [by rewrite fmap_cons, Hr, Hfst|].
    constructor; [|done]. rewrite Hr. unfold tt_drawn_from in Hdrawn.
    destruct (tt_dom_for courses instructors rooms timeslots v) as [|d0 dom] eqn:Hdom.
    + destruct Hdrawn as (? & ? & ? & ?). by repeat split.
    + rewrite <- Hdom in Hdrawn. unfold tt_dom_for in Hdrawn.
      apply tt_build_dom_elem in Hdrawn as (Ht & (info & Hi & _) & Hroom).
      split; [done|]. split.
      { destruct Hroom as (rinfo & Hr' & _).
        apply list_elem_of_fmap. by exists (cand_r r.2, rinfo). }
      split; [|done].
      apply list_elem_of_fmap. by exists (cand_instr r.2, info).
Qed.

Lemma timetable_main_assigns_listed_witness :
  exists a,
    TimetablePy.main_assign scenario_courses [("I1", mkInstructor "Ann" ∅)]
      [("R1", mkRoom "lecture" 30)] ["T1"] scenario_curriculum (fun _ => 0%nat)
      scenario_sections = Some a
    /\ Forall (fun r : LectureVar * Candidate => cand_r r.2 ∈ ["R1"]) a.
Proof.
  destruct (timetable_main_assigns_listed (fun _ => 0%nat) scenario_courses
              [("I1", mkInstructor "Ann" ∅)] [("R1", mkRoom "lecture" 30)] ["T1"]
              scenario_curriculum scenario_sections) as (a & Ha & _ & Hall);
    [done | done | done |].
  exists a. split; [done|].
  eapply Forall_impl; [exact Hall|]. by intros r (_ & Hr & _).
Defined.

(** ** [data_loader.py] *)

Lemma fold_add_elem (l : list nat) (acc : gset nat) (s : nat) :
  s ∈ fold_left (fun preferred ts_id => {[ts_id]} ∪ preferred) l acc
  <-> s ∈ l \/ s ∈ acc.
Proof.
  revert acc. induction l as [|x l IH]; intros acc; simpl.
  - rewrite elem_of_nil. tauto.
  - rewrite IH, elem_of_cons, elem_of_union, elem_of_singleton. tauto.
Qed.

Lemma range_elem a b s : s ∈ DataLoader.range a b <-> (a <= s < b)%nat.
Proof. unfold DataLoader.range. rewrite list_elem_of_In, in_seq. lia. Qed.

Lemma preferred_fold_elem (pref_str : string) (days : list (string * nat))
    (acc : gset nat) (s : nat) :
  s ∈ fold_left (fun preferred (e : string * nat) =>
          let (day, day_num) := e in
          if Py.contains day pref_str then
            fold_left (fun preferred ts_id => {[ts_id]} ∪ preferred)
                      (DataLoader.range (day_num * 4) ((day_num + 1) * 4)) preferred
          else preferred) days acc
  <-> (exists day d, (day, d) ∈ days /\ Py.contains day pref_str = true
                     /\ (d * 4 <= s < (d + 1) * 4)%nat)
      \/ s ∈ acc.
Proof.
  revert acc. induction days as [|[day d] days IH]; intros acc; cbn [fold_left].
  - split; [by right|]. intros [(day & d & H & _)|H]; [by apply elem_of_nil in H|done].
  - rewrite IH. destruct (Py.contains day pref_str) eqn:Hc.
    + rewrite fold_add_elem, range_elem. split.
      * intros [(day' & d' & Hin & Hc' & Hs)|[Hs|Hacc]].
        -- left. exists day', d'. split; [by right|done].
        -- left. exists day, d. split; [by left|done].
        -- by right.
      * intros [(day' & d' & Hin & Hc' & Hs)|Hacc]; [|by right; right].
        apply elem_of_cons in Hin as [Heq|Hin].
        -- injection Heq as -> ->. right. by left.
        -- left. by exists day', d'.
    + split.
      * intros [(day' & d' & Hin & Hc' & Hs)|Hacc]; [|by right].
        left. exists day', d'. split; [by right|done].
      * intros [(day' & d' & Hin & Hc' & Hs)|Hacc]; [|by right].
        apply elem_of_cons in Hin as [Heq|Hin].
        -- injection Heq as -> ->. congruence.
        -- left. by exists day', d'.
Qed.

Lemma preferred_slots_elem (pref_str : string) (s : nat) :
  s ∈ DataLoader.preferred_slots (Some pref_str) <->
  exists day d, (day, d) ∈ DataLoader.day_mapping
                /\ Py.contains day pref_str = true
                /\ (d * 4 <= s < (d + 1) * 4)%nat.
Proof.
  unfold DataLoader.preferred_slots.
  destruct (String.eqb_spec pref_str "Any time") as [->|Hne]; cbn [negb].
  - split; [by intros ?%not_elem_of_empty|].
    intros (day & d & Hin & Hc & _). unfold DataLoader.day_mapping in Hin.
    repeat (apply elem_of_cons in Hin as [Heq|Hin];
            [injection Heq as -> ->; by vm_compute in Hc|]).
    by apply elem_of_nil in Hin.
  - rewrite preferred_fold_elem. split; [|by left].
    by intros [?|?%not_elem_of_empty].
Qed.

(** X18: the slots [load_instructors] records as available.  A slot is
    available iff it is one of the twenty slots 0..19 and the name of its day
    (four slots per day, Sunday first) does not occur in the cell; a missing
    cell and the cell ['Any time'] leave all twenty available.  The day names
    listed are thus the days to avoid, and naming Friday or Saturday changes
    nothing, their slots lying beyond 19. *)
Theorem available_slots_spec (cell : option string) (s : nat) :
  s ∈ DataLoader.available_slots cell <->
  (s < 20)%nat
  /\ match cell with
     | None => True
     | Some pref_str => Py.contains (weekday (s / 4)) pref_str = false
     end.
Proof.
  unfold DataLoader.available_slots.
  rewrite elem_of_difference, elem_of_list_to_set, range_elem.
  destruct cell as [pref_str|].
  2:{ simpl. split; intros [? _]; (split; [lia|]); [done|apply not_elem_of_empty]. }
  rewrite preferred_slots_elem. split.
  - intros [Hlt Hnot]. split; [lia|].
    destruct (Py.contains (weekday (s / 4)) pref_str) eqn:Hc; [|done].
    exfalso. apply Hnot. exists (weekday (s / 4)), (s / 4)%nat.
    split; [|split; [done|]].
    + assert (s / 4 < 5)%nat as Hd by (apply Nat.Div0.div_lt_upper_bound; lia).
      unfold DataLoader.day_mapping.
      rewrite list_elem_of_In.
      destruct (s / 4)%nat as [|[|[|[|[|?]]]]]; [cbn; tauto..|lia].
    + pose proof (Nat.div_mod_eq s 4). pose proof (Nat.mod_upper_bound s 4). lia.
  - intros [Hlt Hc]. split; [lia|].
    intros (day & d & Hin & Hday & Hs).
    assert (s / 4 = d)%nat as Hd.
    { symmetry. apply (Nat.div_unique s 4 d (s - d * 4)); lia. }
    rewrite Hd in Hc. unfold DataLoader.day_mapping in Hin.
    repeat (apply elem_of_cons in Hin as [Heq|Hin];
            [injection Heq as -> ->; first [lia | cbn in Hc; congruence]|]).
    by apply elem_of_nil in Hin.
Qed.

(** *** Loaded tables and their statistics *)

Section LoadedTable.
Context {R V : Type} (key : R -> string) (value : R -> V).

Lemma string_dict_set_keys (d : list (string * V)) k v :
  dict_keys (dict_set String.eqb d k v)
  = if bool_decide (k ∈ dict_keys d) then dict_keys d else dict_keys d ++ [k].
Proof.
  unfold dict_keys. induction d as [|[k' v'] d IH]; [done|].
  cbn [dict_set]. rewrite (fmap_cons fst (k', v') d). cbn [fst].
  destruct (String.eqb_spec k' k) as [->|Hne].
  - rewrite bool_decide_eq_true_2 by (by left). by rewrite fmap_cons.
  - rewrite fmap_cons, IH. cbn [fst].
    destruct (bool_decide_reflect (k ∈ d.*1)) as [Hin|Hout].
    + rewrite bool_decide_eq_true_2 by (by right). done.
    + rewrite bool_decide_eq_false_2; [done|].
      intros [?|?]%elem_of_cons; [congruence|done].
Qed.

Lemma string_dict_set_values (P : V -> Prop) (d : list (string * V)) k v :
  Forall P d.*2 -> P v -> Forall P (dict_set String.eqb d k v).*2.
Proof.
  intros Hd Hv. induction d as [|[k' v'] d IH]; simpl; [by constructor|].
  rewrite fmap_cons in Hd. apply Forall_cons in Hd as [Hv' Hd].
  destruct (String.eqb k' k); simpl; constructor; auto.
Qed.

Lemma load_fold_keys df (d : list (string * V)) :
  NoDup (dict_keys d) ->
  let d' := fold_left (fun d row => dict_set String.eqb d (key row) (value row)) df d in
  NoDup (dict_keys d')
  /\ (forall k, k ∈ dict_keys d' <-> k ∈ key <$> df \/ k ∈ dict_keys d).
Proof.
  revert d. induction df as [|row df IH]; intros d Hnd; cbn [fold_left].
  - split; [done|]. intros k. rewrite fmap_nil, elem_of_nil. tauto.
  - destruct (IH (dict_set String.eqb d (key row) (value row))) as [Hnd' Hk].
    + rewrite string_dict_set_keys.
      destruct (bool_decide_reflect (key row ∈ dict_keys d)); [done|].
      apply NoDup_app. split; [done|]. split; [|apply NoDup_singleton].
      by intros k Hk ->%list_elem_of_singleton.
    + split; [done|]. intros k. rewrite Hk, string_dict_set_keys, fmap_cons, elem_of_cons.
      destruct (bool_decide_reflect (key row ∈ dict_keys d)) as [Hin|Hout].
      * split; [tauto|]. intros [[->|?]|?]; tauto.
      * rewrite elem_of_app, list_elem_of_singleton. tauto.
Qed.

Lemma load_fold_values (P : V -> Prop) df (d : list (string * V)) :
  (forall row, P (value row)) -> Forall P d.*2 ->
  Forall P (fold_left (fun d row => dict_set String.eqb d (key row) (value row)) df d).*2.
Proof.
  intros HP. revert d. induction df as [|row df IH]; intros d Hd; [done|].
  cbn [fold_left]. apply IH. by apply string_dict_set_values.
Qed.
End LoadedTable.

Lemma two_kinds_partition {V : Type} (kind : V -> string) (l : list V) :
  Forall (fun x => kind x = "lab" \/ kind x = "lec") l ->
  (length (List.filter (fun x => String.eqb (kind x) "lec") l)
   + length (List.filter (fun x => String.eqb (kind x) "lab") l))%nat = length l.
Proof.
  induction 1 as [|x l [Hx|Hx] _ IH]; [done| |]; simpl; rewrite Hx; simpl; lia.
Qed.

(** X19: the statistics of tables loaded by [load_courses] and
    [load_rooms].  Every loaded room and course is of type ['lab'] or
    ['lec'], so the lecture and lab counts of [get_statistics] add up to the
    totals; and a total counts the distinct ids of the table, rows repeating
    an id being merged into one entry. *)
Theorem loaded_statistics_partition
    (courses_df : list DataLoader.CourseRow) (rooms_df : list DataLoader.RoomRow) :
  let courses := DataLoader.load_courses courses_df in
  let rooms := DataLoader.load_rooms rooms_df in
  let stats := DataLoader.get_statistics courses rooms in
  (DataLoader.lecture_rooms stats + DataLoader.lab_rooms stats
   = DataLoader.total_rooms stats)%nat
  /\ (DataLoader.lecture_courses stats + DataLoader.lab_courses stats
      = DataLoader.total_courses stats)%nat
  /\ NoDup (dict_keys rooms)
  /\ (forall k, k ∈ dict_keys rooms <-> k ∈ DataLoader.rr_RoomID <$> rooms_df)
  /\ NoDup (dict_keys courses)
  /\ (forall k, k ∈ dict_keys courses <-> k ∈ DataLoader.cr_CourseID <$> courses_df).
Proof.
  intros courses rooms stats.
  destruct (load_fold_keys DataLoader.rr_RoomID
              (fun row => mkRoom (if String.eqb (DataLoader.rr_Type row) "Lab"
                                  then "lab" else "lec") (DataLoader.rr_Capacity row))
              rooms_df []) as [Hrn Hrk]; [constructor|].
  destruct (load_fold_keys DataLoader.cr_CourseID
              (fun row => DataLoader.mkCourseInfo (DataLoader.cr_CourseName row)
                            (DataLoader.cr_Credits row)
                            (if Py.contains "Lab" (DataLoader.cr_Type row)
                             then "lab" else "lec"))
              courses_df []) as [Hcn Hck]; [constructor|].
  split; [|split; [|split; [exact Hrn|split; [|split; [exact Hcn|]]]]].
  - unfold stats, DataLoader.get_statistics. cbn [DataLoader.lecture_rooms
      DataLoader.lab_rooms DataLoader.total_rooms].
    rewrite two_kinds_partition; [by rewrite length_fmap|].
    apply (load_fold_values DataLoader.rr_RoomID); [|constructor].
    intros row. simpl. destruct (String.eqb _ _); auto.
  - unfold stats, DataLoader.get_statistics. cbn [DataLoader.lecture_courses
      DataLoader.lab_courses DataLoader.total_courses].
    rewrite two_kinds_partition; [by rewrite length_fmap|].
    apply (load_fold_values DataLoader.cr_CourseID); [|constructor].
    intros row. simpl. destruct (Py.contains _ _); auto.
  - intros k. etrans; [apply Hrk|]. simpl. rewrite elem_of_nil. tauto.
  - intros k. etrans; [apply Hck|]. simpl. rewrite elem_of_nil. tauto.
Qed.

(** ** The room rule of the three scripts *)

Lemma lower_is_empty s : Py.is_empty (Py.lower s) = Py.is_empty s.
Proof. by destruct s. Qed.

(** X20: the three scripts agree on which room type suits a course type,
    except for the guard of [test.py]: [match_room] of the Streamlit
    interface and [compatible_room] of [timetable.py] are the same function,
    [compatible_room] of [test.py] accepts exactly what they accept plus
    every room for an empty course type, and the clause on two lecture-like
    types never decides (the last clause covers it). *)
Theorem room_rules_agree (course_type room_type : string) :
  StreamlitUi.match_room course_type room_type
  = TimetablePy.compatible_room course_type room_type
  /\ compatible_room course_type room_type
     = Py.is_empty course_type || StreamlitUi.match_room course_type room_type
  /\ StreamlitUi.match_room course_type room_type
     = String.eqb (Py.lower course_type) (Py.lower room_type)
       || (Py.contains "lab" (Py.lower course_type)
           && Py.contains "lab" (Py.lower room_type))
       || (Py.contains "project" (Py.lower course_type)
           && Py.contains "project" (Py.lower room_type))
       || Py.contains "lec" (Py.lower room_type).
Proof.
  unfold StreamlitUi.match_room, TimetablePy.compatible_room, compatible_room.
  rewrite <- (lower_is_empty course_type).
  destruct (Py.is_empty (Py.lower course_type)),
    (String.eqb (Py.lower course_type) (Py.lower room_type)),
    (Py.contains "lec" (Py.lower course_type)),
    (Py.contains "lec" (Py.lower room_type)),
    (Py.contains "lab" (Py.lower course_type)),
    (Py.contains "lab" (Py.lower room_type)),
    (Py.contains "project" (Py.lower course_type)),
    (Py.contains "project" (Py.lower room_type)); done.
Qed.
